(** * Shopify bulk-maintenance app: webhook ingestion and bulk mutation engine

    A shallow embedding of the TypeScript sources

    - [app/routes/app.inventory-reset.tsx]  (inventory reset orchestrator),
    - [app/routes/app._index.tsx]           (vendor archive),
    - the inventory-policy scan route       (policy scan),
    - [app/utils/shopify-webhook.server.ts] (signature verifier),
    - [app/routes/webhooks.customers.data_request.tsx] (ingestion handler),
    - the [WebhookEvent] table of the Prisma migration,

    followed by the theorems that settle what the specification says about
    them.

    Conventions of the embedding.
    - [async] functions that talk to the Admin GraphQL API run in the monad
      [M]: a state monad over the [World] (the remote shop's state and the
      log of calls made so far) whose outcome is a returned value, a thrown
      exception, or exhausted fuel.  Fuel bounds only the [while (true)]
      pagination loops, one unit per page.
    - [null] and [undefined] are both [None]; a JavaScript [a || b] on an
      optional string is [or_else], which also treats the empty string as
      falsy, exactly as the source does.
    - counters are [nat], quantities and deltas are [Z] (GraphQL [Int]),
      strings are byte strings (their UTF-8 encoding). *)

From Stdlib Require Import ZArith String Ascii.
From stdpp Require Import base option list gmap strings.
From Equations Require Import Equations.

Open Scope string_scope.
Open Scope list_scope.
Open Scope Z_scope.

(* ===================================================================== *)
(** * JavaScript idioms *)
(* ===================================================================== *)

(** Truthiness of an optional string: [null], [undefined] and [""] are falsy. *)
Definition truthy (x : option string) : bool :=
  match x with
  | Some s => negb (String.eqb s "")
  | None => false
  end.

(** [a || b] on optional strings. *)
Definition or_else (a b : option string) : option string :=
  if truthy a then a else b.

(** [a || ""]: the result is always a string. *)
Definition or_empty (a : option string) : string :=
  match or_else a None with
  | Some s => s
  | None => ""
  end.

(** [arr.slice(i, j)] for [0 <= i <= j]. *)
Definition slice {T} (arr : list T) (i j : nat) : list T :=
  take (j - i) (drop i arr).

(** [Array.from(new Set(arr))]: a [Set] iterates in insertion order, so the
    first occurrence of every element is kept. *)
Definition uniqueInOrder (arr : list string) : list string :=
  fold_left (fun seen x => if bool_decide (x ∈ seen) then seen else seen ++ [x])
            arr [].

(** A JavaScript [Map<string, V>]: iteration follows the order in which keys
    were first inserted; [set] on an existing key replaces the value in
    place. *)
Definition JsMap (V : Type) : Type := list (string * V).

Fixpoint map_get {V} (m : JsMap V) (k : string) : option V :=
  match m with
  | [] => None
  | (k', v) :: m' => if String.eqb k' k then Some v else map_get m' k
  end.

Fixpoint map_set {V} (m : JsMap V) (k : string) (v : V) : JsMap V :=
  match m with
  | [] => [(k, v)]
  | (k', v') :: m' =>
      if String.eqb k' k then (k', v) :: m' else (k', v') :: map_set m' k v
  end.

(* ===================================================================== *)
(** * Outcomes and the monad of remote computations *)
(* ===================================================================== *)

Inductive Error : Type :=
| GraphQLRequestFailed (payload : option string)
    (* [throw new Error(`Shopify GraphQL request failed: ...`)] *)
| TypeError            (* property access on [null]; [clone()] of a body already read *)
| RangeError           (* [crypto.timingSafeEqual] on buffers of different length *)
| SyntaxError          (* [JSON.parse] on malformed text *)
| UniqueConstraintViolation. (* primary-key clash on insert *)

Inductive Outcome (A : Type) : Type :=
| Ret (a : A)
| Throw (e : Error)
| OutOfFuel.
Arguments Ret {A} a.
Arguments Throw {A} e.
Arguments OutOfFuel {A}.

Definition M (W A : Type) : Type := W -> Outcome A * W.

#[export] Instance M_ret {W} : MRet (M W) := fun A a w => (Ret a, w).

#[export] Instance M_bind {W} : MBind (M W) := fun A B f m w =>
  match m w with
  | (Ret a, w') => f a w'
  | (Throw e, w') => (Throw e, w')
  | (OutOfFuel, w') => (OutOfFuel, w')
  end.

Definition throw {W A} (e : Error) : M W A := fun w => (Throw e, w).
Definition outOfFuel {W A} : M W A := fun w => (OutOfFuel, w).

(** [for (const x of xs) { acc = body(x, acc) }] with an effectful body. *)
Fixpoint forEach {W A B} (xs : list A) (body : A -> B -> M W B) (acc : B)
  : M W B :=
  match xs with
  | [] => mret acc
  | x :: xs' => acc' ← body x acc; forEach xs' body acc'
  end.

(* ===================================================================== *)
(** * Chunking ([chunkArray]) *)
(* ===================================================================== *)

(** The [for (let i = 0; i < arr.length; i += chunkSize)] loop of
    [chunkArray], entered only with a positive [chunkSize]. *)
Equations? chunkLoop {T} (arr : list T) (chunkSize : positive) (i : nat)
  (out : list (list T)) : list (list T) by wf (length arr - i)%nat lt :=
chunkLoop arr chunkSize i out with decide (i < length arr)%nat := {
  | left _ =>
      chunkLoop arr chunkSize (i + Pos.to_nat chunkSize)
                (out ++ [slice arr i (i + Pos.to_nat chunkSize)]);
  | right _ => out }.
Proof. lia. Qed.

Definition chunkArray {T} (arr : list T) (chunkSize : Z) : list (list T) :=
  if decide (chunkSize <= 0) then [arr]
  else chunkLoop arr (Z.to_pos chunkSize) 0 [].

(* ===================================================================== *)
(** * The Admin GraphQL API as seen by the routes *)
(* ===================================================================== *)

Record PageInfo := { hasNextPage : bool; endCursor : option string }.

Record Connection (T : Type) := { nodes : list T; pageInfo : PageInfo }.
Arguments nodes {T} _.
Arguments pageInfo {T} _.

Inductive InventoryPolicy := CONTINUE | DENY.

#[export] Instance InventoryPolicy_eq_dec : EqDecision InventoryPolicy.
Proof. solve_decision. Defined.

(** [locations { nodes { id name } }] *)
Record LocationNode := { location_id : string; location_name : string }.

(** [productVariants { nodes { id inventoryPolicy product { id }
    inventoryItem { id tracked } } }] of the inventory reset. *)
Record InventoryItemRef := { inventoryItem_id : string; tracked : bool }.

Record ResetVariantNode := {
  variant_id : string;
  variant_inventoryPolicy : InventoryPolicy;
  variant_product_id : string;
  variant_inventoryItem : option InventoryItemRef
}.

(** [nodes(ids:) { __typename ... on InventoryItem { id inventoryLevels {
    nodes { location { id } quantities { name quantity } } } } }]: the
    [__typename] tag is the constructor. *)
Record QuantityEntry := { quantity_name : string; quantity : Z }.

Record InventoryLevel := {
  level_location_id : string;
  quantities : list QuantityEntry
}.

Inductive LevelsNode :=
| InventoryItem (id : string) (inventoryLevels : list InventoryLevel)
| OtherNode.

Record UserError := { message : string; code : option string }.

Record InventoryChangeInputLike := {
  inventoryItemId : string;
  locationId : string;
  delta : Z
}.

(** The literal type ["available" | "on_hand"]. *)
Inductive QuantityName := name_available | name_on_hand.

Record InventoryAdjustQuantitiesInput := {
  input_name : QuantityName;
  input_reason : string;
  input_changes : list InventoryChangeInputLike
}.

Record AdjustPayload := {
  inventoryAdjustmentGroup : option string;
  adjust_userErrors : option (list UserError)
}.

Record VariantPolicyInput := {
  input_variant_id : string;
  input_inventoryPolicy : InventoryPolicy
}.

Record UpdatedVariant := {
  updated_variant_id : string;
  updated_inventoryPolicy : string
}.

Record BulkUpdatePayload := {
  productVariants : option (list UpdatedVariant);
  bulk_userErrors : option (list UserError)
}.

(** [products { nodes { id status } }] of the vendor archive. *)
Record ProductNode := { product_id : string; product_status : string }.

Record ProductUpdatePayload := {
  updated_product : option ProductNode;
  update_userErrors : option (list UserError)
}.

(** [productVariants { nodes { id title sku inventoryPolicy
    product { id title handle } } }] of the policy scan. *)
Record ScanVariantNode := {
  scan_id : string;
  scan_title : string;
  scan_sku : option string;
  scan_inventoryPolicy : InventoryPolicy;
  scan_product_id : string;
  scan_product_title : string;
  scan_product_handle : string
}.

(** One constructor per GraphQL operation of the sources, named after the
    operation, carrying its variables. *)
Inductive Request :=
| InventoryResetLocations (after : option string)
| InventoryResetVariants (after : option string)
| InventoryResetInventoryLevels (ids : list string)
| InventoryResetAdjustQuantities (input : InventoryAdjustQuantitiesInput)
| InventoryResetDenyPolicy (productId : string) (variants : list VariantPolicyInput)
| ProductsByVendor (after : option string) (query : string)
| ArchiveProduct (id : string)
| InventoryPolicyScanVariants (after : option string).

(** The type [T] each call site instantiates [graphqlJson<T>] with (the
    single top-level field of [data]). *)
Definition Data (q : Request) : Type :=
  match q with
  | InventoryResetLocations _ => Connection LocationNode
  | InventoryResetVariants _ => Connection ResetVariantNode
  | InventoryResetInventoryLevels _ => list (option LevelsNode)
  | InventoryResetAdjustQuantities _ => AdjustPayload
  | InventoryResetDenyPolicy _ _ => BulkUpdatePayload
  | ProductsByVendor _ _ => Connection ProductNode
  | ArchiveProduct _ => ProductUpdatePayload
  | InventoryPolicyScanVariants _ => Connection ScanVariantNode
  end.

(** The parsed response body [{ data?: T; errors?: unknown }]. *)
Record Body (q : Request) := { data : option (Data q); errors : option string }.
Arguments data {q} _.
Arguments errors {q} _.

(** [admin: { graphql: Function }]: the remote shop, a state machine over
    its own state [S]. *)
Record Admin (S : Type) := { graphql : forall q : Request, S -> Body q * S }.
Arguments graphql {S} _ q _.

(** One logged remote call: what was asked and what came back. *)
Record Call := { request : Request; response : Body request }.

Record World (S : Type) := { remote : S; calls : list Call }.
Arguments remote {S} _.
Arguments calls {S} _.

(** [graphqlJson]: one remote call; throws when [data] is absent. *)
Definition graphqlJson {S} (admin : Admin S) (q : Request)
  : M (World S) (Data q) := fun w =>
  let (body, s') := graphql admin q (remote w) in
  let w' := {| remote := s';
               calls := calls w ++ [{| request := q; response := body |}] |} in
  match data body with
  | None => (Throw (GraphQLRequestFailed (errors body)), w')
  | Some d => (Ret d, w')
  end.

(* ===================================================================== *)
(** * [app.inventory-reset.tsx] *)
(* ===================================================================== *)

Module InventoryReset.

Record SampleError := {
  scope : string;
  sample_message : string;
  sample_code : option string
}.

Record InventoryResetResult := {
  ok : bool;
  locations : nat;
  variantsScanned : nat;
  inventoryAdjustCalls : nat;
  inventoryAdjustUserErrors : nat;
  inventoryAdjustIgnoredNotStockedErrors : nat;
  policyUpdateCalls : nat;
  policyUpdatedVariants : nat;
  policyUpdateUserErrors : nat;
  sampleErrors : list SampleError
}.

(** Field updates of the mutable [result] object. *)
Definition set_ok (b : bool) (r : InventoryResetResult) :=
  {| ok := b; locations := locations r; variantsScanned := variantsScanned r;
     inventoryAdjustCalls := inventoryAdjustCalls r;
     inventoryAdjustUserErrors := inventoryAdjustUserErrors r;
     inventoryAdjustIgnoredNotStockedErrors := inventoryAdjustIgnoredNotStockedErrors r;
     policyUpdateCalls := policyUpdateCalls r;
     policyUpdatedVariants := policyUpdatedVariants r;
     policyUpdateUserErrors := policyUpdateUserErrors r;
     sampleErrors := sampleErrors r |}.

Definition set_variantsScanned (n : nat) (r : InventoryResetResult) :=
  {| ok := ok r; locations := locations r; variantsScanned := n;
     inventoryAdjustCalls := inventoryAdjustCalls r;
     inventoryAdjustUserErrors := inventoryAdjustUserErrors r;
     inventoryAdjustIgnoredNotStockedErrors := inventoryAdjustIgnoredNotStockedErrors r;
     policyUpdateCalls := policyUpdateCalls r;
     policyUpdatedVariants := policyUpdatedVariants r;
     policyUpdateUserErrors := policyUpdateUserErrors r;
     sampleErrors := sampleErrors r |}.

Definition set_inventoryAdjustCalls (n : nat) (r : InventoryResetResult) :=
  {| ok := ok r; locations := locations r; variantsScanned := variantsScanned r;
     inventoryAdjustCalls := n;
     inventoryAdjustUserErrors := inventoryAdjustUserErrors r;
     inventoryAdjustIgnoredNotStockedErrors := inventoryAdjustIgnoredNotStockedErrors r;
     policyUpdateCalls := policyUpdateCalls r;
     policyUpdatedVariants := policyUpdatedVariants r;
     policyUpdateUserErrors := policyUpdateUserErrors r;
     sampleErrors := sampleErrors r |}.

Definition set_inventoryAdjustUserErrors (n : nat) (r : InventoryResetResult) :=
  {| ok := ok r; locations := locations r; variantsScanned := variantsScanned r;
     inventoryAdjustCalls := inventoryAdjustCalls r;
     inventoryAdjustUserErrors := n;
     inventoryAdjustIgnoredNotStockedErrors := inventoryAdjustIgnoredNotStockedErrors r;
     policyUpdateCalls := policyUpdateCalls r;
     policyUpdatedVariants := policyUpdatedVariants r;
     policyUpdateUserErrors := policyUpdateUserErrors r;
     sampleErrors := sampleErrors r |}.

Definition set_inventoryAdjustIgnoredNotStockedErrors (n : nat)
  (r : InventoryResetResult) :=
  {| ok := ok r; locations := locations r; variantsScanned := variantsScanned r;
     inventoryAdjustCalls := inventoryAdjustCalls r;
     inventoryAdjustUserErrors := inventoryAdjustUserErrors r;
     inventoryAdjustIgnoredNotStockedErrors := n;
     policyUpdateCalls := policyUpdateCalls r;
     policyUpdatedVariants := policyUpdatedVariants r;
     policyUpdateUserErrors := policyUpdateUserErrors r;
     sampleErrors := sampleErrors r |}.

Definition set_policyUpdateCalls (n : nat) (r : InventoryResetResult) :=
  {| ok := ok r; locations := locations r; variantsScanned := variantsScanned r;
     inventoryAdjustCalls := inventoryAdjustCalls r;
     inventoryAdjustUserErrors := inventoryAdjustUserErrors r;
     inventoryAdjustIgnoredNotStockedErrors := inventoryAdjustIgnoredNotStockedErrors r;
     policyUpdateCalls := n;
     policyUpdatedVariants := policyUpdatedVariants r;
     policyUpdateUserErrors := policyUpdateUserErrors r;
     sampleErrors := sampleErrors r |}.

Definition set_policyUpdatedVariants (n : nat) (r : InventoryResetResult) :=
  {| ok := ok r; locations := locations r; variantsScanned := variantsScanned r;
     inventoryAdjustCalls := inventoryAdjustCalls r;
     inventoryAdjustUserErrors := inventoryAdjustUserErrors r;
     inventoryAdjustIgnoredNotStockedErrors := inventoryAdjustIgnoredNotStockedErrors r;
     policyUpdateCalls := policyUpdateCalls r;
     policyUpdatedVariants := n;
     policyUpdateUserErrors := policyUpdateUserErrors r;
     sampleErrors := sampleErrors r |}.

Definition set_policyUpdateUserErrors (n : nat) (r : InventoryResetResult) :=
  {| ok := ok r; locations := locations r; variantsScanned := variantsScanned r;
     inventoryAdjustCalls := inventoryAdjustCalls r;
     inventoryAdjustUserErrors := inventoryAdjustUserErrors r;
     inventoryAdjustIgnoredNotStockedErrors := inventoryAdjustIgnoredNotStockedErrors r;
     policyUpdateCalls := policyUpdateCalls r;
     policyUpdatedVariants := policyUpdatedVariants r;
     policyUpdateUserErrors := n;
     sampleErrors := sampleErrors r |}.

Definition set_sampleErrors (l : list SampleError) (r : InventoryResetResult) :=
  {| ok := ok r; locations := locations r; variantsScanned := variantsScanned r;
     inventoryAdjustCalls := inventoryAdjustCalls r;
     inventoryAdjustUserErrors := inventoryAdjustUserErrors r;
     inventoryAdjustIgnoredNotStockedErrors := inventoryAdjustIgnoredNotStockedErrors r;
     policyUpdateCalls := policyUpdateCalls r;
     policyUpdatedVariants := policyUpdatedVariants r;
     policyUpdateUserErrors := policyUpdateUserErrors r;
     sampleErrors := l |}.

(** [if (result.sampleErrors.length < 25) result.sampleErrors.push({ scope,
    message: e.message, code: e.code || undefined })] *)
Definition pushSampleError (scope : string) (e : UserError)
  (result : InventoryResetResult) : InventoryResetResult :=
  if decide (length (sampleErrors result) < 25)%nat then
    set_sampleErrors
      (sampleErrors result ++
         [{| scope := scope; sample_message := message e;
             sample_code := or_else (code e) None |}])
      result
  else result.

(** Body of [for (const e of errors)] after an [inventoryAdjustQuantities]
    chunk. *)
Definition recordAdjustUserError (e : UserError) (result : InventoryResetResult)
  : InventoryResetResult :=
  if bool_decide (code e = Some "ITEM_NOT_STOCKED_AT_LOCATION") then
    set_inventoryAdjustIgnoredNotStockedErrors
      (inventoryAdjustIgnoredNotStockedErrors result + 1)%nat result
  else
    let result := set_ok false result in
    let result :=
      set_inventoryAdjustUserErrors (inventoryAdjustUserErrors result + 1)%nat
                                    result in
    pushSampleError "inventoryAdjustQuantities" e result.

Definition recordAdjustUserErrors (errors : list UserError)
  (result : InventoryResetResult) : InventoryResetResult :=
  fold_left (fun result e => recordAdjustUserError e result) errors result.

(** Body of [for (const e of errors)] after a [productVariantsBulkUpdate]
    chunk. *)
Definition recordPolicyUserError (e : UserError) (result : InventoryResetResult)
  : InventoryResetResult :=
  let result := set_ok false result in
  let result :=
    set_policyUpdateUserErrors (policyUpdateUserErrors result + 1)%nat result in
  pushSampleError "productVariantsBulkUpdate" e result.

Definition recordPolicyUserErrors (errors : list UserError)
  (result : InventoryResetResult) : InventoryResetResult :=
  fold_left (fun result e => recordPolicyUserError e result) errors result.

Section WithAdmin.
Context {S : Type} (admin : Admin S).

(** [getAllLocationIds]: the [while (true)] loop, one unit of fuel per
    page. *)
Fixpoint getAllLocationIds_loop (fuel : nat) (after : option string)
  (locationIds : list string) : M (World S) (list string) :=
  match fuel with
  | O => outOfFuel
  | Datatypes.S fuel' =>
      data ← graphqlJson admin (InventoryResetLocations after);
      let locationIds := locationIds ++ map location_id (nodes data) in
      if negb (hasNextPage (pageInfo data)) then mret locationIds
      else getAllLocationIds_loop fuel'
             (or_else (endCursor (pageInfo data)) None) locationIds
  end.

Definition getAllLocationIds (fuel : nat) : M (World S) (list string) :=
  getAllLocationIds_loop fuel None [].

(** The argument [{ name, changes }] of the fallback helper. *)
Record AdjustArgs := {
  name : QuantityName;
  changes : list InventoryChangeInputLike
}.

Definition reasonFallbacks : list string := ["correction"; "cycle_count"; "other"].

Definition hasInvalidReason (inv : AdjustPayload) : bool :=
  existsb (fun e => bool_decide (code e = Some "INVALID_REASON"))
          (default [] (adjust_userErrors inv)).

(** [for (const reason of reasonFallbacks)] with the mutable
    [lastResponse]. *)
Fixpoint reasonFallbackLoop (reasons : list string) (input : AdjustArgs)
  (lastResponse : option AdjustPayload) : M (World S) (option AdjustPayload) :=
  match reasons with
  | [] => mret lastResponse
  | reason :: reasons' =>
      inv ← graphqlJson admin
              (InventoryResetAdjustQuantities
                 {| input_name := name input; input_reason := reason;
                    input_changes := changes input |});
      if negb (hasInvalidReason inv) then mret (Some inv)
      else reasonFallbackLoop reasons' input (Some inv)
  end.

(** The result is [lastResponse!]: [null] only if no attempt was made. *)
Definition inventoryAdjustQuantitiesWithReasonFallback (input : AdjustArgs)
  : M (World S) (option AdjustPayload) :=
  reasonFallbackLoop reasonFallbacks input None.

(** Body of [for (const level of node.inventoryLevels.nodes)]. *)
Definition zeroingLevelStep (allowedLocationIds : gset string) (nodeId : string)
  (level : InventoryLevel) (changes : list InventoryChangeInputLike)
  : list InventoryChangeInputLike :=
  if negb (bool_decide (level_location_id level ∈ allowedLocationIds)) then changes
  else
    match List.find (fun q => String.eqb (quantity_name q) "available")
                    (quantities level) with
    | None => changes
    | Some available =>
        if Z.eqb (quantity available) 0 then changes
        else changes ++
               [{| inventoryItemId := nodeId;
                   locationId := level_location_id level;
                   delta := - quantity available |}]
    end.

(** Body of [for (const node of data.nodes)]. *)
Definition zeroingNodeStep (allowedLocationIds : gset string)
  (node : option LevelsNode) (changes : list InventoryChangeInputLike)
  : list InventoryChangeInputLike :=
  match node with
  | Some (InventoryItem id inventoryLevels) =>
      fold_left (fun changes level =>
                   zeroingLevelStep allowedLocationIds id level changes)
                inventoryLevels changes
  | _ => changes
  end.

Definition getInventoryZeroingChanges (inventoryItemIds : list string)
  (allowedLocationIds : gset string)
  : M (World S) (list InventoryChangeInputLike) :=
  forEach (chunkArray inventoryItemIds 50)
    (fun chunk changes =>
       data ← graphqlJson admin (InventoryResetInventoryLevels chunk);
       mret (fold_left (fun changes node =>
                          zeroingNodeStep allowedLocationIds node changes)
                       data changes))
    [].

(** Body of [for (const v of variants)]: the per-product grouping of the
    variants to switch to DENY, and the tracked inventory items. *)
Definition classifyVariant
  (acc : JsMap (list string) * list string) (v : ResetVariantNode)
  : JsMap (list string) * list string :=
  let (policyByProduct, inventoryItemIds) := acc in
  let policyByProduct :=
    if negb (bool_decide (variant_inventoryPolicy v = DENY)) then
      let list := default [] (map_get policyByProduct (variant_product_id v)) in
      map_set policyByProduct (variant_product_id v) (list ++ [variant_id v])
    else policyByProduct in
  let inventoryItemIds :=
    match variant_inventoryItem v with
    | Some item =>
        if truthy (Some (inventoryItem_id item)) && tracked item
        then inventoryItemIds ++ [inventoryItem_id item]
        else inventoryItemIds
    | None => inventoryItemIds
    end in
  (policyByProduct, inventoryItemIds).

(** Body of [for (const chunk of chunkArray(changes, 250))]. *)
Definition adjustChunk (chunk : list InventoryChangeInputLike)
  (result : InventoryResetResult) : M (World S) InventoryResetResult :=
  inv ← inventoryAdjustQuantitiesWithReasonFallback
          {| name := name_available; changes := chunk |};
  let result :=
    set_inventoryAdjustCalls (inventoryAdjustCalls result + 1)%nat result in
  match inv with
  | None => throw TypeError
  | Some inv =>
      let errors := default [] (adjust_userErrors inv) in
      mret (recordAdjustUserErrors errors result)
  end.

(** Body of [for (const chunk of chunkArray(variantsForProduct, 250))]. *)
Definition policyChunk (productId : string) (chunk : list string)
  (result : InventoryResetResult) : M (World S) InventoryResetResult :=
  res ← graphqlJson admin
          (InventoryResetDenyPolicy productId
             (map (fun id => {| input_variant_id := id;
                                input_inventoryPolicy := DENY |}) chunk));
  let result := set_policyUpdateCalls (policyUpdateCalls result + 1)%nat result in
  let result :=
    set_policyUpdatedVariants (policyUpdatedVariants result + length chunk)%nat
                              result in
  let errors := default [] (bulk_userErrors res) in
  mret (recordPolicyUserErrors errors result).

(** [for (const [productId, variantsForProduct] of policyByProduct.entries())] *)
Definition policyUpdates (policyByProduct : JsMap (list string))
  (result : InventoryResetResult) : M (World S) InventoryResetResult :=
  forEach policyByProduct
    (fun entry result =>
       forEach (chunkArray (snd entry) 250) (policyChunk (fst entry)) result)
    result.

(** One iteration of the [while (true)] loop of [runInventoryReset]. *)
Definition resetPage (locationIds : list string) (after : option string)
  (result : InventoryResetResult)
  : M (World S) (InventoryResetResult * PageInfo) :=
  data ← graphqlJson admin (InventoryResetVariants after);
  let variants := nodes data in
  let result :=
    set_variantsScanned (variantsScanned result + length variants)%nat result in
  let grouped := fold_left classifyVariant variants ([], []) in
  let policyByProduct := fst grouped in
  let inventoryItemIds := snd grouped in
  let uniqueInventoryItemIds := uniqueInOrder inventoryItemIds in
  changes ← getInventoryZeroingChanges uniqueInventoryItemIds
              (list_to_set locationIds);
  result ← forEach (chunkArray changes 250) adjustChunk result;
  result ← policyUpdates policyByProduct result;
  mret (result, pageInfo data).

Fixpoint runInventoryReset_loop (fuel : nat) (locationIds : list string)
  (after : option string) (result : InventoryResetResult)
  : M (World S) InventoryResetResult :=
  match fuel with
  | O => outOfFuel
  | Datatypes.S fuel' =>
      '(result, page) ← resetPage locationIds after result;
      if negb (hasNextPage page) then mret result
      else runInventoryReset_loop fuel' locationIds
             (or_else (endCursor page) None) result
  end.

Definition initialResult (locationIds : list string) : InventoryResetResult :=
  {| ok := true; locations := length locationIds; variantsScanned := 0;
     inventoryAdjustCalls := 0; inventoryAdjustUserErrors := 0;
     inventoryAdjustIgnoredNotStockedErrors := 0; policyUpdateCalls := 0;
     policyUpdatedVariants := 0; policyUpdateUserErrors := 0;
     sampleErrors := [] |}.

Definition runInventoryReset (fuel : nat) (locationIds : list string)
  : M (World S) InventoryResetResult :=
  runInventoryReset_loop fuel locationIds None (initialResult locationIds).

(** The body [action] answers an invalid intent with. *)
Definition invalidIntentResult : InventoryResetResult :=
  {| ok := false; locations := 0; variantsScanned := 0;
     inventoryAdjustCalls := 0; inventoryAdjustUserErrors := 0;
     inventoryAdjustIgnoredNotStockedErrors := 0; policyUpdateCalls := 0;
     policyUpdatedVariants := 0; policyUpdateUserErrors := 0;
     sampleErrors := [{| scope := "request"; sample_message := "Invalid intent";
                         sample_code := None |}] |}.

(** [action], after [authenticate.admin] has handed over [admin]:
    [intent] is [formData.get("intent")], the value returned is the JSON
    body with the HTTP status ([json] answers 200 unless told otherwise).
    Each of the two pagination loops gets [fuel]. *)
Definition action (fuel : nat) (intent : option string)
  : M (World S) (InventoryResetResult * Z) :=
  let intent := or_empty intent in
  if negb (String.eqb intent "run") then mret (invalidIntentResult, 400)
  else
    locations ← getAllLocationIds fuel;
    result ← runInventoryReset fuel locations;
    mret (result, 200).

End WithAdmin.

End InventoryReset.

(* ===================================================================== *)
(** * [app._index.tsx]: archive the products of a vendor *)
(* ===================================================================== *)

Module AppIndex.

Record SampleError := {
  scope : string;
  sample_message : string;
  sample_code : option string
}.

Record ArchivePeruzzoResult := {
  ok : bool;
  scanned : nat;
  archived : nat;
  alreadyArchived : nat;
  userErrors : nat;
  sampleErrors : list SampleError
}.

(** [if (result.sampleErrors.length < 25) result.sampleErrors.push(...)] *)
Definition pushSampleError (e : UserError) (result : ArchivePeruzzoResult)
  : ArchivePeruzzoResult :=
  if decide (length (sampleErrors result) < 25)%nat then
    {| ok := ok result; scanned := scanned result; archived := archived result;
       alreadyArchived := alreadyArchived result; userErrors := userErrors result;
       sampleErrors :=
         sampleErrors result ++
           [{| scope := "productUpdate"; sample_message := message e;
               sample_code := or_else (code e) None |}] |}
  else result.

Section WithAdmin.
Context {S : Type} (admin : Admin S).

(** Body of [for (const p of data.products.nodes)]. *)
Definition archiveProduct (p : ProductNode) (result : ArchivePeruzzoResult)
  : M (World S) ArchivePeruzzoResult :=
  let result :=
    {| ok := ok result; scanned := (scanned result + 1)%nat;
       archived := archived result; alreadyArchived := alreadyArchived result;
       userErrors := userErrors result; sampleErrors := sampleErrors result |} in
  if String.eqb (product_status p) "ARCHIVED" then
    mret {| ok := ok result; scanned := scanned result;
            archived := archived result;
            alreadyArchived := (alreadyArchived result + 1)%nat;
            userErrors := userErrors result;
            sampleErrors := sampleErrors result |}
  else
    res ← graphqlJson admin (ArchiveProduct (product_id p));
    let errors := default [] (update_userErrors res) in
    if bool_decide (0 < length errors)%nat then
      let result :=
        {| ok := false; scanned := scanned result; archived := archived result;
           alreadyArchived := alreadyArchived result;
           userErrors := (userErrors result + length errors)%nat;
           sampleErrors := sampleErrors result |} in
      mret (fold_left (fun result e => pushSampleError e result) errors result)
    else
      mret {| ok := ok result; scanned := scanned result;
              archived := (archived result + 1)%nat;
              alreadyArchived := alreadyArchived result;
              userErrors := userErrors result;
              sampleErrors := sampleErrors result |}.

Fixpoint archiveProductsByVendor_loop (fuel : nat) (queryString : string)
  (after : option string) (result : ArchivePeruzzoResult)
  : M (World S) ArchivePeruzzoResult :=
  match fuel with
  | O => outOfFuel
  | Datatypes.S fuel' =>
      data ← graphqlJson admin (ProductsByVendor after queryString);
      result ← forEach (nodes data) archiveProduct result;
      if negb (hasNextPage (pageInfo data)) then mret result
      else archiveProductsByVendor_loop fuel' queryString
             (or_else (endCursor (pageInfo data)) None) result
  end.

Definition initialResult : ArchivePeruzzoResult :=
  {| ok := true; scanned := 0; archived := 0; alreadyArchived := 0;
     userErrors := 0; sampleErrors := [] |}.

Definition archiveProductsByVendor (fuel : nat) (vendor : string)
  : M (World S) ArchivePeruzzoResult :=
  archiveProductsByVendor_loop fuel ("vendor:" +:+ vendor) None initialResult.

(** The JSON bodies of [action]: [ArchivePeruzzoActionData],
    [ErrorActionData] and [GenerateProductActionData]. *)
Inductive ActionData (G : Type) : Type :=
| ArchivePeruzzoData (intent : string) (result : ArchivePeruzzoResult)
| ErrorData (intent : string) (message : string)
| GenerateProductData (generated : G).
Arguments ArchivePeruzzoData {G} intent result.
Arguments ErrorData {G} intent message.
Arguments GenerateProductData {G} generated.

(** [action], after [authenticate.admin] has handed over [admin].  The
    last branch (creation of a snowboard of a random colour and the update
    of its first variant) is the parameter [generateProduct]. *)
Definition action {G} (generateProduct : M (World S) G) (fuel : nat)
  (intent : option string) : M (World S) (ActionData G * Z) :=
  let intent := or_empty intent in
  if String.eqb intent "archivePeruzzo" then
    result ← archiveProductsByVendor fuel "Peruzzo";
    mret (ArchivePeruzzoData intent result, 200)
  else if negb (String.eqb intent "generateProduct") then
    mret (ErrorData "error" "Invalid intent", 400)
  else
    generated ← generateProduct;
    mret (GenerateProductData generated, 200).

End WithAdmin.

End AppIndex.

(* ===================================================================== *)
(** * The inventory-policy scan route *)
(* ===================================================================== *)

Module InventoryScan.

Record Offender := {
  productTitle : string;
  productHandle : string;
  variantTitle : string;
  sku : option string
}.

Record InventoryPolicyScanResult := {
  ok : bool;
  productsScanned : nat;
  variantsScanned : nat;
  productsWithContinue : nat;
  variantsWithContinue : nat;
  sampleOffenders : list Offender
}.

(** The mutable locals of [scanInventoryPolicies]. *)
Record ScanState := {
  productIds : gset string;
  productIdsWithContinue : gset string;
  result : InventoryPolicyScanResult
}.

(** Body of [for (const v of variants)]. *)
Definition scanVariant (st : ScanState) (v : ScanVariantNode) : ScanState :=
  let productIds := productIds st ∪ {[ scan_product_id v ]} in
  if bool_decide (scan_inventoryPolicy v = CONTINUE) then
    let r := result st in
    let offenders :=
      if decide (length (sampleOffenders r) < 25)%nat then
        sampleOffenders r ++
          [{| productTitle := scan_product_title v;
              productHandle := scan_product_handle v;
              variantTitle := scan_title v;
              sku := scan_sku v |}]
      else sampleOffenders r in
    {| productIds := productIds;
       productIdsWithContinue :=
         productIdsWithContinue st ∪ {[ scan_product_id v ]};
       result :=
         {| ok := false; productsScanned := productsScanned r;
            variantsScanned := variantsScanned r;
            productsWithContinue := productsWithContinue r;
            variantsWithContinue := (variantsWithContinue r + 1)%nat;
            sampleOffenders := offenders |} |}
  else
    {| productIds := productIds;
       productIdsWithContinue := productIdsWithContinue st;
       result := result st |}.

Section WithAdmin.
Context {S : Type} (admin : Admin S).

Fixpoint scanInventoryPolicies_loop (fuel : nat) (after : option string)
  (st : ScanState) : M (World S) ScanState :=
  match fuel with
  | O => outOfFuel
  | Datatypes.S fuel' =>
      data ← graphqlJson admin (InventoryPolicyScanVariants after);
      let variants := nodes data in
      let r := result st in
      let st :=
        {| productIds := productIds st;
           productIdsWithContinue := productIdsWithContinue st;
           result :=
             {| ok := ok r; productsScanned := productsScanned r;
                variantsScanned := (variantsScanned r + length variants)%nat;
                productsWithContinue := productsWithContinue r;
                variantsWithContinue := variantsWithContinue r;
                sampleOffenders := sampleOffenders r |} |} in
      let st := fold_left scanVariant variants st in
      if negb (hasNextPage (pageInfo data)) then mret st
      else scanInventoryPolicies_loop fuel'
             (or_else (endCursor (pageInfo data)) None) st
  end.

Definition initialState : ScanState :=
  {| productIds := ∅; productIdsWithContinue := ∅;
     result := {| ok := true; productsScanned := 0; variantsScanned := 0;
                  productsWithContinue := 0; variantsWithContinue := 0;
                  sampleOffenders := [] |} |}.

Definition scanInventoryPolicies (fuel : nat)
  : M (World S) InventoryPolicyScanResult :=
  st ← scanInventoryPolicies_loop fuel None initialState;
  let r := result st in
  mret {| ok := ok r;
          productsScanned := size (productIds st);
          variantsScanned := variantsScanned r;
          productsWithContinue := size (productIdsWithContinue st);
          variantsWithContinue := variantsWithContinue r;
          sampleOffenders := sampleOffenders r |}.

(** [action], after [authenticate.admin] has handed over [admin]. *)
Definition action (fuel : nat) (intent : option string)
  : M (World S) (InventoryPolicyScanResult * Z) :=
  let intent := or_empty intent in
  if negb (String.eqb intent "scan") then
    mret ({| ok := false; productsScanned := 0; variantsScanned := 0;
             productsWithContinue := 0; variantsWithContinue := 0;
             sampleOffenders := [] |}, 400)
  else
    result ← scanInventoryPolicies fuel;
    mret (result, 200).

End WithAdmin.

End InventoryScan.

(* ===================================================================== *)
(** * Webhook ingestion: verifier, event table, handler *)
(* ===================================================================== *)

Module Webhook.

(** A parsed JSON document. *)
#[local] Unset Elimination Schemes.
Inductive Json :=
| JNull
| JBool (b : bool)
| JNumber (n : Z)
| JString (s : string)
| JArray (items : list Json)
| JObject (fields : list (string * Json)).
#[local] Set Elimination Schemes.

(** The inbound request as the code sees it: [headers.get]; the octets of
    the body as they arrived ([wire]); whether the body was already read
    ([bodyUsed]); and [body], the string [request.clone().text()] resolves
    to.  [text()] decodes the octets as UTF-8: a leading byte-order mark is
    dropped and malformed sequences are replaced by U+FFFD, so [body] is
    not the octets themselves. *)
Record Request := {
  headers : string -> option string;
  wire : list N;
  bodyUsed : bool;
  body : string
}.

(** [await request.clone().text()]: [clone()] throws a [TypeError] when the
    body was already read; otherwise the request is left as it was. *)
Definition clone_text (request : Request) : Outcome string :=
  if bodyUsed request then Throw TypeError else Ret (body request).

(** [name.toLowerCase()], applied in the source to ASCII header names. *)
Definition lowerAscii (c : ascii) : ascii :=
  let n := nat_of_ascii c in
  if ((65 <=? n) && (n <=? 90))%nat then ascii_of_nat (n + 32) else c.

Fixpoint toLowerCase (s : string) : string :=
  match s with
  | EmptyString => EmptyString
  | String c s' => String (lowerAscii c) (toLowerCase s')
  end.

Definition getHeader (headers : string -> option string) (name : string)
  : option string :=
  or_else (headers name) (headers (toLowerCase name)).

Inductive ShopifyWebhookAuthResult :=
| AuthOk (topic shop : string) (webhookId apiVersion : option string)
| AuthFail (status : Z) (message : string).

(** [Buffer.from(s, "utf8")]: the bytes of the string. *)
Definition Buffer_from (s : string) : list N :=
  map N_of_ascii (list_ascii_of_string s).

(** [crypto.timingSafeEqual(a, b)]: throws a [RangeError] on buffers of
    different length; otherwise folds the XOR of every byte pair into an
    accumulator and tests it once at the end, so no byte is skipped. *)
Definition timingSafeEqual (a b : list N) : option bool :=
  if negb (length a =? length b)%nat then None
  else Some (N.eqb (fold_left (fun acc xy => N.lor acc (N.lxor (fst xy) (snd xy)))
                              (combine a b) 0%N) 0%N).

(** The [WebhookEvent] table of the migration. *)
Inductive WebhookEventStatus := PENDING | PROCESSING | SUCCEEDED | FAILED.

Record WebhookEvent := {
  id : string;
  topic : string;
  shop : string;
  webhookId : option string;
  apiVersion : option string;
  payload : Json;
  status : WebhookEventStatus;
  attempts : Z;
  lastError : option string;
  createdAt : Z;
  processedAt : option Z
}.

(** The [data] argument of [db.webhookEvent.create]. *)
Record WebhookEventCreateInput := {
  data_topic : string;
  data_shop : string;
  data_webhookId : option string;
  data_apiVersion : option string;
  data_payload : Json
}.

(** The database as the handler sees it: the table, the identifier the
    client generates for the next row, and the clock behind
    [CURRENT_TIMESTAMP]. *)
Record Db := {
  webhookEvent : list WebhookEvent;
  nextId : string;
  now : Z
}.

(** [db.webhookEvent.create({ data })]: one [INSERT]; the columns the
    handler does not supply take the defaults of the migration
    ([status] 'PENDING', [attempts] 0, [createdAt] CURRENT_TIMESTAMP,
    nullable columns NULL).  The primary key rejects a duplicate [id], in
    which case nothing is written.  The client library is not part of the
    sources: of the ways the real call can be rejected only this one, which
    the migration declares, is represented. *)
Definition webhookEvent_create (data : WebhookEventCreateInput)
  : M Db WebhookEvent := fun db =>
  if existsb (fun row => String.eqb (id row) (nextId db)) (webhookEvent db) then
    (Throw UniqueConstraintViolation, db)
  else
    let row :=
      {| id := nextId db; topic := data_topic data; shop := data_shop data;
         webhookId := data_webhookId data; apiVersion := data_apiVersion data;
         payload := data_payload data; status := PENDING; attempts := 0;
         lastError := None; createdAt := now db; processedAt := None |} in
    (Ret row, {| webhookEvent := webhookEvent db ++ [row];
                 nextId := nextId db; now := now db |}).

Record Response := { response_body : string; response_status : Z }.

Section Runtime.

(** [crypto.createHmac("sha256", secret).update(rawBody, "utf8")
    .digest("base64")], as a function of the secret and of the string
    handed to [update], whose UTF-8 encoding is what gets hashed. *)
Variable hmacSha256Base64 : string -> string -> string.

(** [JSON.parse]; [None] when it throws a [SyntaxError]. *)
Variable JSON_parse : string -> option Json.

(** [process.env.SHOPIFY_API_SECRET]. *)
Variable SHOPIFY_API_SECRET : option string.

Definition verifyShopifyWebhookRequest (request : Request)
  : Outcome ShopifyWebhookAuthResult :=
  if negb (truthy SHOPIFY_API_SECRET) then
    Ret (AuthFail 500 "Missing SHOPIFY_API_SECRET")
  else
    let secret := or_empty SHOPIFY_API_SECRET in
    match clone_text request with
    | Throw e => Throw e
    | OutOfFuel => OutOfFuel
    | Ret rawBody =>
    let hmacHeader := getHeader (headers request) "X-Shopify-Hmac-Sha256" in
    if negb (truthy hmacHeader) then Ret (AuthFail 401 "Missing HMAC header")
    else
      let hmacHeader := or_empty hmacHeader in
      let digest := hmacSha256Base64 secret rawBody in
      let a := Buffer_from digest in
      let b := Buffer_from hmacHeader in
      if negb (length a =? length b)%nat then Ret (AuthFail 401 "Invalid HMAC")
      else
        match timingSafeEqual a b with
        | None => Throw RangeError
        | Some equal =>
            if negb equal then Ret (AuthFail 401 "Invalid HMAC")
            else
              let topic :=
                or_empty (getHeader (headers request) "X-Shopify-Topic") in
              let shop :=
                or_empty (getHeader (headers request) "X-Shopify-Shop-Domain") in
              let webhookId :=
                or_else (getHeader (headers request) "X-Shopify-Webhook-Id")
                        None in
              let apiVersion :=
                or_else (getHeader (headers request) "X-Shopify-Api-Version")
                        None in
              if negb (truthy (Some topic)) || negb (truthy (Some shop))
              then Ret (AuthFail 400 "Missing topic/shop headers")
              else Ret (AuthOk topic shop webhookId apiVersion)
        end
    end.

(** [readShopifyWebhookJson]: an empty body is the empty object. *)
Definition readShopifyWebhookJson (request : Request)
  : Outcome (string * Json) :=
  match clone_text request with
  | Throw e => Throw e
  | OutOfFuel => OutOfFuel
  | Ret rawBody =>
      if truthy (Some rawBody) then
        match JSON_parse rawBody with
        | Some json => Ret (rawBody, json)
        | None => Throw SyntaxError
        end
      else Ret (rawBody, JObject [])
  end.

(** Lifting of a computation that touches no state. *)
Definition lift {W A} (o : Outcome A) : M W A := fun w => (o, w).

(** [action] of [webhooks.customers.data_request.tsx]; the [console.info]
    line writes to the log only and is left out. *)
Definition action (request : Request) : M Db Response :=
  auth ← lift (verifyShopifyWebhookRequest request);
  match auth with
  | AuthFail status message =>
      mret {| response_body := message; response_status := status |}
  | AuthOk topic shop webhookId apiVersion =>
      parsed ← lift (readShopifyWebhookJson request);
      _ ← webhookEvent_create
            {| data_topic := topic; data_shop := shop;
               data_webhookId := webhookId; data_apiVersion := apiVersion;
               data_payload := snd parsed |};
      mret {| response_body := "OK"; response_status := 200 |}
  end.

End Runtime.

End Webhook.

(* ===================================================================== *)
(** * Vocabulary of the specification *)
(* ===================================================================== *)

(** The benign sentinel of [inventoryAdjustQuantities]. *)
Definition notStocked (e : UserError) : Prop :=
  code e = Some "ITEM_NOT_STOCKED_AT_LOCATION".

#[export] Instance notStocked_dec e : Decision (notStocked e).
Proof. unfold notStocked. apply _. Defined.

(** A response carrying the sentinel that triggers the reason fallback. *)
Definition invalidReason (e : UserError) : Prop := code e = Some "INVALID_REASON".

#[export] Instance invalidReason_dec e : Decision (invalidReason e).
Proof. unfold invalidReason. apply _. Defined.

(** The world before any remote call. *)
Definition fresh {S} (s : S) : World S := {| remote := s; calls := [] |}.

(** The mutation request the fallback helper sends for a given reason. *)
Definition adjustRequest (input : InventoryReset.AdjustArgs) (reason : string)
  : Request :=
  InventoryResetAdjustQuantities
    {| input_name := InventoryReset.name input; input_reason := reason;
       input_changes := InventoryReset.changes input |}.

(** [answers admin q s d s']: in state [s] the remote answers [q] with a
    body whose [data] is [d], and moves to [s']. *)
Definition answers {S} (admin : Admin S) (q : Request) (s : S) (d : Data q)
  (s' : S) : Prop :=
  exists body, graphql admin q s = (body, s') /\ data body = Some d.

(** The log entry of an answered call. *)
Definition logged {S} (admin : Admin S) (q : Request) (s : S) : Call :=
  {| request := q; response := fst (graphql admin q s) |}.

(** A remote serving the location pages [pages] to a client that follows
    the cursors from [after], the last page being the first one without a
    next page. *)
Inductive servesLocations {S} (admin : Admin S)
  : S -> option string -> list (Connection LocationNode) -> S -> Prop :=
| serves_last s after page s' :
    answers admin (InventoryResetLocations after) s page s' ->
    hasNextPage (pageInfo page) = false ->
    servesLocations admin s after [page] s'
| serves_more s after page s1 pages s' :
    answers admin (InventoryResetLocations after) s page s1 ->
    hasNextPage (pageInfo page) = true ->
    servesLocations admin s1 (or_else (endCursor (pageInfo page)) None) pages s' ->
    servesLocations admin s after (page :: pages) s'.

(** The cursors a client sends while walking [pages] from cursor [after]. *)
Fixpoint cursorsFrom {T} (after : option string) (pages : list (Connection T))
  : list (option string) :=
  match pages with
  | [] => []
  | page :: pages' =>
      after :: cursorsFrom (or_else (endCursor (pageInfo page)) None) pages'
  end.

(** The quantity a level reports under a given name (the first entry of
    that name). *)
Fixpoint quantityNamed (name : string) (qs : list QuantityEntry) : option Z :=
  match qs with
  | [] => None
  | q :: qs' =>
      if decide (quantity_name q = name) then Some (quantity q)
      else quantityNamed name qs'
  end.

(** Inventory zeroing as the specification words it: one change, the
    negated available quantity, for a level at an allowed location whose
    available quantity is present and not zero; nothing otherwise. *)
Definition zeroingChangeFor (allowed : gset string) (itemId : string)
  (level : InventoryLevel) : list InventoryChangeInputLike :=
  match quantityNamed "available" (quantities level) with
  | Some q =>
      if decide (level_location_id level ∈ allowed /\ q <> 0) then
        [{| inventoryItemId := itemId; locationId := level_location_id level;
            delta := - q |}]
      else []
  | None => []
  end.

Definition zeroingChangesFor (allowed : gset string)
  (fetched : list (option LevelsNode)) : list InventoryChangeInputLike :=
  flat_map (fun node =>
              match node with
              | Some (InventoryItem itemId levels) =>
                  flat_map (zeroingChangeFor allowed itemId) levels
              | _ => []
              end) fetched.

(** The inventory-level nodes a logged call brought back. *)
Definition levelsOf (c : Call) : list (option LevelsNode) :=
  match request c as q return Body q -> list (option LevelsNode) with
  | InventoryResetInventoryLevels _ => fun body => default [] (data body)
  | _ => fun _ => []
  end (response c).

(** *** What a log of remote calls shows *)

(** The [productVariantsBulkUpdate] chunks that were dispatched. *)
Definition denyRequestOf (c : Call) : list (string * list VariantPolicyInput) :=
  match request c with
  | InventoryResetDenyPolicy productId variants => [(productId, variants)]
  | _ => []
  end.

Definition denyRequests (cs : list Call) : list (string * list VariantPolicyInput) :=
  flat_map denyRequestOf cs.

(** The user-errors those chunks came back with. *)
Definition denyErrorsOf (c : Call) : list UserError :=
  match request c as q return Body q -> list UserError with
  | InventoryResetDenyPolicy _ _ => fun body =>
      match data body with
      | Some payload => default [] (bulk_userErrors payload)
      | None => []
      end
  | _ => fun _ => []
  end (response c).

Definition denyErrors (cs : list Call) : list UserError := flat_map denyErrorsOf cs.

(** The variants the remote reported as updated. *)
Definition confirmedUpdatesOf (c : Call) : list UpdatedVariant :=
  match request c as q return Body q -> list UpdatedVariant with
  | InventoryResetDenyPolicy _ _ => fun body =>
      match data body with
      | Some payload => default [] (productVariants payload)
      | None => []
      end
  | _ => fun _ => []
  end (response c).

Definition confirmedUpdates (cs : list Call) : list UpdatedVariant :=
  flat_map confirmedUpdatesOf cs.

(** The pages of variants the inventory reset scanned. *)
Definition variantPageOf (c : Call) : list (list ResetVariantNode) :=
  match request c as q return Body q -> list (list ResetVariantNode) with
  | InventoryResetVariants _ => fun body =>
      match data body with
      | Some connection => [nodes connection]
      | None => []
      end
  | _ => fun _ => []
  end (response c).

Definition variantPages (cs : list Call) : list (list ResetVariantNode) :=
  flat_map variantPageOf cs.

(** The reasons of the [inventoryAdjustQuantities] attempts. *)
Definition adjustReasonOf (c : Call) : list string :=
  match request c with
  | InventoryResetAdjustQuantities input => [input_reason input]
  | _ => []
  end.

Definition adjustReasons (cs : list Call) : list string :=
  flat_map adjustReasonOf cs.

(** The chunks planned for a page of variants: per product, in the order
    the products were first met, the variants that are not yet DENY, cut
    into chunks of 250. *)
Definition denyInputs (chunk : list string) : list VariantPolicyInput :=
  map (fun id => {| input_variant_id := id; input_inventoryPolicy := DENY |}) chunk.

Definition denyChunksOfGroups (groups : JsMap (list string))
  : list (string * list VariantPolicyInput) :=
  flat_map (fun entry =>
              map (fun chunk => (fst entry, denyInputs chunk))
                  (chunkArray (snd entry) 250))
           groups.

Definition denyChunksOfPage (variants : list ResetVariantNode)
  : list (string * list VariantPolicyInput) :=
  denyChunksOfGroups (fst (fold_left InventoryReset.classifyVariant variants ([], []))).

(** Total number of variants in the dispatched chunks. *)
Definition chunkTotal (chunks : list (string * list VariantPolicyInput)) : nat :=
  sum_list_with (fun chunk => length (snd chunk)) chunks.


(** First attempts of [inventoryAdjustQuantities], one per dispatched chunk
    of changes (every chunk is first tried with "correction"). *)
Definition firstAttempts (cs : list Call) : nat :=
  length (filter (fun reason => reason = "correction") (adjustReasons cs)).

(** [Delta r r' new]: how the result of the inventory reset moves from [r]
    to [r'] while the calls [new] are made. *)
Record Delta (r r' : InventoryReset.InventoryResetResult) (new : list Call)
  : Prop := {
  delta_policyCalls :
    InventoryReset.policyUpdateCalls r' =
      (InventoryReset.policyUpdateCalls r + length (denyRequests new))%nat;
  delta_policyVariants :
    InventoryReset.policyUpdatedVariants r' =
      (InventoryReset.policyUpdatedVariants r + chunkTotal (denyRequests new))%nat;
  delta_policyErrors :
    InventoryReset.policyUpdateUserErrors r' =
      (InventoryReset.policyUpdateUserErrors r + length (denyErrors new))%nat;
  delta_adjustCalls :
    InventoryReset.inventoryAdjustCalls r' =
      (InventoryReset.inventoryAdjustCalls r + firstAttempts new)%nat;
  delta_scanned :
    InventoryReset.variantsScanned r' =
      (InventoryReset.variantsScanned r + length (concat (variantPages new)))%nat;
  delta_locations :
    InventoryReset.locations r' = InventoryReset.locations r;
  delta_adjustErrors :
    (InventoryReset.inventoryAdjustUserErrors r <=
       InventoryReset.inventoryAdjustUserErrors r')%nat;
  delta_ok :
    InventoryReset.ok r' = true <->
    InventoryReset.ok r = true /\
    InventoryReset.inventoryAdjustUserErrors r' =
      InventoryReset.inventoryAdjustUserErrors r /\
    InventoryReset.policyUpdateUserErrors r' =
      InventoryReset.policyUpdateUserErrors r
}.

(** Calls that are neither variant pages nor policy updates. *)
Definition quiet (new : list Call) : Prop :=
  denyRequests new = [] /\ denyErrors new = [] /\ variantPages new = [].

(** *** The log of a vendor archive *)







Definition notArchived (p : ProductNode) : Prop := product_status p <> "ARCHIVED".

#[export] Instance notArchived_dec p : Decision (notArchived p).
Proof. unfold notArchived. apply _. Defined.


(** Every variant of the page already has the policy DENY. *)
Definition allDeny (variants : list ResetVariantNode) : Prop :=
  Forall (fun v => variant_inventoryPolicy v = DENY) variants.

(** A remote that always answers with [data]. *)
Definition alwaysAnswers {S} (admin : Admin S) : Prop :=
  forall q s, is_Some (data (fst (graphql admin q s))).

(** Whether an answer to a paginated query announces a further page. *)
Definition announcesNext (q : Request) : Data q -> bool :=
  match q as q0 return Data q0 -> bool with
  | InventoryResetLocations _ => fun d => hasNextPage (pageInfo d)
  | InventoryResetVariants _ => fun d => hasNextPage (pageInfo d)
  | ProductsByVendor _ _ => fun d => hasNextPage (pageInfo d)
  | InventoryPolicyScanVariants _ => fun d => hasNextPage (pageInfo d)
  | _ => fun _ => false
  end.

(** [rank] bounds the number of further pages the remote can still
    announce: no call increases it, and an answer that announces a next
    page decreases it. *)
Definition boundsPages {S} (admin : Admin S) (rank : S -> nat) : Prop :=
  (forall q s, (rank (snd (graphql admin q s)) <= rank s)%nat) /\
  (forall q s d s',
     answers admin q s d s' -> announcesNext q d = true -> (rank s' < rank s)%nat).

(** [m] returns a value from every world, without increasing the rank. *)
Definition returns {S A} (rank : S -> nat) (m : M (World S) A) : Prop :=
  forall w, exists a w',
    m w = (Ret a, w') /\ (rank (remote w') <= rank (remote w))%nat.

(** The idempotence sentence of the specification, read on one run: if
    every scanned variant already has the policy DENY, the run makes no
    [productVariantsBulkUpdate] call and its result has ok true. *)
Definition denySweepClaim {S} (admin : Admin S) (s : S) (fuel : nat)
  (locationIds : list string) : Prop :=
  forall r w',
    InventoryReset.runInventoryReset admin fuel locationIds (fresh s) = (Ret r, w') ->
    Forall allDeny (variantPages (calls w')) ->
    denyRequests (calls w') = [] /\ InventoryReset.ok r = true.

(** Variants sent in, and variants reported updated by, one logged call. *)
Definition requestedOf (c : Call) : nat := chunkTotal (denyRequestOf c).
Definition confirmedOf (c : Call) : nat := length (confirmedUpdatesOf c).

(** *** Webhook vocabulary *)

(** A header or setting that is not provided, or provided empty. *)
Definition missing (x : option string) : Prop := x = None \/ x = Some "".

(** The outcome is not a 200 response (it is another response, or an
    exception that reaches the framework). *)
Definition notOk (outcome : Outcome Webhook.Response) : Prop :=
  forall text,
    outcome <> Ret {| Webhook.response_body := text;
                      Webhook.response_status := 200 |}.

(* ===================================================================== *)
(** * Test doubles *)
(* ===================================================================== *)

(** A scripted shop: paginated queries are answered from scripts, one page
    per call whatever the cursor, and with an empty last page once a script
    is exhausted; mutations are answered by fixed tables. *)
Record FakeShop := {
  fake_locations : list (Connection LocationNode);
  fake_variants : list (Connection ResetVariantNode);
  fake_products : list (Connection ProductNode);
  fake_scan : list (Connection ScanVariantNode);
  fake_levels : list string -> list (option LevelsNode);
  fake_adjust : string -> AdjustPayload;
  fake_deny : string -> BulkUpdatePayload;
  fake_update : string -> ProductUpdatePayload
}.

Definition lastPage {T} : Connection T :=
  {| nodes := []; pageInfo := {| hasNextPage := false; endCursor := None |} |}.

Definition withData {q} (d : Data q) : Body q := {| data := Some d; errors := None |}.

Definition fakeGraphql (q : Request) : FakeShop -> Body q * FakeShop :=
  match q as q0 return FakeShop -> Body q0 * FakeShop with
  | InventoryResetLocations after => fun s =>
      match fake_locations s with
      | page :: rest =>
          (withData (q := InventoryResetLocations after) page,
           {| fake_locations := rest; fake_variants := fake_variants s;
              fake_products := fake_products s; fake_scan := fake_scan s;
              fake_levels := fake_levels s; fake_adjust := fake_adjust s;
              fake_deny := fake_deny s; fake_update := fake_update s |})
      | [] => (withData (q := InventoryResetLocations after) lastPage, s)
      end
  | InventoryResetVariants after => fun s =>
      match fake_variants s with
      | page :: rest =>
          (withData (q := InventoryResetVariants after) page,
           {| fake_locations := fake_locations s; fake_variants := rest;
              fake_products := fake_products s; fake_scan := fake_scan s;
              fake_levels := fake_levels s; fake_adjust := fake_adjust s;
              fake_deny := fake_deny s; fake_update := fake_update s |})
      | [] => (withData (q := InventoryResetVariants after) lastPage, s)
      end
  | InventoryResetInventoryLevels ids => fun s =>
      (withData (q := InventoryResetInventoryLevels ids) (fake_levels s ids), s)
  | InventoryResetAdjustQuantities input => fun s =>
      (withData (q := InventoryResetAdjustQuantities input)
                (fake_adjust s (input_reason input)), s)
  | InventoryResetDenyPolicy productId variants => fun s =>
      (withData (q := InventoryResetDenyPolicy productId variants)
                (fake_deny s productId), s)
  | ProductsByVendor after query => fun s =>
      match fake_products s with
      | page :: rest =>
          (withData (q := ProductsByVendor after query) page,
           {| fake_locations := fake_locations s; fake_variants := fake_variants s;
              fake_products := rest; fake_scan := fake_scan s;
              fake_levels := fake_levels s; fake_adjust := fake_adjust s;
              fake_deny := fake_deny s; fake_update := fake_update s |})
      | [] => (withData (q := ProductsByVendor after query) lastPage, s)
      end
  | ArchiveProduct id => fun s =>
      (withData (q := ArchiveProduct id) (fake_update s id), s)
  | InventoryPolicyScanVariants after => fun s =>
      match fake_scan s with
      | page :: rest =>
          (withData (q := InventoryPolicyScanVariants after) page,
           {| fake_locations := fake_locations s; fake_variants := fake_variants s;
              fake_products := fake_products s; fake_scan := rest;
              fake_levels := fake_levels s; fake_adjust := fake_adjust s;
              fake_deny := fake_deny s; fake_update := fake_update s |})
      | [] => (withData (q := InventoryPolicyScanVariants after) lastPage, s)
      end
  end.

Definition fakeAdmin : Admin FakeShop := {| graphql := fakeGraphql |}.

Definition noErrors : AdjustPayload :=
  {| inventoryAdjustmentGroup := Some "gid://shopify/InventoryAdjustmentGroup/1";
     adjust_userErrors := Some [] |}.

Definition emptyShop : FakeShop :=
  {| fake_locations := []; fake_variants := []; fake_products := [];
     fake_scan := []; fake_levels := fun _ => [];
     fake_adjust := fun _ => noErrors;
     fake_deny := fun _ => {| productVariants := Some []; bulk_userErrors := Some [] |};
     fake_update := fun _ => {| updated_product := None; update_userErrors := Some [] |} |}.

Definition location1 : string := "gid://shopify/Location/1".

Definition onePage {T} (items : list T) : list (Connection T) :=
  [{| nodes := items; pageInfo := {| hasNextPage := false; endCursor := None |} |}].

(** A variant that already has DENY and tracks its inventory. *)
Definition denyVariant : ResetVariantNode :=
  {| variant_id := "gid://shopify/ProductVariant/1";
     variant_inventoryPolicy := DENY;
     variant_product_id := "gid://shopify/Product/1";
     variant_inventoryItem :=
       Some {| inventoryItem_id := "gid://shopify/InventoryItem/1";
               tracked := true |} |}.

(** Two variants of one product that still sell when out of stock. *)
Definition continueVariant (n : string) : ResetVariantNode :=
  {| variant_id := "gid://shopify/ProductVariant/" +:+ n;
     variant_inventoryPolicy := CONTINUE;
     variant_product_id := "gid://shopify/Product/1";
     variant_inventoryItem := None |}.

(** Levels of item 1: seven available at location 1, none at location 2
    (allowed or not), three at a location outside the allowed set, and a
    level without an "available" entry. *)
Definition stockedLevels (ids : list string) : list (option LevelsNode) :=
  [ Some (InventoryItem "gid://shopify/InventoryItem/1"
      [ {| level_location_id := location1;
           quantities := [{| quantity_name := "available"; quantity := 7 |}] |};
        {| level_location_id := location1;
           quantities := [{| quantity_name := "available"; quantity := 0 |}] |};
        {| level_location_id := "gid://shopify/Location/9";
           quantities := [{| quantity_name := "available"; quantity := 3 |}] |};
        {| level_location_id := location1;
           quantities := [{| quantity_name := "on_hand"; quantity := 5 |}] |} ]);
    Some OtherNode;
    None ].

Definition rejected (errorCode : string) : list UserError :=
  [{| message := "The request was rejected."; code := Some errorCode |}].

(** Every variant is DENY, stock is left, and the adjustment is refused. *)
Definition allDenyShop : FakeShop :=
  {| fake_locations := []; fake_variants := onePage [denyVariant];
     fake_products := []; fake_scan := [];
     fake_levels := stockedLevels;
     fake_adjust := fun _ =>
       {| inventoryAdjustmentGroup := None;
          adjust_userErrors := Some (rejected "ADJUST_QUANTITIES_FAILED") |};
     fake_deny := fake_deny emptyShop; fake_update := fake_update emptyShop |}.

(** Every variant is DENY and no stock is left. *)
Definition settledShop : FakeShop :=
  {| fake_locations := []; fake_variants := onePage [denyVariant];
     fake_products := []; fake_scan := [];
     fake_levels := fun _ => [];
     fake_adjust := fake_adjust emptyShop;
     fake_deny := fake_deny emptyShop; fake_update := fake_update emptyShop |}.

(** The policy update of the only product is refused. *)
Definition refusingShop : FakeShop :=
  {| fake_locations := [];
     fake_variants := onePage [continueVariant "1"; continueVariant "2"];
     fake_products := []; fake_scan := [];
     fake_levels := fun _ => [];
     fake_adjust := fake_adjust emptyShop;
     fake_deny := fun _ =>
       {| productVariants := None;
          bulk_userErrors := Some (rejected "PRODUCT_SUSPENDED") |};
     fake_update := fake_update emptyShop |}.

(** The number of pages the scripted shop can still serve. *)
Definition fakeRank (s : FakeShop) : nat :=
  (length (fake_locations s) + length (fake_variants s) +
   length (fake_products s) + length (fake_scan s))%nat.

(** Stand-ins for the crypto and JSON libraries, and two deliveries. *)
Definition fakeHmac (secret rawBody : string) : string :=
  "hmac(" +:+ secret +:+ "," +:+ rawBody +:+ ")".

Definition quote : string := String (ascii_of_nat 34) EmptyString.

Definition bodyA1 : string := "{" +:+ quote +:+ "a" +:+ quote +:+ ":1}".

Definition fakeParse (text : string) : option Webhook.Json :=
  if String.eqb text bodyA1
  then Some (Webhook.JObject [("a", Webhook.JNumber 1)])
  else None.

Definition deliveryHeaders (signature : string) (name : string) : option string :=
  if String.eqb name "X-Shopify-Hmac-Sha256" then Some signature
  else if String.eqb name "X-Shopify-Topic" then Some "customers/data_request"
  else if String.eqb name "X-Shopify-Shop-Domain" then Some "example.myshopify.com"
  else if String.eqb name "X-Shopify-Webhook-Id" then Some "b54557e4"
  else None.

Definition signedDelivery : Webhook.Request :=
  {| Webhook.headers := deliveryHeaders (fakeHmac "shpss_secret" bodyA1);
     Webhook.wire := Webhook.Buffer_from bodyA1;
     Webhook.bodyUsed := false;
     Webhook.body := bodyA1 |}.

Definition tamperedDelivery : Webhook.Request :=
  {| Webhook.headers := deliveryHeaders (fakeHmac "shpss_secret" "{}");
     Webhook.wire := Webhook.Buffer_from bodyA1;
     Webhook.bodyUsed := false;
     Webhook.body := bodyA1 |}.

(** The stand-in HMAC on octets: [fakeHmac] hashes the UTF-8 encoding of
    its string, which for ASCII text is the text's own octets. *)
Definition fakeHmacBytes (secret : string) (octets : list N) : string :=
  fakeHmac secret (string_of_list_ascii (map ascii_of_N octets)).

(** What [text()] yields on an optional byte-order mark followed by ASCII
    octets; [None] outside this fragment. *)
Definition textOfAscii (octets : list N) : option string :=
  let rest :=
    match octets with
    | 239%N :: 187%N :: 191%N :: rest => rest
    | _ => octets
    end in
  if forallb (fun octet => (octet <? 128)%N) rest
  then Some (string_of_list_ascii (map ascii_of_N rest))
  else None.

(** The five octets EF BB BF 7B 7D: a byte-order mark, then [{}]. *)
Definition bomBody : list N := [239; 187; 191; 123; 125]%N.

(** A delivery of [bomBody] whose signature is the HMAC of the two octets
    of [{}]: a signed delivery of [{}] replayed with a byte-order mark put
    in front. *)
Definition bomReplay : Webhook.Request :=
  {| Webhook.headers := deliveryHeaders (fakeHmacBytes "shpss_secret" [123; 125]%N);
     Webhook.wire := bomBody;
     Webhook.bodyUsed := false;
     Webhook.body := "{}" |}.

(** A delivery of [bomBody] whose signature is the HMAC of these five
    octets. *)
Definition bomSigned : Webhook.Request :=
  {| Webhook.headers := deliveryHeaders (fakeHmacBytes "shpss_secret" bomBody);
     Webhook.wire := bomBody;
     Webhook.bodyUsed := false;
     Webhook.body := "{}" |}.

Definition emptyDb : Webhook.Db :=
  {| Webhook.webhookEvent := []; Webhook.nextId := "evt_1"; Webhook.now := 1735000000 |}.

(** A shop that accepts only the reason "other". *)
Definition pickyShop : FakeShop :=
  {| fake_locations := []; fake_variants := []; fake_products := [];
     fake_scan := []; fake_levels := fun _ => [];
     fake_adjust := fun reason =>
       if String.eqb reason "other" then noErrors
       else {| inventoryAdjustmentGroup := None;
               adjust_userErrors := Some (rejected "INVALID_REASON") |};
     fake_deny := fake_deny emptyShop; fake_update := fake_update emptyShop |}.

Definition sevenDown : InventoryReset.AdjustArgs :=
  {| InventoryReset.name := name_available;
     InventoryReset.changes :=
       [{| inventoryItemId := "gid://shopify/InventoryItem/1";
           locationId := location1; delta := -7 |}] |}.

(** Three location pages: [A, B], [C], []. *)
Definition locationNode (n : string) : LocationNode :=
  {| location_id := "gid://shopify/Location/" +:+ n; location_name := n |}.

Definition locationPages : list (Connection LocationNode) :=
  [ {| nodes := [locationNode "A"; locationNode "B"];
       pageInfo := {| hasNextPage := true; endCursor := Some "cursor-1" |} |};
    {| nodes := [locationNode "C"];
       pageInfo := {| hasNextPage := true; endCursor := Some "cursor-2" |} |};
    {| nodes := [];
       pageInfo := {| hasNextPage := false; endCursor := None |} |} ].

Definition threePageShop : FakeShop :=
  {| fake_locations := locationPages; fake_variants := []; fake_products := [];
     fake_scan := []; fake_levels := fun _ => [];
     fake_adjust := fake_adjust emptyShop;
     fake_deny := fake_deny emptyShop; fake_update := fake_update emptyShop |}.

(** A vendor with an active, an archived and a draft product; archiving
    the first one is refused. *)
Definition vendorShop : FakeShop :=
  {| fake_locations := []; fake_variants := [];
     fake_products :=
       onePage [ {| product_id := "gid://shopify/Product/1"; product_status := "ACTIVE" |};
                 {| product_id := "gid://shopify/Product/2"; product_status := "ARCHIVED" |};
                 {| product_id := "gid://shopify/Product/3"; product_status := "DRAFT" |} ];
     fake_scan :=
       onePage [ {| scan_id := "gid://shopify/ProductVariant/1";
                    scan_title := "Default Title"; scan_sku := None;
                    scan_inventoryPolicy := CONTINUE;
                    scan_product_id := "gid://shopify/Product/1";
                    scan_product_title := "Bike rack";
                    scan_product_handle := "bike-rack" |} ];
     fake_levels := fun _ => [];
     fake_adjust := fake_adjust emptyShop;
     fake_deny := fake_deny emptyShop;
     fake_update := fun productId =>
       if String.eqb productId "gid://shopify/Product/1"
       then {| updated_product := None;
               update_userErrors := Some (rejected "INVALID") |}
       else fake_update emptyShop productId |}.

(** Thirty user-errors, five of them benign. *)
Definition thirtyErrors : list UserError :=
  replicate 5 {| message := "Not stocked here.";
                 code := Some "ITEM_NOT_STOCKED_AT_LOCATION" |}
  ++ replicate 25 {| message := "The request was rejected."; code := None |}.

(* ===================================================================== *)
(** * Vocabulary for the properties beyond the specification *)
(* ===================================================================== *)

(** A thrown error that stems from the last call of [new]: its body had no
    [data] and the error carries the body's [errors]. *)
Definition failedCall (e : Error) (new : list Call) : Prop :=
  exists c,
    last new = Some c /\ data (response c) = None /\
    e = GraphQLRequestFailed (errors (response c)).

(** [obeys Q m P]: whatever its outcome, [m] only appends calls that
    satisfy [Q] to the log; a returned value satisfies [P]; a thrown error
    is the failure of the last call made. *)
Definition obeys {S A} (Q : Call -> Prop) (m : M (World S) A) (P : A -> Prop)
  : Prop :=
  forall w o w',
    m w = (o, w') ->
    exists new,
      calls w' = calls w ++ new /\ Forall Q new /\
      match o with
      | Ret a => P a
      | Throw e => failedCall e new
      | OutOfFuel => True
      end.

(** An inventory change the reset may send: at an allowed location, with a
    delta that is not zero. *)
Definition safeChange (allowed : gset string) (change : InventoryChangeInputLike)
  : Prop :=
  locationId change ∈ allowed /\ delta change <> 0.

(** The calls an inventory reset may make, with the batch limits of the
    remote API. *)
Definition resetCall (allowed : gset string) (c : Call) : Prop :=
  match request c with
  | InventoryResetVariants _ => True
  | InventoryResetInventoryLevels ids => (0 < length ids <= 50)%nat
  | InventoryResetAdjustQuantities input =>
      input_name input = name_available /\
      input_reason input ∈ InventoryReset.reasonFallbacks /\
      (0 < length (input_changes input) <= 250)%nat /\
      Forall (safeChange allowed) (input_changes input)
  | InventoryResetDenyPolicy _ variants =>
      (0 < length variants <= 250)%nat /\
      Forall (fun v => input_inventoryPolicy v = DENY) variants
  | _ => False
  end.

(** The calls a vendor archive may make. *)
Definition archiveCall (vendor : string) (c : Call) : Prop :=
  match request c with
  | ProductsByVendor _ query => query = "vendor:" +:+ vendor
  | ArchiveProduct _ => True
  | _ => False
  end.

(** The calls a policy scan may make: queries only. *)
Definition scanCall (c : Call) : Prop :=
  exists after, request c = InventoryPolicyScanVariants after.

(** The calls [getAllLocationIds] may make. *)
Definition locationsCall (c : Call) : Prop :=
  exists after, request c = InventoryResetLocations after.

(** The sample list holds the first 25 failures. *)
Definition resetSamplesCapped (r : InventoryReset.InventoryResetResult) : Prop :=
  length (InventoryReset.sampleErrors r) =
    Nat.min 25 (InventoryReset.inventoryAdjustUserErrors r +
                InventoryReset.policyUpdateUserErrors r).

(** What an inventory reset keeps true of its result. *)
Definition resetKept (n : nat) (r : InventoryReset.InventoryResetResult) : Prop :=
  resetSamplesCapped r /\ InventoryReset.locations r = n.

(** The books of a vendor archive. *)
Definition archiveBooks (r : AppIndex.ArchivePeruzzoResult) : Prop :=
  length (AppIndex.sampleErrors r) = Nat.min 25 (AppIndex.userErrors r) /\
  (AppIndex.archived r + AppIndex.alreadyArchived r <= AppIndex.scanned r)%nat /\
  (AppIndex.scanned r <=
     AppIndex.archived r + AppIndex.alreadyArchived r + AppIndex.userErrors r)%nat /\
  (AppIndex.ok r = true <-> AppIndex.userErrors r = 0%nat).

(** The books of a policy scan while it runs: [pending] variants of the
    current page are counted in [variantsScanned] but not yet looked at. *)
Definition scanBooks (pending : nat) (st : InventoryScan.ScanState) : Prop :=
  let r := InventoryScan.result st in
  InventoryScan.productIdsWithContinue st ⊆ InventoryScan.productIds st /\
  (size (InventoryScan.productIdsWithContinue st) <=
     InventoryScan.variantsWithContinue r)%nat /\
  (InventoryScan.variantsWithContinue r + pending <=
     InventoryScan.variantsScanned r)%nat /\
  (size (InventoryScan.productIds st) + pending <=
     InventoryScan.variantsScanned r)%nat /\
  (InventoryScan.variantsWithContinue r = 0%nat <->
   InventoryScan.productIdsWithContinue st = ∅) /\
  (InventoryScan.ok r = true <-> InventoryScan.variantsWithContinue r = 0%nat) /\
  length (InventoryScan.sampleOffenders r) =
    Nat.min 25 (InventoryScan.variantsWithContinue r).

(** The variants of a page the reset has to switch to DENY, and those of
    one product among them. *)
Definition toDeny (variants : list ResetVariantNode) : list ResetVariantNode :=
  filter (fun v => variant_inventoryPolicy v <> DENY) variants.

Definition toDenyOf (productId : string) (variants : list ResetVariantNode)
  : list ResetVariantNode :=
  filter (fun v => variant_product_id v = productId) (toDeny variants).

(** The variants of a page whose inventory is tracked. *)
Definition trackedItemOf (v : ResetVariantNode) : list string :=
  match variant_inventoryItem v with
  | Some item =>
      if decide (inventoryItem_id item <> "" /\ tracked item = true)
      then [inventoryItem_id item] else []
  | None => []
  end.

(** The answer a logged [inventoryAdjustQuantities] call came back with. *)
Definition adjustAnswerOf (c : Call) : option AdjustPayload :=
  match request c as q return Body q -> option AdjustPayload with
  | InventoryResetAdjustQuantities _ => fun body => data body
  | _ => fun _ => None
  end (response c).

(** A remote whose location pages never end. *)
Definition endlessLocations {S} (admin : Admin S) : Prop :=
  forall after s, exists d s',
    answers admin (InventoryResetLocations after) s d s' /\
    hasNextPage (pageInfo d) = true.

(** A test double of such a remote: every page holds one location and
    announces another page. *)
Definition endlessAdmin : Admin nat :=
  {| graphql q := fun n =>
       (match q as q0 return Body q0 with
        | InventoryResetLocations after =>
            withData (q := InventoryResetLocations after)
              {| nodes := [locationNode "A"];
                 pageInfo := {| hasNextPage := true; endCursor := Some "next" |} |}
        | _ => {| data := None; errors := Some "not scripted" |}
        end, Datatypes.S n) |}.

(** A remote that is down. *)
Definition downAdmin : Admin unit :=
  {| graphql q := fun s => ({| data := None; errors := Some "Throttled" |}, s) |}.

(** The level queries [getInventoryZeroingChanges] may make for the item
    ids it was given. *)
Definition levelsCall (inventoryItemIds : list string) (c : Call) : Prop :=
  match request c with
  | InventoryResetInventoryLevels ids =>
      (0 < length ids <= 50)%nat /\ ids ⊆ inventoryItemIds
  | _ => False
  end.

(** The location ids a logged call brought back. *)
Definition locationIdsOf (c : Call) : list string :=
  match request c as q return Body q -> list string with
  | InventoryResetLocations _ => fun body =>
      match data body with
      | Some connection => map location_id (nodes connection)
      | None => []
      end
  | _ => fun _ => []
  end (response c).

(** The variants a logged call of the policy scan brought back. *)
Definition scanPageOf (c : Call) : list ScanVariantNode :=
  match request c as q return Body q -> list ScanVariantNode with
  | InventoryPolicyScanVariants _ => fun body =>
      match data body with
      | Some connection => nodes connection
      | None => []
      end
  | _ => fun _ => []
  end (response c).

Definition scannedVariants (cs : list Call) : list ScanVariantNode :=
  flat_map scanPageOf cs.

(** The variants that continue selling when out of stock, and the entry
    the scan reports for one. *)
Definition offending (variants : list ScanVariantNode) : list ScanVariantNode :=
  filter (fun v => scan_inventoryPolicy v = CONTINUE) variants.

Definition offenderOf (v : ScanVariantNode) : InventoryScan.Offender :=
  {| InventoryScan.productTitle := scan_product_title v;
     InventoryScan.productHandle := scan_product_handle v;
     InventoryScan.variantTitle := scan_title v;
     InventoryScan.sku := scan_sku v |}.

(** The locals of the scan after the variants [seen], with [pending]
    variants of the current page counted but not yet looked at. *)
Definition scanSees (seen : list ScanVariantNode) (pending : nat)
  (st : InventoryScan.ScanState) : Prop :=
  let r := InventoryScan.result st in
  InventoryScan.productIds st = list_to_set (map scan_product_id seen) /\
  InventoryScan.productIdsWithContinue st =
    list_to_set (map scan_product_id (offending seen)) /\
  InventoryScan.variantsScanned r = (length seen + pending)%nat /\
  InventoryScan.variantsWithContinue r = length (offending seen) /\
  InventoryScan.sampleOffenders r = take 25 (map offenderOf (offending seen)) /\
  (InventoryScan.ok r = true <-> offending seen = []).

(** A signed delivery whose body is not JSON. *)
Definition garbledDelivery : Webhook.Request :=
  {| Webhook.headers := deliveryHeaders (fakeHmac "shpss_secret" "oops");
     Webhook.wire := Webhook.Buffer_from "oops";
     Webhook.bodyUsed := false;
     Webhook.body := "oops" |}.

(** The signed delivery after something else has read its body. *)
Definition spentDelivery : Webhook.Request :=
  {| Webhook.headers := Webhook.headers signedDelivery;
     Webhook.wire := Webhook.wire signedDelivery;
     Webhook.bodyUsed := true;
     Webhook.body := Webhook.body signedDelivery |}.

(* ===================================================================== *)
(** * The adjustments of an inventory reset, read off the log *)
(* ===================================================================== *)

(** The user-errors of an answer to [inventoryAdjustQuantities]. *)
Definition userErrorsOf (inv : AdjustPayload) : list UserError :=
  default [] (adjust_userErrors inv).

(** The answer that ends the attempts for a chunk of changes: an answer
    without INVALID_REASON, or the answer to the last reason, "other".
    Any other answer is superseded by the attempt that follows it. *)
Definition finalAnswerOf (c : Call) : list AdjustPayload :=
  match request c as q return Body q -> list AdjustPayload with
  | InventoryResetAdjustQuantities input => fun body =>
      match data body with
      | Some inv =>
          if InventoryReset.hasInvalidReason inv
             && negb (String.eqb (input_reason input) "other")
          then [] else [inv]
      | None => []
      end
  | _ => fun _ => []
  end (response c).

Definition finalAnswers (cs : list Call) : list AdjustPayload :=
  flat_map finalAnswerOf cs.

Definition finalAdjustErrors (cs : list Call) : list UserError :=
  flat_map userErrorsOf (finalAnswers cs).


(** The changes sent in first attempts, that is with the reason
    "correction". *)
Definition firstAttemptChangesOf (c : Call) : list InventoryChangeInputLike :=
  match request c with
  | InventoryResetAdjustQuantities input =>
      if String.eqb (input_reason input) "correction" then input_changes input
      else []
  | _ => []
  end.

Definition firstAttemptChanges (cs : list Call) : list InventoryChangeInputLike :=
  flat_map firstAttemptChangesOf cs.

(** A call that is no adjustment and fetches no level. *)
Definition besideAdjust (c : Call) : Prop :=
  finalAnswerOf c = [] /\ firstAttemptChangesOf c = [] /\
  adjustReasonOf c = [] /\ levelsOf c = [].

(** A level query. *)
Definition levelQuery (c : Call) : Prop :=
  finalAnswerOf c = [] /\ firstAttemptChangesOf c = [] /\ adjustReasonOf c = [].

(** [AdjustBooks allowed r r' new]: how the adjustment counters of the
    inventory reset move from [r] to [r'] while the calls [new] are made,
    and what the calls adjust. *)
Record AdjustBooks (allowed : gset string)
  (r r' : InventoryReset.InventoryResetResult) (new : list Call) : Prop := {
  books_ignored :
    InventoryReset.inventoryAdjustIgnoredNotStockedErrors r' =
      (InventoryReset.inventoryAdjustIgnoredNotStockedErrors r +
         length (filter notStocked (finalAdjustErrors new)))%nat;
  books_failures :
    InventoryReset.inventoryAdjustUserErrors r' =
      (InventoryReset.inventoryAdjustUserErrors r +
         length (filter (fun e => ~ notStocked e) (finalAdjustErrors new)))%nat;
  books_finals : length (finalAnswers new) = firstAttempts new;
  books_attempts :
    (firstAttempts new <= length (adjustReasons new) <= 3 * firstAttempts new)%nat;
  books_changes :
    firstAttemptChanges new = zeroingChangesFor allowed (flat_map levelsOf new)
}.



(** Every adjustment comes back with the thirty user-errors. *)
Definition thirtyErrorShop : FakeShop :=
  {| fake_locations := []; fake_variants := onePage [denyVariant];
     fake_products := []; fake_scan := [];
     fake_levels := stockedLevels;
     fake_adjust := fun _ =>
       {| inventoryAdjustmentGroup := None;
          adjust_userErrors := Some thirtyErrors |};
     fake_deny := fake_deny emptyShop; fake_update := fake_update emptyShop |}.

(* ===================================================================== *)
(** * Theorems *)
(* ===================================================================== *)

Arguments Nat.min : simpl never.
Arguments Nat.max : simpl never.

(** ** Generic facts about the monad *)

Lemma bind_ret_inv {W A B} (m : M W A) (f : A -> M W B) w b w' :
  (m ≫= f) w = (Ret b, w') ->
  exists a w1, m w = (Ret a, w1) /\ f a w1 = (Ret b, w').
Proof.
  unfold mbind, M_bind. destruct (m w) as [[a|e|] w1]; intros H; try discriminate.
  eauto.
Qed.

(** ** [chunkArray] *)

Section Chunking.
Context {T : Type}.
Implicit Types (arr : list T) (n : positive) (out : list (list T)).

Lemma chunkLoop_body arr n i out :
  chunkLoop arr n i out =
    if decide (i < length arr)%nat
    then chunkLoop arr n (i + Pos.to_nat n)
                   (out ++ [slice arr i (i + Pos.to_nat n)])
    else out.
Proof.
  rewrite chunkLoop_equation_1. by destruct (decide (i < length arr)%nat).
Qed.

Lemma chunkLoop_acc arr n i out :
  chunkLoop arr n i out = out ++ chunkLoop arr n i [].
Proof.
  remember (length arr - i)%nat as m eqn:Hm.
  revert i out Hm. induction m as [m IH] using lt_wf_ind. intros i out Hm.
  rewrite (chunkLoop_body arr n i out), (chunkLoop_body arr n i []).
  destruct (decide (i < length arr)%nat) as [Hlt|Hge].
  - rewrite (IH (length arr - (i + Pos.to_nat n))%nat ltac:(lia) _ (out ++ _) eq_refl).
    rewrite (IH (length arr - (i + Pos.to_nat n))%nat ltac:(lia) _ ([] ++ _) eq_refl).
    simpl. by rewrite <- app_assoc.
  - by rewrite app_nil_r.
Qed.

Lemma chunkLoop_step arr n i :
  (i < length arr)%nat ->
  chunkLoop arr n i [] =
    slice arr i (i + Pos.to_nat n) :: chunkLoop arr n (i + Pos.to_nat n) [].
Proof.
  intros Hlt. rewrite (chunkLoop_body arr n i []).
  destruct (decide (i < length arr)%nat); [simpl|lia].
  by rewrite chunkLoop_acc.
Qed.

Lemma chunkLoop_done arr n i :
  (length arr <= i)%nat -> chunkLoop arr n i [] = [].
Proof.
  intros Hge. rewrite (chunkLoop_body arr n i []).
  destruct (decide (i < length arr)%nat); [lia|done].
Qed.

Lemma chunkLoop_concat arr n i :
  concat (chunkLoop arr n i []) = drop i arr.
Proof.
  remember (length arr - i)%nat as m eqn:Hm.
  revert i Hm. induction m as [m IH] using lt_wf_ind. intros i Hm.
  destruct (decide (i < length arr)%nat) as [Hlt|Hge].
  - rewrite chunkLoop_step by done. simpl.
    rewrite (IH (length arr - (i + Pos.to_nat n))%nat ltac:(lia) _ eq_refl).
    unfold slice. replace (i + Pos.to_nat n - i)%nat with (Pos.to_nat n) by lia.
    rewrite <- (drop_drop arr (Pos.to_nat n) i). apply take_drop.
  - rewrite chunkLoop_done by lia. by rewrite drop_ge by lia.
Qed.

Lemma chunkLoop_lookup arr n k : forall i c,
  chunkLoop arr n i [] !! k = Some c ->
  (i + k * Pos.to_nat n < length arr)%nat /\
  c = slice arr (i + k * Pos.to_nat n) (i + k * Pos.to_nat n + Pos.to_nat n).
Proof.
  induction k as [|k IH]; intros i c.
  - destruct (decide (i < length arr)%nat) as [Hlt|Hge].
    + rewrite chunkLoop_step by done. simpl. intros [= <-].
      replace (i + 0)%nat with i by lia. done.
    + rewrite chunkLoop_done by lia. done.
  - destruct (decide (i < length arr)%nat) as [Hlt|Hge].
    + rewrite chunkLoop_step by done. simpl. intros H.
      apply IH in H as [H1 ->].
      replace (i + Pos.to_nat n + k * Pos.to_nat n)%nat
        with (i + (Pos.to_nat n + k * Pos.to_nat n))%nat by lia.
      split; [lia|done].
    + rewrite chunkLoop_done by lia. done.
Qed.

Lemma slice_length arr i j :
  length (slice arr i j) = Nat.min (j - i) (length arr - i).
Proof. unfold slice. by rewrite length_take, length_drop. Qed.

End Chunking.

(** C7. For a positive chunk size [n], [chunkArray arr n] is the list of the
    contiguous slices [arr.slice(k*n, k*n + n)] in order; their
    concatenation is [arr]; every chunk but the last has exactly [n]
    elements and the last has between 1 and [n]; an array of 530 items cut
    by 250 gives chunks of lengths 250, 250, 30.  For [n <= 0] the result
    is the single chunk [arr]. *)
Theorem chunkArray_partition {T} (arr : list T) (n : Z) :
  (n <= 0 -> chunkArray arr n = [arr]) /\
  (0 < n ->
     concat (chunkArray arr n) = arr /\
     (forall k c, chunkArray arr n !! k = Some c ->
        c = slice arr (k * Z.to_nat n) (k * Z.to_nat n + Z.to_nat n) /\
        (0 < length c <= Z.to_nat n)%nat /\
        (S k < length (chunkArray arr n) -> length c = Z.to_nat n)%nat)) /\
  (length arr = 530%nat -> map length (chunkArray arr 250) = [250; 250; 30]%nat).
Proof.
  split; [|split].
  - intros Hn. unfold chunkArray. by destruct (decide (n <= 0)).
  - intros Hn. unfold chunkArray. destruct (decide (n <= 0)) as [?|_]; [lia|].
    assert (Hp : Pos.to_nat (Z.to_pos n) = Z.to_nat n) by lia.
    split; [by rewrite chunkLoop_concat|].
    intros k c Hk.
    pose proof (chunkLoop_lookup _ _ _ _ _ Hk) as [Hlt ->].
    rewrite Hp in *. simpl in Hlt |- *. split; [done|].
    rewrite slice_length. split; [lia|].
    intros Hlen.
    destruct (lookup_lt_is_Some_2 _ _ Hlen) as [c' Hc'].
    apply chunkLoop_lookup in Hc' as [Hlt' _]. rewrite Hp in Hlt'. simpl in Hlt'. lia.
  - intros Hlen. unfold chunkArray. simpl.
    rewrite chunkLoop_step by lia. rewrite chunkLoop_step by (simpl; lia).
    rewrite chunkLoop_step by (simpl; lia). rewrite chunkLoop_done by (simpl; lia).
    simpl. rewrite !slice_length, Hlen. done.
Qed.

(** ** Classification of user-errors in the inventory reset *)

Section UserErrors.
Import InventoryReset.

Lemma filter_complement_length {A} (P : A -> Prop) `{!forall x, Decision (P x)}
  (l : list A) :
  (length (filter P l) + length (filter (fun x => ~ P x) l) = length l)%nat.
Proof.
  induction l as [|x l IH]; [done|].
  rewrite !filter_cons. destruct (decide (P x)).
  - rewrite decide_False by tauto. simpl. lia.
  - rewrite decide_True by tauto. simpl. lia.
Qed.

Lemma pushSampleError_fields scope e r :
  ok (pushSampleError scope e r) = ok r /\
  locations (pushSampleError scope e r) = locations r /\
  variantsScanned (pushSampleError scope e r) = variantsScanned r /\
  inventoryAdjustCalls (pushSampleError scope e r) = inventoryAdjustCalls r /\
  inventoryAdjustUserErrors (pushSampleError scope e r) = inventoryAdjustUserErrors r /\
  inventoryAdjustIgnoredNotStockedErrors (pushSampleError scope e r)
    = inventoryAdjustIgnoredNotStockedErrors r /\
  policyUpdateCalls (pushSampleError scope e r) = policyUpdateCalls r /\
  policyUpdatedVariants (pushSampleError scope e r) = policyUpdatedVariants r /\
  policyUpdateUserErrors (pushSampleError scope e r) = policyUpdateUserErrors r.
Proof. unfold pushSampleError. by destruct (decide _). Qed.

Lemma pushSampleError_length scope e r :
  length (sampleErrors (pushSampleError scope e r)) =
    Nat.max (length (sampleErrors r)) (Nat.min 25 (length (sampleErrors r) + 1)).
Proof.
  unfold pushSampleError. destruct (decide _); simpl; [rewrite length_app; simpl|]; lia.
Qed.

Lemma recordAdjustUserError_benign e r :
  notStocked e ->
  recordAdjustUserError e r =
    set_inventoryAdjustIgnoredNotStockedErrors
      (inventoryAdjustIgnoredNotStockedErrors r + 1)%nat r.
Proof. intros H. unfold recordAdjustUserError. by rewrite bool_decide_eq_true_2. Qed.

Lemma recordAdjustUserError_failure e r :
  ~ notStocked e ->
  recordAdjustUserError e r =
    pushSampleError "inventoryAdjustQuantities" e
      (set_inventoryAdjustUserErrors (inventoryAdjustUserErrors r + 1)%nat
         (set_ok false r)).
Proof. intros H. unfold recordAdjustUserError. by rewrite bool_decide_eq_false_2. Qed.

(** What a whole batch of user-errors does to the counters. *)
Lemma recordAdjustUserErrors_counts errors : forall r,
  let r' := recordAdjustUserErrors errors r in
  let failures := length (filter (fun e => ~ notStocked e) errors) in
  inventoryAdjustIgnoredNotStockedErrors r' =
    (inventoryAdjustIgnoredNotStockedErrors r + length (filter notStocked errors))%nat /\
  inventoryAdjustUserErrors r' = (inventoryAdjustUserErrors r + failures)%nat /\
  ok r' = ok r && bool_decide (failures = 0%nat) /\
  length (sampleErrors r') =
    Nat.max (length (sampleErrors r))
            (Nat.min 25 (length (sampleErrors r) + failures)) /\
  policyUpdateUserErrors r' = policyUpdateUserErrors r /\
  policyUpdatedVariants r' = policyUpdatedVariants r /\
  policyUpdateCalls r' = policyUpdateCalls r /\
  inventoryAdjustCalls r' = inventoryAdjustCalls r /\
  variantsScanned r' = variantsScanned r /\
  locations r' = locations r.
Proof.
  induction errors as [|e errors IH]; intros r; simpl.
  - rewrite andb_true_r. repeat split; lia.
  - unfold recordAdjustUserErrors in *. simpl.
    specialize (IH (recordAdjustUserError e r)). simpl in IH.
    destruct IH as (I1 & I2 & I3 & I4 & I5 & I6 & I7 & I8 & I9 & I10).
    rewrite I1, I2, I3, I4, I5, I6, I7, I8, I9, I10. clear I1 I2 I3 I4 I5 I6 I7 I8 I9 I10.
    rewrite !filter_cons.
    destruct (decide (notStocked e)) as [Hb|Hb].
    + rewrite decide_False by tauto.
      rewrite recordAdjustUserError_benign by done. simpl.
      repeat split; lia.
    + rewrite decide_True by tauto.
      rewrite recordAdjustUserError_failure by done.
      destruct (pushSampleError_fields "inventoryAdjustQuantities" e
                  (set_inventoryAdjustUserErrors (inventoryAdjustUserErrors r + 1)%nat
                     (set_ok false r)))
        as (F1 & F2 & F3 & F4 & F5 & F6 & F7 & F8 & F9).
      rewrite F1, F2, F3, F4, F5, F6, F7, F8, F9, pushSampleError_length. simpl.
      rewrite andb_false_r. repeat split; lia.
Qed.

End UserErrors.


(** ** Remote calls *)

Lemma graphqlJson_answers {S} (admin : Admin S) q (w : World S) d s' :
  answers admin q (remote w) d s' ->
  graphqlJson admin q w =
    (Ret d, {| remote := s'; calls := calls w ++ [logged admin q (remote w)] |}).
Proof.
  intros (body & Hq & Hd). unfold graphqlJson, logged.
  rewrite Hq. simpl. by rewrite Hd.
Qed.

Lemma graphqlJson_ret_inv {S} (admin : Admin S) q (w w' : World S) d :
  graphqlJson admin q w = (Ret d, w') ->
  answers admin q (remote w) d (remote w') /\
  calls w' = calls w ++ [logged admin q (remote w)].
Proof.
  unfold graphqlJson, answers, logged.
  destruct (graphql admin q (remote w)) as [body s'] eqn:Hq. simpl.
  destruct (data body) as [d'|] eqn:Hd; intros [= <- <-]; simpl. eauto.
Qed.

(** ** The reason fallback *)

Lemma hasInvalidReason_spec (inv : AdjustPayload) :
  InventoryReset.hasInvalidReason inv = true <->
  Exists invalidReason (default [] (adjust_userErrors inv)).
Proof.
  unfold InventoryReset.hasInvalidReason.
  rewrite existsb_exists, Exists_exists. split.
  - intros (e & Hin & He). exists e. split; [by apply list_elem_of_In|].
    by apply bool_decide_eq_true_1 in He.
  - intros (e & Hin & He). exists e. split; [by apply list_elem_of_In|].
    by apply bool_decide_eq_true_2.
Qed.

Lemma reasonFallbackLoop_attempt {S} (admin : Admin S) reason reasons input
  lastResponse (w : World S) r s' :
  answers admin (adjustRequest input reason) (remote w) r s' ->
  InventoryReset.reasonFallbackLoop admin (reason :: reasons) input lastResponse w =
    let w' := {| remote := s';
                 calls := calls w ++
                   [logged admin (adjustRequest input reason) (remote w)] |} in
    if InventoryReset.hasInvalidReason r
    then InventoryReset.reasonFallbackLoop admin reasons input (Some r) w'
    else (Ret (Some r), w').
Proof.
  intros H. cbn [InventoryReset.reasonFallbackLoop]. unfold mbind, M_bind.
  fold (adjustRequest input reason).
  rewrite (graphqlJson_answers _ _ _ _ _ H).
  by destruct (InventoryReset.hasInvalidReason r).
Qed.

(** C4. The fallback helper tries "correction", then "cycle_count", then
    "other", one remote call per attempt.  Whatever other user-errors it
    carries, the first answer without an INVALID_REASON user-error is
    returned at once and no further call is made; when the first two
    answers carry INVALID_REASON the third answer is returned whatever it
    holds, after exactly three calls. *)
Theorem reason_fallback_attempts {S} (admin : Admin S)
  (input : InventoryReset.AdjustArgs) (w : World S) r1 s1 :
  answers admin (adjustRequest input "correction") (remote w) r1 s1 ->
  let c1 := logged admin (adjustRequest input "correction") (remote w) in
  (~ Exists invalidReason (default [] (adjust_userErrors r1)) ->
     InventoryReset.inventoryAdjustQuantitiesWithReasonFallback admin input w =
       (Ret (Some r1), {| remote := s1; calls := calls w ++ [c1] |})) /\
  (Exists invalidReason (default [] (adjust_userErrors r1)) ->
     forall r2 s2,
       answers admin (adjustRequest input "cycle_count") s1 r2 s2 ->
       let c2 := logged admin (adjustRequest input "cycle_count") s1 in
       (~ Exists invalidReason (default [] (adjust_userErrors r2)) ->
          InventoryReset.inventoryAdjustQuantitiesWithReasonFallback admin input w =
            (Ret (Some r2), {| remote := s2; calls := calls w ++ [c1; c2] |})) /\
       (Exists invalidReason (default [] (adjust_userErrors r2)) ->
          forall r3 s3,
            answers admin (adjustRequest input "other") s2 r3 s3 ->
            let c3 := logged admin (adjustRequest input "other") s2 in
            InventoryReset.inventoryAdjustQuantitiesWithReasonFallback admin input w =
              (Ret (Some r3),
               {| remote := s3; calls := calls w ++ [c1; c2; c3] |}))).
Proof.
  intros H1 c1.
  unfold InventoryReset.inventoryAdjustQuantitiesWithReasonFallback,
    InventoryReset.reasonFallbacks.
  rewrite (reasonFallbackLoop_attempt _ _ _ _ _ _ _ _ H1). cbv zeta. fold c1.
  split.
  - intros Hclean. rewrite <- hasInvalidReason_spec in Hclean.
    by destruct (InventoryReset.hasInvalidReason r1).
  - intros Hbad r2 s2 H2. rewrite <- hasInvalidReason_spec in Hbad.
    rewrite Hbad.
    rewrite (reasonFallbackLoop_attempt admin _ _ _ _ {| remote := s1 |} _ _ H2).
    cbv zeta. cbn [remote calls]. rewrite <- app_assoc. cbn [app].
    split.
    + intros Hclean. rewrite <- hasInvalidReason_spec in Hclean.
      by destruct (InventoryReset.hasInvalidReason r2).
    + intros Hbad2 r3 s3 H3. rewrite <- hasInvalidReason_spec in Hbad2.
      rewrite Hbad2.
      rewrite (reasonFallbackLoop_attempt admin _ _ _ _ {| remote := s2 |} _ _ H3).
      cbv zeta. cbn [remote calls InventoryReset.reasonFallbackLoop].
      rewrite <- app_assoc. cbn [app].
      by destruct (InventoryReset.hasInvalidReason r3).
Qed.

(** ** Cursor pagination ([getAllLocationIds]) *)

Section Pagination.
Context {S : Type} (admin : Admin S).

Lemma getAllLocationIds_loop_serves pages : forall s after s' fuel acc log,
  servesLocations admin s after pages s' ->
  (length pages <= fuel)%nat ->
  exists new,
    InventoryReset.getAllLocationIds_loop admin fuel after acc
      {| remote := s; calls := log |} =
      (Ret (acc ++ concat (map (fun page => map location_id (nodes page)) pages)),
       {| remote := s'; calls := log ++ new |}) /\
    map request new = map InventoryResetLocations (cursorsFrom after pages).
Proof.
  induction pages as [|page pages IH]; intros s after s' fuel acc log Hs Hfuel.
  { inversion Hs. }
  destruct fuel as [|fuel]; [simpl in Hfuel; lia|].
  cbn [InventoryReset.getAllLocationIds_loop]. unfold mbind, M_bind.
  inversion Hs as [s0 a0 p0 s0' Hans Hlast|s0 a0 p0 s1 ps s0' Hans Hmore Hrest];
    subst.
  - rewrite (graphqlJson_answers admin _ {| remote := s |} _ _ Hans).
    rewrite Hlast. cbn [negb remote calls].
    exists [logged admin (InventoryResetLocations after) s].
    split; [|done]. simpl. by rewrite app_nil_r.
  - rewrite (graphqlJson_answers admin _ {| remote := s |} _ _ Hans).
    rewrite Hmore. cbn [negb remote calls].
    simpl in Hfuel.
    destruct (IH _ _ _ fuel (acc ++ map location_id (nodes page))
                (log ++ [logged admin (InventoryResetLocations after) s])
                Hrest ltac:(lia)) as (new & Hrun & Hreq).
    rewrite Hrun. eexists (_ :: new). split.
    + simpl. by rewrite <- !app_assoc.
    + simpl. by rewrite Hreq.
Qed.

(** The log only grows, whatever the outcome. *)
Lemma getAllLocationIds_loop_log fuel : forall after acc (w : World S) o w',
  InventoryReset.getAllLocationIds_loop admin fuel after acc w = (o, w') ->
  exists new, calls w' = calls w ++ new.
Proof.
  induction fuel as [|fuel IH]; intros after acc w o w'.
  - intros [= <- <-]. exists []. by rewrite app_nil_r.
  - cbn [InventoryReset.getAllLocationIds_loop]. unfold mbind, M_bind, graphqlJson.
    destruct (graphql admin (InventoryResetLocations after) (remote w))
      as [body s1]. simpl.
    destruct (data body) as [d|].
    + destruct (negb (hasNextPage (pageInfo d))).
      * intros [= <- <-]. simpl. eauto.
      * intros H. apply IH in H as [new Hnew]. simpl in Hnew.
        rewrite Hnew, <- app_assoc. eauto.
    + intros [= <- <-]. simpl. eauto.
Qed.

End Pagination.

(** C6. [getAllLocationIds] sends its first request with the null cursor,
    whatever happens next.  Against a remote that serves the pages [pages]
    along the cursors (each page but the last announcing a next page), it
    returns the identifiers of all nodes, page after page in order, after
    exactly one call per page, the call after a page carrying
    [endCursor || null] of that page.  For the pages [A,B], [C], [] with
    hasNextPage true, true, false it returns [A,B,C] after exactly three
    calls. *)
Theorem location_pagination {S} (admin : Admin S) (s : S) (fuel : nat) :
  (forall o w',
     InventoryReset.getAllLocationIds admin (Datatypes.S fuel) (fresh s) = (o, w') ->
     exists rest, map request (calls w') = InventoryResetLocations None :: rest) /\
  (forall pages s',
     servesLocations admin s None pages s' ->
     (length pages <= fuel)%nat ->
     exists new,
       InventoryReset.getAllLocationIds admin fuel (fresh s) =
         (Ret (concat (map (fun page => map location_id (nodes page)) pages)),
          {| remote := s'; calls := new |}) /\
       map request new = map InventoryResetLocations (cursorsFrom None pages) /\
       length new = length pages /\
       (forall A B C c1 c2 c3,
          pages =
            [ {| nodes := [A; B];
                 pageInfo := {| hasNextPage := true; endCursor := c1 |} |};
              {| nodes := [C];
                 pageInfo := {| hasNextPage := true; endCursor := c2 |} |};
              {| nodes := [];
                 pageInfo := {| hasNextPage := false; endCursor := c3 |} |} ] ->
          InventoryReset.getAllLocationIds admin fuel (fresh s) =
            (Ret [location_id A; location_id B; location_id C],
             {| remote := s'; calls := new |}) /\
          length new = 3%nat)).
Proof.
  split.
  - intros o w'.
    unfold InventoryReset.getAllLocationIds.
    cbn [InventoryReset.getAllLocationIds_loop]. unfold mbind, M_bind, graphqlJson.
    destruct (graphql admin (InventoryResetLocations None) (remote (fresh s)))
      as [body s1]. simpl.
    destruct (data body) as [d|].
    + destruct (negb (hasNextPage (pageInfo d))).
      * intros [= <- <-]. simpl. eauto.
      * intros H. apply getAllLocationIds_loop_log in H as [new Hnew].
        simpl in Hnew. rewrite Hnew. simpl. eauto.
    + intros [= <- <-]. simpl. eauto.
  - intros pages s' Hs Hfuel.
    destruct (getAllLocationIds_loop_serves admin pages s None s' fuel [] [] Hs Hfuel)
      as (new & Hrun & Hreq).
    simpl in Hrun. exists new.
    assert (Hlen : length new = length pages).
    { apply (f_equal length) in Hreq. rewrite !length_map in Hreq.
      rewrite Hreq. clear. generalize (@None string).
      induction pages; intros; simpl; [done|by f_equal]. }
    unfold InventoryReset.getAllLocationIds, fresh.
    repeat split; try done.
    + subst. by rewrite Hrun.
    + by subst.
Qed.

(** ** Inventory zeroing ([getInventoryZeroingChanges]) *)

Section Zeroing.
Context {S : Type} (admin : Admin S) (allowed : gset string).

Lemma find_available (qs : list QuantityEntry) :
  quantity <$> List.find (fun q => String.eqb (quantity_name q) "available") qs
  = quantityNamed "available" qs.
Proof.
  induction qs as [|q qs IH]; [done|]. simpl.
  destruct (String.eqb_spec (quantity_name q) "available") as [Heq|Hne].
  - by rewrite decide_True.
  - by rewrite decide_False.
Qed.

Lemma zeroingLevelStep_spec itemId level changes :
  InventoryReset.zeroingLevelStep allowed itemId level changes =
    changes ++ zeroingChangeFor allowed itemId level.
Proof.
  unfold InventoryReset.zeroingLevelStep, zeroingChangeFor.
  rewrite <- find_available.
  destruct (List.find _ (quantities level)) as [q|]; simpl.
  - destruct (decide (level_location_id level ∈ allowed)) as [Hin|Hout].
    + rewrite bool_decide_eq_true_2 by done. simpl.
      destruct (Z.eqb_spec (quantity q) 0) as [H0|H0].
      * rewrite decide_False by tauto. by rewrite app_nil_r.
      * by rewrite decide_True.
    + rewrite bool_decide_eq_false_2 by done. simpl.
      rewrite decide_False by tauto. by rewrite app_nil_r.
  - destruct (negb _); by rewrite app_nil_r.
Qed.

Lemma zeroingLevels_spec itemId levels : forall changes,
  fold_left (fun changes level =>
               InventoryReset.zeroingLevelStep allowed itemId level changes)
            levels changes =
    changes ++ flat_map (zeroingChangeFor allowed itemId) levels.
Proof.
  induction levels as [|level levels IH]; intros changes; simpl.
  - by rewrite app_nil_r.
  - by rewrite IH, zeroingLevelStep_spec, <- app_assoc.
Qed.

Lemma zeroingNodes_spec fetched : forall changes,
  fold_left (fun changes node =>
               InventoryReset.zeroingNodeStep allowed node changes)
            fetched changes =
    changes ++ zeroingChangesFor allowed fetched.
Proof.
  unfold zeroingChangesFor.
  induction fetched as [|node fetched IH]; intros changes; simpl.
  - by rewrite app_nil_r.
  - rewrite IH. destruct node as [[itemId levels|]|]; simpl.
    + by rewrite zeroingLevels_spec, <- app_assoc.
    + done.
    + done.
Qed.

Lemma levelsOf_logged chunk s d s' :
  answers admin (InventoryResetInventoryLevels chunk) s d s' ->
  levelsOf (logged admin (InventoryResetInventoryLevels chunk) s) = d.
Proof.
  intros (body & Hq & Hd). unfold levelsOf, logged. cbn [request response].
  rewrite Hq. cbn [fst]. by rewrite Hd.
Qed.

Hypothesis levels_answered : forall chunk s,
  is_Some (data (fst (graphql admin (InventoryResetInventoryLevels chunk) s))).

Lemma levels_answers chunk s :
  exists d s', answers admin (InventoryResetInventoryLevels chunk) s d s'.
Proof.
  destruct (levels_answered chunk s) as [d Hd].
  destruct (graphql admin (InventoryResetInventoryLevels chunk) s) as [body s'] eqn:Hq.
  exists d, s', body. done.
Qed.

Lemma zeroing_chunks chunks : forall changes (w : World S),
  exists new s',
    forEach chunks
      (fun chunk changes =>
         data ← graphqlJson admin (InventoryResetInventoryLevels chunk);
         mret (fold_left (fun changes node =>
                            InventoryReset.zeroingNodeStep allowed node changes)
                         data changes))
      changes w =
      (Ret (changes ++ zeroingChangesFor allowed (flat_map levelsOf new)),
       {| remote := s'; calls := calls w ++ new |}) /\
    map request new = map InventoryResetInventoryLevels chunks.
Proof.
  induction chunks as [|chunk chunks IH]; intros changes w.
  - exists [], (remote w). simpl. unfold mret, M_ret.
    rewrite !app_nil_r. by destruct w.
  - destruct (levels_answers chunk (remote w)) as (d & s1 & Hans).
    cbn [forEach]. unfold mbind, M_bind.
    rewrite (graphqlJson_answers _ _ _ _ _ Hans). unfold mret at 1, M_ret at 1.
    destruct (IH (fold_left (fun changes node =>
                    InventoryReset.zeroingNodeStep allowed node changes) d changes)
                 {| remote := s1;
                    calls := calls w ++
                      [logged admin (InventoryResetInventoryLevels chunk) (remote w)] |})
      as (new & s' & Hrun & Hreq).
    unfold mbind, M_bind in Hrun. rewrite Hrun.
    exists (logged admin (InventoryResetInventoryLevels chunk) (remote w) :: new), s'.
    split.
    + cbn [remote calls flat_map]. rewrite (levelsOf_logged _ _ _ _ Hans).
      rewrite zeroingNodes_spec. unfold zeroingChangesFor.
      rewrite flat_map_app, <- !app_assoc. done.
    + simpl. by rewrite Hreq.
Qed.

End Zeroing.

(** C5. For a fetched inventory level, the loop body of
    [getInventoryZeroingChanges] appends exactly one change, carrying the
    item, the location and the negated available quantity, when the
    location is allowed and the available quantity is present and not
    zero; it appends nothing when the location is not allowed, when the
    level has no "available" entry, or when that quantity is 0.  Against a
    remote that answers the level queries, the function returns, after one
    query per chunk of 50 item ids, exactly these changes for all fetched
    levels, in the order fetched. *)
Theorem inventory_zeroing_changes {S} (admin : Admin S)
  (inventoryItemIds : list string) (allowed : gset string) (w : World S) :
  (forall itemId level changes q,
     level_location_id level ∈ allowed ->
     quantityNamed "available" (quantities level) = Some q ->
     q <> 0 ->
     InventoryReset.zeroingLevelStep allowed itemId level changes =
       changes ++ [{| inventoryItemId := itemId;
                      locationId := level_location_id level;
                      delta := - q |}]) /\
  (forall itemId level changes,
     level_location_id level ∉ allowed \/
     quantityNamed "available" (quantities level) = None \/
     quantityNamed "available" (quantities level) = Some 0 ->
     InventoryReset.zeroingLevelStep allowed itemId level changes = changes) /\
  ((forall chunk s,
      is_Some (data (fst (graphql admin (InventoryResetInventoryLevels chunk) s)))) ->
   exists new s',
     InventoryReset.getInventoryZeroingChanges admin inventoryItemIds allowed w =
       (Ret (zeroingChangesFor allowed (flat_map levelsOf new)),
        {| remote := s'; calls := calls w ++ new |}) /\
     map request new =
       map InventoryResetInventoryLevels (chunkArray inventoryItemIds 50)).
Proof.
  split; [|split].
  - intros itemId level changes q Hin Hq Hq0.
    rewrite zeroingLevelStep_spec. unfold zeroingChangeFor.
    rewrite Hq. by rewrite decide_True.
  - intros itemId level changes H.
    rewrite zeroingLevelStep_spec. unfold zeroingChangeFor.
    destruct H as [H|[H|H]].
    + destruct (quantityNamed _ _); [|by rewrite app_nil_r].
      rewrite decide_False by tauto. by rewrite app_nil_r.
    + rewrite H. by rewrite app_nil_r.
    + rewrite H. rewrite decide_False by tauto. by rewrite app_nil_r.
  - intros Hdata. unfold InventoryReset.getInventoryZeroingChanges.
    destruct (zeroing_chunks admin allowed Hdata (chunkArray inventoryItemIds 50) [] w)
      as (new & s' & Hrun & Hreq).
    exists new, s'. split; [|done]. exact Hrun.
Qed.

(** ** The inventory reset run and its log *)

Lemma forEach_cons_inv {W A B} (body : A -> B -> M W B) x xs acc w acc' w' :
  forEach (x :: xs) body acc w = (Ret acc', w') ->
  exists acc1 w1,
    body x acc w = (Ret acc1, w1) /\ forEach xs body acc1 w1 = (Ret acc', w').
Proof. cbn [forEach]. apply bind_ret_inv. Qed.

Lemma forEach_nil_inv {W A B} (body : A -> B -> M W B) acc (w : W) acc' w' :
  forEach [] body acc w = (Ret acc', w') -> acc' = acc /\ w' = w.
Proof. by intros [= <- <-]. Qed.

Section LogAlgebra.

Lemma denyRequests_app a b : denyRequests (a ++ b) = denyRequests a ++ denyRequests b.
Proof. apply flat_map_app. Qed.

Lemma denyErrors_app a b : denyErrors (a ++ b) = denyErrors a ++ denyErrors b.
Proof. apply flat_map_app. Qed.

Lemma variantPages_app a b : variantPages (a ++ b) = variantPages a ++ variantPages b.
Proof. apply flat_map_app. Qed.

Lemma adjustReasons_app a b : adjustReasons (a ++ b) = adjustReasons a ++ adjustReasons b.
Proof. apply flat_map_app. Qed.

Lemma firstAttempts_app a b : firstAttempts (a ++ b) = (firstAttempts a + firstAttempts b)%nat.
Proof. unfold firstAttempts. by rewrite adjustReasons_app, filter_app, length_app. Qed.

Lemma chunkTotal_app a b : chunkTotal (a ++ b) = (chunkTotal a + chunkTotal b)%nat.
Proof. apply sum_list_with_app. Qed.

Lemma Delta_refl r : Delta r r [].
Proof. split; simpl; unfold firstAttempts, chunkTotal; simpl; try lia. tauto. Qed.

Lemma Delta_trans r r1 r2 n1 n2 :
  Delta r r1 n1 -> Delta r1 r2 n2 -> Delta r r2 (n1 ++ n2).
Proof.
  intros [A1 A2 A3 A4 A5 A6 A7 A8] [B1 B2 B3 B4 B5 B6 B7 B8].
  split.
  - rewrite denyRequests_app, length_app. lia.
  - rewrite denyRequests_app, chunkTotal_app. lia.
  - rewrite denyErrors_app, length_app. lia.
  - rewrite firstAttempts_app. lia.
  - rewrite variantPages_app, concat_app, length_app. lia.
  - congruence.
  - lia.
  - rewrite B8, A8. split.
    + intros ((H1 & H2 & H3) & H4 & H5). repeat split; [done|lia|lia].
    + intros (H1 & H2 & H3). repeat split; [done|lia|lia|lia|lia].
Qed.

End LogAlgebra.

Section ResetRun.
Import InventoryReset.
Context {S : Type} (admin : Admin S).

Lemma quiet_nil : quiet [].
Proof. by repeat split. Qed.

Lemma quiet_app a b : quiet a -> quiet b -> quiet (a ++ b).
Proof.
  intros (A1 & A2 & A3) (B1 & B2 & B3). unfold quiet.
  rewrite denyRequests_app, denyErrors_app, variantPages_app.
  by rewrite A1, A2, A3, B1, B2, B3.
Qed.

(** *** Fetching inventory levels *)

Lemma zeroing_chunks_log (allowed : gset string) chunks :
  forall changes (w : World S) changes' w',
  forEach chunks
    (fun chunk changes =>
       data ← graphqlJson admin (InventoryResetInventoryLevels chunk);
       mret (fold_left (fun changes node => zeroingNodeStep allowed node changes)
                       data changes))
    changes w = (Ret changes', w') ->
  exists new, calls w' = calls w ++ new /\ quiet new /\ adjustReasons new = [].
Proof.
  induction chunks as [|chunk chunks IH]; intros changes w changes' w' H.
  - apply forEach_nil_inv in H as [_ ->]. exists []. rewrite app_nil_r.
    split; [done|]. split; [apply quiet_nil|done].
  - apply forEach_cons_inv in H as (c1 & w1 & Hbody & Hrest).
    apply bind_ret_inv in Hbody as (d & w0 & Hq & Hret).
    injection Hret as _ <-.
    apply (graphqlJson_ret_inv admin (InventoryResetInventoryLevels chunk))
      in Hq as [_ Hlog].
    apply IH in Hrest as (new & Hnew & Hquiet & Hadj).
    exists (logged admin (InventoryResetInventoryLevels chunk) (remote w) :: new).
    split; [by rewrite Hnew, Hlog, <- app_assoc|].
    split; [|by simpl].
    by apply (quiet_app [_]).
Qed.

(** *** Adjusting quantities *)

Lemma reasonFallbackLoop_log reasons : forall input lastResponse (w : World S) o w',
  reasonFallbackLoop admin reasons input lastResponse w = (Ret o, w') ->
  exists new k,
    calls w' = calls w ++ new /\ quiet new /\
    adjustReasons new = take k reasons /\
    (reasons <> [] -> (0 < k)%nat) /\
    (reasons <> [] \/ is_Some lastResponse -> is_Some o).
Proof.
  induction reasons as [|reason reasons IH]; intros input lastResponse w o w' H.
  - injection H as <- <-. exists [], 0%nat. rewrite app_nil_r.
    repeat split; try done. by intros [?|?].
  - cbn [reasonFallbackLoop] in H.
    apply bind_ret_inv in H as (inv & w1 & Hq & Hk).
    apply (graphqlJson_ret_inv admin (InventoryResetAdjustQuantities _))
      in Hq as [_ Hlog].
    destruct (negb (hasInvalidReason inv)).
    + injection Hk as <- <-.
      eexists [_], 1%nat. split; [exact Hlog|].
      split; [by repeat split|]. split; [done|].
      split; [lia|eauto].
    + apply IH in Hk as (new & k & Hnew & Hquiet & Hreasons & _ & Hsome).
      eexists (_ :: new), (Datatypes.S k).
      split; [by rewrite Hnew, Hlog, <- app_assoc|].
      split; [by apply (quiet_app [_])|].
      split; [by simpl; rewrite Hreasons|].
      split; [lia|]. intros _. apply Hsome. right. eauto.
Qed.

Lemma recordPolicyUserErrors_counts errors : forall r,
  let r' := recordPolicyUserErrors errors r in
  policyUpdateUserErrors r' = (policyUpdateUserErrors r + length errors)%nat /\
  ok r' = ok r && bool_decide (errors = []) /\
  inventoryAdjustUserErrors r' = inventoryAdjustUserErrors r /\
  inventoryAdjustIgnoredNotStockedErrors r' = inventoryAdjustIgnoredNotStockedErrors r /\
  policyUpdatedVariants r' = policyUpdatedVariants r /\
  policyUpdateCalls r' = policyUpdateCalls r /\
  inventoryAdjustCalls r' = inventoryAdjustCalls r /\
  variantsScanned r' = variantsScanned r /\
  locations r' = locations r.
Proof.
  induction errors as [|e errors IH]; intros r; simpl.
  - rewrite andb_true_r. repeat split; lia.
  - unfold recordPolicyUserErrors in *. simpl.
    specialize (IH (recordPolicyUserError e r)). simpl in IH.
    destruct IH as (I1 & I2 & I3 & I4 & I5 & I6 & I7 & I8 & I9).
    rewrite I1, I2, I3, I4, I5, I6, I7, I8, I9. clear I1 I2 I3 I4 I5 I6 I7 I8 I9.
    unfold recordPolicyUserError.
    destruct (pushSampleError_fields "productVariantsBulkUpdate" e
                (set_policyUpdateUserErrors (policyUpdateUserErrors (set_ok false r) + 1)%nat
                   (set_ok false r)))
      as (F1 & F2 & F3 & F4 & F5 & F6 & F7 & F8 & F9).
    cbv zeta. rewrite F1, F2, F3, F4, F5, F6, F7, F8, F9. simpl.
    rewrite andb_false_r. repeat split; lia.
Qed.

Lemma Delta_adjustChunk r errors new :
  quiet new -> firstAttempts new = 1%nat ->
  Delta r (recordAdjustUserErrors errors
             (set_inventoryAdjustCalls (inventoryAdjustCalls r + 1)%nat r)) new.
Proof.
  intros (Q1 & Q2 & Q3) Hfirst.
  pose proof (recordAdjustUserErrors_counts errors
                (set_inventoryAdjustCalls (inventoryAdjustCalls r + 1)%nat r)) as H.
  cbv zeta in H. simpl in H.
  destruct H as (_ & H2 & H3 & _ & H5 & H6 & H7 & H8 & H9 & H10).
  split; rewrite ?Q1, ?Q2, ?Q3, ?Hfirst; simpl; try lia.
  rewrite H3, H2, H5, andb_true_iff, bool_decide_eq_true. split.
  - intros [? ?]. split; [done|]. split; [lia|done].
  - intros (? & ? & _). split; [done|lia].
Qed.

Lemma firstAttempts_fallback k :
  (0 < k)%nat ->
  length (filter (fun reason => reason = "correction") (take k reasonFallbacks))
  = 1%nat.
Proof.
  intros Hk. destruct k as [|[|[|k]]]; [lia|reflexivity..|].
  rewrite take_ge by (simpl; lia). reflexivity.
Qed.

Lemma adjustChunk_log chunk r (w : World S) r' w' :
  adjustChunk admin chunk r w = (Ret r', w') ->
  exists new, calls w' = calls w ++ new /\ quiet new /\ Delta r r' new.
Proof.
  unfold adjustChunk, inventoryAdjustQuantitiesWithReasonFallback. intros H.
  apply bind_ret_inv in H as (o & w1 & Hloop & Hk).
  apply reasonFallbackLoop_log in Hloop
    as (new & k & Hnew & Hquiet & Hreasons & Hpos & Hsome).
  destruct o as [inv|]; [|discriminate].
  injection Hk as <- <-.
  exists new. split; [done|]. split; [done|].
  apply Delta_adjustChunk; [done|].
  unfold firstAttempts. rewrite Hreasons.
  apply firstAttempts_fallback, Hpos. done.
Qed.

Lemma adjustChunks_log chunks : forall r (w : World S) r' w',
  forEach chunks (adjustChunk admin) r w = (Ret r', w') ->
  exists new, calls w' = calls w ++ new /\ quiet new /\ Delta r r' new.
Proof.
  induction chunks as [|chunk chunks IH]; intros r w r' w' H.
  - apply forEach_nil_inv in H as [-> ->]. exists []. rewrite app_nil_r.
    split; [done|]. split; [apply quiet_nil|apply Delta_refl].
  - apply forEach_cons_inv in H as (r1 & w1 & Hbody & Hrest).
    apply adjustChunk_log in Hbody as (n1 & Hn1 & Hq1 & Hd1).
    apply IH in Hrest as (n2 & Hn2 & Hq2 & Hd2).
    exists (n1 ++ n2). split; [by rewrite Hn2, Hn1, <- app_assoc|].
    split; [by apply quiet_app|by eapply Delta_trans].
Qed.

(** *** Switching variants to DENY *)

Lemma policyChunk_log productId chunk r (w : World S) r' w' :
  policyChunk admin productId chunk r w = (Ret r', w') ->
  exists c,
    calls w' = calls w ++ [c] /\
    request c = InventoryResetDenyPolicy productId (denyInputs chunk) /\
    denyRequests [c] = [(productId, denyInputs chunk)] /\
    variantPages [c] = [] /\ adjustReasons [c] = [] /\
    Delta r r' [c] /\
    policyUpdatedVariants r' = (policyUpdatedVariants r + length chunk)%nat.
Proof.
  unfold policyChunk. intros H.
  apply bind_ret_inv in H as (res & w1 & Hq & Hk).
  pose proof Hq as Hq'.
  apply (graphqlJson_ret_inv admin (InventoryResetDenyPolicy _ _)) in Hq
    as [(body & Hbody & Hdata) Hlog].
  injection Hk as <- <-.
  exists (logged admin (InventoryResetDenyPolicy productId (denyInputs chunk)) (remote w)).
  split; [done|]. split; [done|]. split; [done|]. split; [done|]. split; [done|].
  set (r0 := set_policyUpdatedVariants _ _).
  pose proof (recordPolicyUserErrors_counts (default [] (bulk_userErrors res)) r0) as H.
  cbv zeta in H. destruct H as (H1 & H2 & H3 & H4 & H5 & H6 & H7 & H8 & H9).
  assert (Herr : denyErrors
            [logged admin (InventoryResetDenyPolicy productId (denyInputs chunk)) (remote w)]
          = default [] (bulk_userErrors res)).
  { unfold denyErrors, denyErrorsOf, logged. cbn [flat_map request response].
    unfold denyInputs. rewrite Hbody. cbn [fst]. rewrite Hdata. by rewrite app_nil_r. }
  split; [|by rewrite H5].
  split; rewrite ?Herr; unfold firstAttempts, chunkTotal; simpl;
    rewrite ?H1, ?H3, ?H5, ?H6, ?H7, ?H8, ?H9; subst r0; simpl;
    unfold denyInputs; rewrite ?length_map; try lia.
  rewrite H2. simpl. rewrite andb_true_iff, bool_decide_eq_true. split.
  - intros [? Hnil]. rewrite Hnil. simpl. split; [done|]. split; [done|lia].
  - intros (? & _ & Hlen). split; [done|].
    destruct (default [] (bulk_userErrors res)); [done|simpl in Hlen; lia].
Qed.

Lemma policyChunks_log productId chunks : forall r (w : World S) r' w',
  forEach chunks (policyChunk admin productId) r w = (Ret r', w') ->
  exists new,
    calls w' = calls w ++ new /\
    denyRequests new = map (fun chunk => (productId, denyInputs chunk)) chunks /\
    variantPages new = [] /\
    Delta r r' new.
Proof.
  induction chunks as [|chunk chunks IH]; intros r w r' w' H.
  - apply forEach_nil_inv in H as [-> ->]. exists []. rewrite app_nil_r.
    repeat split; try done; apply Delta_refl.
  - apply forEach_cons_inv in H as (r1 & w1 & Hbody & Hrest).
    apply policyChunk_log in Hbody as (c & Hc & _ & Hreq & Hpages & _ & Hd1 & _).
    apply IH in Hrest as (new & Hnew & Hreqs & Hpages' & Hd2).
    exists ([c] ++ new). split; [by rewrite Hnew, Hc, <- app_assoc|].
    split; [by rewrite denyRequests_app, Hreq, Hreqs|].
    split; [by rewrite variantPages_app, Hpages, Hpages'|].
    by eapply Delta_trans.
Qed.

Lemma policyUpdates_log groups : forall r (w : World S) r' w',
  policyUpdates admin groups r w = (Ret r', w') ->
  exists new,
    calls w' = calls w ++ new /\
    denyRequests new = denyChunksOfGroups groups /\
    variantPages new = [] /\
    Delta r r' new.
Proof.
  unfold policyUpdates.
  induction groups as [|entry groups IH]; intros r w r' w' H.
  - apply forEach_nil_inv in H as [-> ->]. exists []. rewrite app_nil_r.
    repeat split; try done; apply Delta_refl.
  - apply forEach_cons_inv in H as (r1 & w1 & Hbody & Hrest).
    apply policyChunks_log in Hbody as (n1 & Hn1 & Hreq1 & Hpages1 & Hd1).
    apply IH in Hrest as (n2 & Hn2 & Hreq2 & Hpages2 & Hd2).
    exists (n1 ++ n2). split; [by rewrite Hn2, Hn1, <- app_assoc|].
    split; [by rewrite denyRequests_app, Hreq1, Hreq2|].
    split; [by rewrite variantPages_app, Hpages1, Hpages2|].
    by eapply Delta_trans.
Qed.

Lemma Delta_quiet r new : quiet new -> adjustReasons new = [] -> Delta r r new.
Proof.
  intros (Q1 & Q2 & Q3) Q4. split; unfold firstAttempts;
    rewrite ?Q1, ?Q2, ?Q3, ?Q4; simpl; try lia. tauto.
Qed.

(** *** One page, then all pages *)

Lemma resetPage_log locationIds after r (w : World S) r' page w' :
  resetPage admin locationIds after r w = (Ret (r', page), w') ->
  exists new variants,
    calls w' = calls w ++ new /\
    variantPages new = [variants] /\
    denyRequests new = denyChunksOfPage variants /\
    Delta r r' new.
Proof.
  unfold resetPage. intros H.
  apply bind_ret_inv in H as (d & w1 & Hq & H).
  apply (graphqlJson_ret_inv admin (InventoryResetVariants after)) in Hq
    as [(body & Hbody & Hdata) Hlog1].
  apply bind_ret_inv in H as (changes & w2 & Hzero & H).
  apply zeroing_chunks_log in Hzero as (n2 & Hlog2 & Hquiet2 & Hadj2).
  apply bind_ret_inv in H as (r3 & w3 & Hadjust & H).
  apply adjustChunks_log in Hadjust as (n3 & Hlog3 & Hquiet3 & Hd3).
  apply bind_ret_inv in H as (r4 & w4 & Hpolicy & H).
  apply policyUpdates_log in Hpolicy as (n4 & Hlog4 & Hreq4 & Hpages4 & Hd4).
  injection H as <- <- <-.
  set (c := logged admin (InventoryResetVariants after) (remote w)) in *.
  assert (Hc : variantPages [c] = [nodes d]).
  { unfold variantPages, variantPageOf, c, logged. cbn [flat_map request response].
    rewrite Hbody. cbn [fst]. by rewrite Hdata. }
  assert (Hd1 : Delta r (set_variantsScanned (variantsScanned r + length (nodes d))%nat r) [c]).
  { split; rewrite ?Hc; unfold firstAttempts; simpl; rewrite ?app_nil_r; try lia. tauto. }
  destruct Hquiet2 as (Q21 & Q22 & Q23). destruct Hquiet3 as (Q31 & Q32 & Q33).
  exists ([c] ++ n2 ++ n3 ++ n4), (nodes d).
  split; [by rewrite Hlog4, Hlog3, Hlog2, Hlog1, <- !app_assoc|].
  split; [by rewrite !variantPages_app, Hc, Q23, Q33, Hpages4|].
  split; [by rewrite !denyRequests_app, Q21, Q31, Hreq4|].
  eapply Delta_trans; [exact Hd1|].
  eapply Delta_trans; [by apply Delta_quiet|].
  eapply Delta_trans; [exact Hd3|exact Hd4].
Qed.

Lemma runInventoryReset_loop_log fuel locationIds :
  forall after r (w : World S) r' w',
  runInventoryReset_loop admin fuel locationIds after r w = (Ret r', w') ->
  exists new,
    calls w' = calls w ++ new /\
    denyRequests new = flat_map denyChunksOfPage (variantPages new) /\
    Delta r r' new.
Proof.
  induction fuel as [|fuel IH]; intros after r w r' w' H; [discriminate|].
  cbn [runInventoryReset_loop] in H.
  apply bind_ret_inv in H as ([r1 page] & w1 & Hpage & H).
  apply resetPage_log in Hpage as (n1 & variants & Hlog1 & Hpages1 & Hreq1 & Hd1).
  destruct (negb (hasNextPage page)).
  - injection H as <- <-. exists n1. split; [done|]. split; [|done].
    rewrite Hreq1, Hpages1. simpl. by rewrite app_nil_r.
  - apply IH in H as (n2 & Hlog2 & Hreq2 & Hd2).
    exists (n1 ++ n2). split; [by rewrite Hlog2, Hlog1, <- app_assoc|].
    split; [|by eapply Delta_trans].
    rewrite denyRequests_app, variantPages_app, flat_map_app, Hreq1, Hreq2, Hpages1.
    simpl. by rewrite app_nil_r.
Qed.

End ResetRun.


(** ** What a computation does to the log, whatever its outcome *)

Section ObeysRules.
Context {S : Type}.
Implicit Types (Q : Call -> Prop).

Lemma failedCall_app e (n1 n2 : list Call) :
  failedCall e n2 -> failedCall e (n1 ++ n2).
Proof.
  intros (c & Hlast & Hdata & He). exists c. split; [|done].
  destruct n2 as [|c2 n2]; [done|]. by rewrite last_app, Hlast.
Qed.

Lemma obeys_ret {A} Q (a : A) (P : A -> Prop) :
  P a -> obeys Q (mret a : M (World S) A) P.
Proof.
  intros HP w o w' [= <- <-]. exists []. rewrite app_nil_r. by repeat split.
Qed.

Lemma obeys_bind {A B} Q (m : M (World S) A) (f : A -> M (World S) B)
  (P1 : A -> Prop) (P2 : B -> Prop) :
  obeys Q m P1 -> (forall a, P1 a -> obeys Q (f a) P2) -> obeys Q (m ≫= f) P2.
Proof.
  intros Hm Hf w o w' Hrun. unfold mbind, M_bind in Hrun.
  destruct (m w) as [[a|e|] w1] eqn:Hmw.
  - destruct (Hm _ _ _ Hmw) as (n1 & Hn1 & HQ1 & HP1).
    destruct (Hf a HP1 _ _ _ Hrun) as (n2 & Hn2 & HQ2 & HP2).
    exists (n1 ++ n2). split; [by rewrite Hn2, Hn1, <- app_assoc|].
    split; [by apply Forall_app|].
    destruct o; [done|by apply failedCall_app|done].
  - injection Hrun as <- <-. exact (Hm _ _ _ Hmw).
  - injection Hrun as <- <-. exact (Hm _ _ _ Hmw).
Qed.

Lemma obeys_weaken {A} Q (m : M (World S) A) (P P' : A -> Prop) :
  obeys Q m P -> (forall a, P a -> P' a) -> obeys Q m P'.
Proof.
  intros Hm HP w o w' Hrun. destruct (Hm _ _ _ Hrun) as (new & Hnew & HQ & Ho).
  exists new. split; [done|]. split; [done|]. destruct o; auto.
Qed.

Lemma obeys_forEach {A B} Q (body : A -> B -> M (World S) B) (I : B -> Prop) xs :
  (forall x acc, x ∈ xs -> I acc -> obeys Q (body x acc) I) ->
  forall acc, I acc -> obeys Q (forEach xs body acc) I.
Proof.
  induction xs as [|x xs IH]; intros Hbody acc Hacc.
  - by apply obeys_ret.
  - cbn [forEach]. eapply obeys_bind.
    + apply Hbody; [by left|done].
    + intros acc' Hacc'. apply IH; [|done].
      intros y acc'' Hy. apply Hbody. by right.
Qed.

Lemma obeys_graphqlJson Q (admin : Admin S) q :
  (forall body, Q {| request := q; response := body |}) ->
  obeys Q (graphqlJson admin q) (fun _ => True).
Proof.
  intros HQ w o w'. unfold graphqlJson.
  destruct (graphql admin q (remote w)) as [body s'].
  destruct (data body) as [d|] eqn:Hd; intros [= <- <-]; simpl.
  - eexists [_]. split; [done|]. split; [|done]. by constructor.
  - eexists [_]. split; [done|]. split; [by constructor|].
    eexists. split; [done|]. by split.
Qed.

End ObeysRules.

(** ** Chunks *)

Lemma chunkArray_chunks {T} (arr : list T) (n : Z) (chunk : list T) :
  0 < n -> chunk ∈ chunkArray arr n ->
  (0 < length chunk <= Z.to_nat n)%nat /\ (forall x, x ∈ chunk -> x ∈ arr).
Proof.
  intros Hn Hin. unfold chunkArray in Hin.
  destruct (decide (n <= 0)) as [?|_]; [lia|].
  apply list_elem_of_lookup in Hin as [k Hk].
  apply chunkLoop_lookup in Hk as [Hlt ->].
  replace (Pos.to_nat (Z.to_pos n)) with (Z.to_nat n) in * by lia.
  rewrite slice_length. split; [lia|].
  intros x Hx. unfold slice in Hx.
  apply elem_of_take in Hx as (i & Hx & _).
  rewrite lookup_drop in Hx. by eapply list_elem_of_lookup_2.
Qed.

(** ** The helpers of the inventory reset, whatever the remote answers *)

Section ResetHelpers.
Import InventoryReset.
Context {S : Type} (admin : Admin S).

Lemma zeroing_walk (allowed : gset string) (Q : Call -> Prop) chunks :
  (forall chunk body,
     chunk ∈ chunks ->
     Q {| request := InventoryResetInventoryLevels chunk; response := body |}) ->
  forall changes (w : World S) o w',
  forEach chunks
    (fun chunk changes =>
       data ← graphqlJson admin (InventoryResetInventoryLevels chunk);
       mret (fold_left (fun changes node => zeroingNodeStep allowed node changes)
                       data changes))
    changes w = (o, w') ->
  exists new,
    calls w' = calls w ++ new /\ Forall Q new /\
    match o with
    | Ret changes' =>
        changes' = changes ++ zeroingChangesFor allowed (flat_map levelsOf new) /\
        map request new = map InventoryResetInventoryLevels chunks
    | Throw e => failedCall e new
    | OutOfFuel => False
    end.
Proof.
  induction chunks as [|chunk chunks IH]; intros HQ changes w o w' H.
  - injection H as <- <-. exists []. rewrite !app_nil_r. by repeat split.
  - cbn [forEach] in H. unfold mbind at 1, M_bind at 1 in H.
    unfold mbind at 1, M_bind at 1, graphqlJson in H.
    destruct (graphql admin (InventoryResetInventoryLevels chunk) (remote w))
      as [body s'] eqn:Hq.
    set (c := {| request := InventoryResetInventoryLevels chunk; response := body |}) in *.
    assert (HQc : Q c) by (apply HQ; by left).
    destruct (data body) as [d|] eqn:Hd.
    + unfold mret at 1, M_ret at 1 in H.
      apply IH in H as (new & Hnew & HQnew & Ho);
        [|intros ? ? ?; apply HQ; by right].
      simpl in Hnew. exists (c :: new).
      split; [by rewrite Hnew, <- app_assoc|]. split; [by constructor|].
      destruct o as [changes'|e|]; [|by apply (failedCall_app e [c])|done].
      destruct Ho as [-> Hreq]. split; [|by simpl; rewrite Hreq].
      rewrite zeroingNodes_spec, <- app_assoc. do 2 f_equal.
      cbn [flat_map]. unfold zeroingChangesFor. rewrite flat_map_app.
      do 2 f_equal. unfold levelsOf, c. simpl. by rewrite Hd.
    + injection H as <- <-. exists [c]. split; [done|]. split; [by constructor|].
      exists c. by repeat split.
Qed.

Lemma reasonFallbackLoop_walk reasons input : forall lastResponse (w : World S) o w',
  reasonFallbackLoop admin reasons input lastResponse w = (o, w') ->
  exists new,
    calls w' = calls w ++ new /\
    (length new <= length reasons)%nat /\
    (reasons <> [] -> new <> []) /\
    map request new = map (adjustRequest input) (take (length new) reasons) /\
    (forall i c,
       new !! i = Some c -> (Datatypes.S i < length new)%nat ->
       exists inv, adjustAnswerOf c = Some inv /\ hasInvalidReason inv = true) /\
    match o with
    | Ret r =>
        match last new with
        | Some c =>
            exists inv,
              adjustAnswerOf c = Some inv /\ r = Some inv /\
              ((length new < length reasons)%nat -> hasInvalidReason inv = false)
        | None => r = lastResponse
        end
    | Throw e => failedCall e new
    | OutOfFuel => False
    end.
Proof.
  induction reasons as [|reason reasons IH]; intros lastResponse w o w' H.
  - injection H as <- <-. exists []. rewrite app_nil_r.
    split; [done|]. split; [done|]. split; [done|]. split; [done|].
    split; [|done]. intros i c Hi. by rewrite lookup_nil in Hi.
  - cbn [reasonFallbackLoop] in H.
    unfold mbind at 1, M_bind at 1, graphqlJson in H.
    fold (adjustRequest input reason) in H.
    destruct (graphql admin (adjustRequest input reason) (remote w))
      as [body s'] eqn:Hq.
    set (c := {| request := adjustRequest input reason; response := body |}) in *.
    destruct (data body) as [inv|] eqn:Hd.
    + assert (Hc : adjustAnswerOf c = Some inv) by (by unfold adjustAnswerOf, c; simpl).
      destruct (hasInvalidReason inv) eqn:Hinv; cbn [negb] in H.
      * apply IH in H as (new & Hnew & Hlen & Hne & Hreq & Hearlier & Ho).
        simpl in Hnew. exists (c :: new).
        split; [by rewrite Hnew, <- app_assoc|].
        split; [simpl; lia|]. split; [done|].
        split; [by simpl; rewrite Hreq|].
        split.
        { intros [|i] c' Hi Hlt; simpl in *.
          - injection Hi as <-. eauto.
          - apply (Hearlier i); [done|lia]. }
        destruct o as [r|e|]; [|by apply (failedCall_app e [c])|done].
        destruct new as [|c1 new].
        -- simpl in *. subst r. exists inv. split; [done|]. split; [done|].
           intros Hlt. destruct reasons; [simpl in Hlt; lia|].
           by destruct Hne.
        -- change (last (c :: c1 :: new)) with (last (c1 :: new)).
           destruct (last (c1 :: new)) as [c'|] eqn:Hlast;
             [|by apply last_None in Hlast].
           destruct Ho as (inv' & ? & ? & Hclean). exists inv'.
           split; [done|]. split; [done|]. intros Hlt. apply Hclean.
           simpl in *. lia.
      * injection H as <- <-. exists [c]. split; [done|].
        split; [simpl; lia|]. split; [done|]. split; [done|].
        split.
        { intros [|i] c' Hi Hlt; simpl in *; [lia|]. by rewrite lookup_nil in Hi. }
        simpl. eauto.
    + injection H as <- <-. exists [c]. split; [done|].
      split; [simpl; lia|]. split; [done|]. split; [done|].
      split.
      { intros [|i] c' Hi Hlt; simpl in *; [lia|]. by rewrite lookup_nil in Hi. }
      exists c. by repeat split.
Qed.

Lemma getAllLocationIds_loop_walk fuel : forall after locationIds (w : World S) o w',
  getAllLocationIds_loop admin fuel after locationIds w = (o, w') ->
  exists new,
    calls w' = calls w ++ new /\ Forall locationsCall new /\
    match o with
    | Ret ids => ids = locationIds ++ flat_map locationIdsOf new
    | Throw e => failedCall e new
    | OutOfFuel => True
    end.
Proof.
  induction fuel as [|fuel IH]; intros after locationIds w o w' H.
  - injection H as <- <-. exists []. rewrite app_nil_r. by repeat split.
  - cbn [getAllLocationIds_loop] in H.
    unfold mbind at 1, M_bind at 1, graphqlJson in H.
    destruct (graphql admin (InventoryResetLocations after) (remote w))
      as [body s'] eqn:Hq.
    set (c := {| request := InventoryResetLocations after; response := body |}) in *.
    assert (HQc : locationsCall c) by (by exists after).
    assert (Hids : forall d, data body = Some d ->
                     locationIdsOf c = map location_id (nodes d)).
    { intros d Hd. unfold locationIdsOf, c. simpl. by rewrite Hd. }
    destruct (data body) as [d|] eqn:Hd.
    + specialize (Hids d eq_refl).
      destruct (negb (hasNextPage (pageInfo d))).
      * injection H as <- <-. exists [c]. split; [done|]. split; [by constructor|].
        simpl. by rewrite Hids, app_nil_r.
      * apply IH in H as (new & Hnew & HQ & Ho). simpl in Hnew.
        exists (c :: new). split; [by rewrite Hnew, <- app_assoc|].
        split; [by constructor|].
        destruct o as [ids|e|]; [|by apply (failedCall_app e [c])|done].
        simpl. by rewrite Ho, Hids, <- app_assoc.
    + injection H as <- <-. exists [c]. split; [done|]. split; [by constructor|].
      exists c. by repeat split.
Qed.

Lemma getAllLocationIds_loop_endless :
  endlessLocations admin ->
  forall fuel after locationIds (w : World S),
  exists w' new,
    getAllLocationIds_loop admin fuel after locationIds w = (OutOfFuel, w') /\
    calls w' = calls w ++ new /\ length new = fuel.
Proof.
  intros Hendless. induction fuel as [|fuel IH]; intros after locationIds w.
  - exists w, []. by rewrite app_nil_r.
  - cbn [getAllLocationIds_loop]. unfold mbind at 1, M_bind at 1, graphqlJson.
    destruct (Hendless after (remote w)) as (d & s' & (body & Hq & Hd) & Hnext).
    rewrite Hq, Hd, Hnext. cbn [negb].
    match goal with
    | |- context [getAllLocationIds_loop admin fuel ?a ?l ?w1] =>
        destruct (IH a l w1) as (w' & new & Hrun & Hnew & Hlen)
    end.
    exists w', ({| request := InventoryResetLocations after; response := body |} :: new).
    split; [done|]. split; [by rewrite Hnew; simpl; rewrite <- app_assoc|].
    simpl. by rewrite Hlen.
Qed.

End ResetHelpers.

(** ** The adjustments of a reset, tied to the log *)

Section AdjustLog.
Import InventoryReset.
Context {S : Type} (admin : Admin S) (allowed : gset string).

Lemma finalAnswers_app a b : finalAnswers (a ++ b) = finalAnswers a ++ finalAnswers b.
Proof. apply flat_map_app. Qed.

Lemma finalAdjustErrors_app a b :
  finalAdjustErrors (a ++ b) = finalAdjustErrors a ++ finalAdjustErrors b.
Proof. unfold finalAdjustErrors. by rewrite finalAnswers_app, flat_map_app. Qed.

Lemma firstAttemptChanges_app a b :
  firstAttemptChanges (a ++ b) = firstAttemptChanges a ++ firstAttemptChanges b.
Proof. apply flat_map_app. Qed.

Lemma zeroingChangesFor_app a b :
  zeroingChangesFor allowed (a ++ b) =
    zeroingChangesFor allowed a ++ zeroingChangesFor allowed b.
Proof. apply flat_map_app. Qed.

Lemma AdjustBooks_refl r : AdjustBooks allowed r r [].
Proof. split; unfold firstAttempts; simpl; try lia; done. Qed.

Lemma AdjustBooks_trans r r1 r2 n1 n2 :
  AdjustBooks allowed r r1 n1 -> AdjustBooks allowed r1 r2 n2 ->
  AdjustBooks allowed r r2 (n1 ++ n2).
Proof.
  intros [A1 A2 A3 A5 A4] [B1 B2 B3 B5 B4]. split.
  - rewrite finalAdjustErrors_app, filter_app, length_app. lia.
  - rewrite finalAdjustErrors_app, filter_app, length_app. lia.
  - rewrite finalAnswers_app, length_app, firstAttempts_app. lia.
  - rewrite adjustReasons_app, length_app, firstAttempts_app. lia.
  - by rewrite firstAttemptChanges_app, flat_map_app, zeroingChangesFor_app, A4, B4.
Qed.

(** Calls beside the adjustments leave no trace in these projections. *)
Lemma besideAdjust_silent new :
  Forall besideAdjust new ->
  finalAnswers new = [] /\ firstAttemptChanges new = [] /\
  adjustReasons new = [] /\ flat_map levelsOf new = [].
Proof.
  induction 1 as [|c new (H1 & H2 & H3 & H4) _ (I1 & I2 & I3 & I4)]; [done|].
  unfold finalAnswers, firstAttemptChanges, adjustReasons in *. simpl.
  by rewrite H1, H2, H3, H4, I1, I2, I3, I4.
Qed.

Lemma levelQuery_silent new :
  Forall levelQuery new ->
  finalAnswers new = [] /\ firstAttemptChanges new = [] /\ adjustReasons new = [].
Proof.
  induction 1 as [|c new (H1 & H2 & H3) _ (I1 & I2 & I3)]; [done|].
  unfold finalAnswers, firstAttemptChanges, adjustReasons in *. simpl.
  by rewrite H1, H2, H3, I1, I2, I3.
Qed.

(** *** One chunk of changes *)

(** The attempts for one chunk: the answer handed back is the answer of
    the last call, it is the only final answer among them, and the chunk
    was sent first with "correction". *)
Lemma fallback_final input (w : World S) o w' :
  inventoryAdjustQuantitiesWithReasonFallback admin input w = (Ret o, w') ->
  exists new c inv,
    calls w' = calls w ++ new /\ o = Some inv /\
    last new = Some c /\ adjustAnswerOf c = Some inv /\
    finalAnswers new = [inv] /\
    firstAttemptChanges new = changes input /\
    firstAttempts new = 1%nat /\
    flat_map levelsOf new = [] /\
    (length (adjustReasons new) <= 3)%nat.
Proof.
  intros H. unfold inventoryAdjustQuantitiesWithReasonFallback in H.
  apply reasonFallbackLoop_walk in H
    as (new & Hnew & Hlen & Hne & Hreq & Hearlier & Ho).
  assert (Hshape : forall c reason,
            request c = adjustRequest input reason ->
            firstAttemptChangesOf c =
              (if String.eqb reason "correction" then changes input else []) /\
            adjustReasonOf c = [reason] /\ levelsOf c = [] /\
            finalAnswerOf c =
              match adjustAnswerOf c with
              | Some inv =>
                  if hasInvalidReason inv && negb (String.eqb reason "other")
                  then [] else [inv]
              | None => []
              end).
  { intros [q body] reason Hq. simpl in Hq. subst q.
    unfold firstAttemptChangesOf, adjustReasonOf, levelsOf, finalAnswerOf,
      adjustAnswerOf. simpl. done. }
  destruct new as [|c1 [|c2 [|c3 [|c4 new]]]]; simpl in Hlen, Hreq.
  - by destruct Hne.
  - injection Hreq as Hq1.
    destruct (Hshape c1 _ Hq1) as (F1 & R1 & L1 & A1).
    simpl in Ho. destruct Ho as (inv & Hans & -> & Hclean).
    exists [c1], c1, inv. split; [done|]. split; [done|]. split; [done|].
    split; [done|]. rewrite Hans in A1.
    rewrite (Hclean ltac:(simpl; lia)) in A1. simpl in A1.
    unfold finalAnswers, firstAttemptChanges, firstAttempts, adjustReasons.
    simpl. rewrite A1, F1, R1, L1. simpl. rewrite app_nil_r.
    repeat split; try done; lia.
  - injection Hreq as Hq1 Hq2.
    destruct (Hshape c1 _ Hq1) as (F1 & R1 & L1 & A1).
    destruct (Hshape c2 _ Hq2) as (F2 & R2 & L2 & A2).
    destruct (Hearlier 0%nat c1 eq_refl ltac:(simpl; lia)) as (inv1 & Hans1 & Hbad1).
    simpl in Ho. destruct Ho as (inv & Hans & -> & Hclean).
    exists [c1; c2], c2, inv. split; [done|]. split; [done|]. split; [done|].
    split; [done|]. rewrite Hans1, Hbad1 in A1. rewrite Hans in A2.
    rewrite (Hclean ltac:(simpl; lia)) in A2. simpl in A1, A2.
    unfold finalAnswers, firstAttemptChanges, firstAttempts, adjustReasons.
    simpl. rewrite A1, A2, F1, F2, R1, R2, L1, L2. simpl. rewrite app_nil_r.
    repeat split; try done; lia.
  - injection Hreq as Hq1 Hq2 Hq3.
    destruct (Hshape c1 _ Hq1) as (F1 & R1 & L1 & A1).
    destruct (Hshape c2 _ Hq2) as (F2 & R2 & L2 & A2).
    destruct (Hshape c3 _ Hq3) as (F3 & R3 & L3 & A3).
    destruct (Hearlier 0%nat c1 eq_refl ltac:(simpl; lia)) as (inv1 & Hans1 & Hbad1).
    destruct (Hearlier 1%nat c2 eq_refl ltac:(simpl; lia)) as (inv2 & Hans2 & Hbad2).
    simpl in Ho. destruct Ho as (inv & Hans & -> & _).
    exists [c1; c2; c3], c3, inv. split; [done|]. split; [done|]. split; [done|].
    split; [done|]. rewrite Hans1, Hbad1 in A1. rewrite Hans2, Hbad2 in A2.
    rewrite Hans in A3. simpl in A1, A2, A3. rewrite andb_false_r in A3.
    unfold finalAnswers, firstAttemptChanges, firstAttempts, adjustReasons.
    simpl. rewrite A1, A2, A3, F1, F2, F3, R1, R2, R3, L1, L2, L3. simpl.
    rewrite app_nil_r. repeat split; try done; lia.
  - simpl in Hlen. lia.
Qed.

(** The body of the dispatch loop: the user-errors of the answer handed
    back for the chunk, and no others, are recorded. *)
Lemma adjustChunk_final chunk r (w : World S) r' w' :
  adjustChunk admin chunk r w = (Ret r', w') ->
  exists new c inv,
    calls w' = calls w ++ new /\
    last new = Some c /\ adjustAnswerOf c = Some inv /\
    finalAnswers new = [inv] /\
    firstAttemptChanges new = chunk /\
    firstAttempts new = 1%nat /\
    flat_map levelsOf new = [] /\
    (length (adjustReasons new) <= 3)%nat /\
    r' = recordAdjustUserErrors (userErrorsOf inv)
           (set_inventoryAdjustCalls (inventoryAdjustCalls r + 1)%nat r).
Proof.
  unfold adjustChunk. intros H.
  apply bind_ret_inv in H as (o & w1 & Hloop & Hk).
  apply fallback_final in Hloop
    as (new & c & inv & Hnew & -> & Hlast & Hans & Hfinal & Hfirst & Hone & Hlevels
        & Hthree).
  injection Hk as <- <-. by exists new, c, inv.
Qed.

Lemma adjustChunk_books chunk r (w : World S) r' w' :
  adjustChunk admin chunk r w = (Ret r', w') ->
  exists new,
    calls w' = calls w ++ new /\
    firstAttemptChanges new = chunk /\ flat_map levelsOf new = [] /\
    inventoryAdjustIgnoredNotStockedErrors r' =
      (inventoryAdjustIgnoredNotStockedErrors r +
         length (filter notStocked (finalAdjustErrors new)))%nat /\
    inventoryAdjustUserErrors r' =
      (inventoryAdjustUserErrors r +
         length (filter (fun e => ~ notStocked e) (finalAdjustErrors new)))%nat /\
    length (finalAnswers new) = firstAttempts new /\
    (firstAttempts new <= length (adjustReasons new) <= 3 * firstAttempts new)%nat.
Proof.
  intros H. apply adjustChunk_final in H
    as (new & c & inv & Hnew & _ & _ & Hfinal & Hfirst & Hone & Hlevels & Hthree & ->).
  exists new. split; [done|]. split; [done|]. split; [done|].
  pose proof (recordAdjustUserErrors_counts (userErrorsOf inv)
                (set_inventoryAdjustCalls (inventoryAdjustCalls r + 1)%nat r)) as Hc.
  cbv zeta in Hc. destruct Hc as (H1 & H2 & _).
  assert (Hle : (firstAttempts new <= length (adjustReasons new))%nat).
  { unfold firstAttempts. apply length_filter. }
  unfold finalAdjustErrors. rewrite Hfinal. simpl. rewrite app_nil_r.
  split; [exact H1|]. split; [exact H2|]. split; [by rewrite Hone|lia].
Qed.

Lemma adjustChunks_books chunks : forall r (w : World S) r' w',
  forEach chunks (adjustChunk admin) r w = (Ret r', w') ->
  exists new,
    calls w' = calls w ++ new /\
    firstAttemptChanges new = concat chunks /\ flat_map levelsOf new = [] /\
    inventoryAdjustIgnoredNotStockedErrors r' =
      (inventoryAdjustIgnoredNotStockedErrors r +
         length (filter notStocked (finalAdjustErrors new)))%nat /\
    inventoryAdjustUserErrors r' =
      (inventoryAdjustUserErrors r +
         length (filter (fun e => ~ notStocked e) (finalAdjustErrors new)))%nat /\
    length (finalAnswers new) = firstAttempts new /\
    (firstAttempts new <= length (adjustReasons new) <= 3 * firstAttempts new)%nat.
Proof.
  induction chunks as [|chunk chunks IH]; intros r w r' w' H.
  - apply forEach_nil_inv in H as [-> ->]. exists []. rewrite app_nil_r.
    unfold firstAttempts. simpl. repeat split; lia.
  - apply forEach_cons_inv in H as (r1 & w1 & Hbody & Hrest).
    apply adjustChunk_books in Hbody as (n1 & Hn1 & F1 & L1 & I1 & E1 & A1 & T1).
    apply IH in Hrest as (n2 & Hn2 & F2 & L2 & I2 & E2 & A2 & T2).
    exists (n1 ++ n2). split; [by rewrite Hn2, Hn1, <- app_assoc|].
    split; [by rewrite firstAttemptChanges_app, F1, F2|].
    split; [by rewrite flat_map_app, L1, L2|].
    rewrite finalAdjustErrors_app, !filter_app, !length_app, finalAnswers_app,
      length_app, firstAttempts_app, adjustReasons_app, length_app.
    split; [lia|]. split; [lia|]. split; lia.
Qed.

(** *** The policy updates leave the adjustment counters alone *)

Lemma policyUpdates_beside groups r :
  obeys besideAdjust (policyUpdates admin groups r)
        (fun r' =>
           inventoryAdjustIgnoredNotStockedErrors r' =
             inventoryAdjustIgnoredNotStockedErrors r /\
           inventoryAdjustUserErrors r' = inventoryAdjustUserErrors r).
Proof.
  unfold policyUpdates.
  apply (obeys_forEach _ _
           (fun r' =>
              inventoryAdjustIgnoredNotStockedErrors r' =
                inventoryAdjustIgnoredNotStockedErrors r /\
              inventoryAdjustUserErrors r' = inventoryAdjustUserErrors r));
    [|done].
  intros entry r1 _ Hr1. apply obeys_forEach; [|done].
  intros chunk r2 _ [Hi He]. unfold policyChunk. eapply obeys_bind.
  - apply (obeys_graphqlJson _ admin (InventoryResetDenyPolicy _ _)).
    intros body. by repeat split.
  - intros res _. apply obeys_ret.
    match goal with
    | |- context [recordPolicyUserErrors ?es ?r0] =>
        pose proof (recordPolicyUserErrors_counts es r0) as Hc
    end.
    cbv zeta in Hc. destruct Hc as (_ & _ & H3 & H4 & _).
    rewrite H3, H4. simpl. by split.
Qed.

(** *** One page, then all pages *)

Lemma resetPage_books locationIds after r (w : World S) r' page w' :
  allowed = list_to_set locationIds ->
  resetPage admin locationIds after r w = (Ret (r', page), w') ->
  exists new, calls w' = calls w ++ new /\ AdjustBooks allowed r r' new.
Proof.
  intros Hallowed. unfold resetPage. rewrite <- Hallowed. intros H.
  apply bind_ret_inv in H as (d & w1 & Hq & H).
  apply (graphqlJson_ret_inv admin (InventoryResetVariants after)) in Hq
    as [_ Hlog1].
  apply bind_ret_inv in H as (changes & w2 & Hzero & H).
  unfold getInventoryZeroingChanges in Hzero.
  apply (zeroing_walk admin allowed levelQuery) in Hzero
    as (n2 & Hlog2 & HQ2 & Hchanges & _); [|by intros; repeat split].
  simpl in Hchanges.
  apply levelQuery_silent in HQ2 as (A2 & F2 & R2).
  apply bind_ret_inv in H as (r3 & w3 & Hadjust & H).
  apply adjustChunks_books in Hadjust
    as (n3 & Hlog3 & F3 & L3 & I3 & E3 & A3 & T3).
  apply bind_ret_inv in H as (r4 & w4 & Hpolicy & H).
  destruct (policyUpdates_beside _ _ _ _ _ Hpolicy) as (n4 & Hlog4 & HQ4 & I4 & E4).
  apply besideAdjust_silent in HQ4 as (A4 & F4 & R4 & L4).
  injection H as <- <- <-.
  set (c := logged admin (InventoryResetVariants after) (remote w)) in *.
  exists ([c] ++ n2 ++ n3 ++ n4).
  split; [by rewrite Hlog4, Hlog3, Hlog2, Hlog1, <- !app_assoc|].
  assert (firstAttempts n2 = 0%nat) as Z2 by (by unfold firstAttempts; rewrite R2).
  assert (firstAttempts n4 = 0%nat) as Z4 by (by unfold firstAttempts; rewrite R4).
  assert (Hconcat : concat (chunkArray changes 250) = changes).
  { unfold chunkArray. destruct (decide (250 <= 0)); [lia|].
    by rewrite chunkLoop_concat, drop_0. }
  split.
  - rewrite !finalAdjustErrors_app. unfold finalAdjustErrors at 1 2 4.
    rewrite A2, A4. simpl. rewrite app_nil_r, I4, I3. done.
  - rewrite !finalAdjustErrors_app. unfold finalAdjustErrors at 1 2 4.
    rewrite A2, A4. simpl. rewrite app_nil_r, E4, E3. done.
  - rewrite !finalAnswers_app, !firstAttempts_app, A2, A4, !length_app, A3, Z2, Z4.
    simpl. lia.
  - rewrite !adjustReasons_app, !firstAttempts_app, !length_app, R2, R4, Z2, Z4.
    simpl. lia.
  - rewrite !firstAttemptChanges_app, !flat_map_app, F2, F3, F4, L3, L4.
    simpl. rewrite !app_nil_r, Hconcat, Hchanges. done.
Qed.

Lemma runInventoryReset_loop_books fuel locationIds :
  allowed = list_to_set locationIds ->
  forall after r (w : World S) r' w',
  runInventoryReset_loop admin fuel locationIds after r w = (Ret r', w') ->
  exists new, calls w' = calls w ++ new /\ AdjustBooks allowed r r' new.
Proof.
  intros Hallowed.
  induction fuel as [|fuel IH]; intros after r w r' w' H; [discriminate|].
  cbn [runInventoryReset_loop] in H.
  apply bind_ret_inv in H as ([r1 page] & w1 & Hpage & H).
  apply (resetPage_books _ _ _ _ _ _ _ Hallowed) in Hpage as (n1 & Hn1 & Hb1).
  destruct (negb (hasNextPage page)).
  - injection H as <- <-. by exists n1.
  - apply IH in H as (n2 & Hn2 & Hb2).
    exists (n1 ++ n2). split; [by rewrite Hn2, Hn1, <- app_assoc|].
    by eapply AdjustBooks_trans.
Qed.

End AdjustLog.

(** C3. A user-error carrying ITEM_NOT_STOCKED_AT_LOCATION only increments
    the ignored-not-stocked counter: the ok flag, the failure counter and
    the samples are untouched.  Any other user-error sets ok to false,
    increments the failure counter, and is appended to [sampleErrors]
    (scope "inventoryAdjustQuantities") exactly when that list holds fewer
    than 25 entries.  Hence 30 user-errors of which 5 are benign, recorded
    from the initial result, leave ok false, 5 ignored, 25 failures and 25
    samples.  The dispatch of a chunk counts one call and records in this
    way exactly the user-errors of the answer handed back for the chunk,
    which is the answer of the last call made for it; and a returned reset
    has recorded in this way exactly the user-errors of these answers, one
    answer per counted call. *)
Theorem adjust_user_errors_classified {Shop} (admin : Admin Shop)
  (e : UserError) (r : InventoryReset.InventoryResetResult)
  (errors : list UserError) (locationIds : list string) :
  (notStocked e ->
     let r' := InventoryReset.recordAdjustUserError e r in
     InventoryReset.inventoryAdjustIgnoredNotStockedErrors r' =
       S (InventoryReset.inventoryAdjustIgnoredNotStockedErrors r) /\
     InventoryReset.ok r' = InventoryReset.ok r /\
     InventoryReset.inventoryAdjustUserErrors r' =
       InventoryReset.inventoryAdjustUserErrors r /\
     InventoryReset.sampleErrors r' = InventoryReset.sampleErrors r) /\
  (~ notStocked e ->
     let r' := InventoryReset.recordAdjustUserError e r in
     InventoryReset.ok r' = false /\
     InventoryReset.inventoryAdjustUserErrors r' =
       S (InventoryReset.inventoryAdjustUserErrors r) /\
     InventoryReset.inventoryAdjustIgnoredNotStockedErrors r' =
       InventoryReset.inventoryAdjustIgnoredNotStockedErrors r /\
     InventoryReset.sampleErrors r' =
       if decide (length (InventoryReset.sampleErrors r) < 25)%nat
       then InventoryReset.sampleErrors r ++
              [{| InventoryReset.scope := "inventoryAdjustQuantities";
                  InventoryReset.sample_message := message e;
                  InventoryReset.sample_code := or_else (code e) None |}]
       else InventoryReset.sampleErrors r) /\
  (length errors = 30%nat -> length (filter notStocked errors) = 5%nat ->
     let r' := InventoryReset.recordAdjustUserErrors errors
                 (InventoryReset.initialResult locationIds) in
     InventoryReset.ok r' = false /\
     InventoryReset.inventoryAdjustIgnoredNotStockedErrors r' = 5%nat /\
     InventoryReset.inventoryAdjustUserErrors r' = 25%nat /\
     length (InventoryReset.sampleErrors r') = 25%nat) /\
  (forall chunk (w w' : World Shop) r',
     InventoryReset.adjustChunk admin chunk r w = (Ret r', w') ->
     exists new c inv,
       calls w' = calls w ++ new /\
       last new = Some c /\ adjustAnswerOf c = Some inv /\
       let failures := length (filter (fun e => ~ notStocked e) (userErrorsOf inv)) in
       r' = InventoryReset.recordAdjustUserErrors (userErrorsOf inv)
              (InventoryReset.set_inventoryAdjustCalls
                 (InventoryReset.inventoryAdjustCalls r + 1)%nat r) /\
       InventoryReset.inventoryAdjustCalls r' =
         (InventoryReset.inventoryAdjustCalls r + 1)%nat /\
       InventoryReset.inventoryAdjustIgnoredNotStockedErrors r' =
         (InventoryReset.inventoryAdjustIgnoredNotStockedErrors r +
            length (filter notStocked (userErrorsOf inv)))%nat /\
       InventoryReset.inventoryAdjustUserErrors r' =
         (InventoryReset.inventoryAdjustUserErrors r + failures)%nat /\
       InventoryReset.ok r' = InventoryReset.ok r && bool_decide (failures = 0%nat) /\
       length (InventoryReset.sampleErrors r') =
         Nat.max (length (InventoryReset.sampleErrors r))
                 (Nat.min 25 (length (InventoryReset.sampleErrors r) + failures)) /\
       (r = InventoryReset.initialResult locationIds ->
        length (userErrorsOf inv) = 30%nat ->
        length (filter notStocked (userErrorsOf inv)) = 5%nat ->
        InventoryReset.ok r' = false /\
        InventoryReset.inventoryAdjustIgnoredNotStockedErrors r' = 5%nat /\
        InventoryReset.inventoryAdjustUserErrors r' = 25%nat /\
        length (InventoryReset.sampleErrors r') = 25%nat)) /\
  (forall s fuel r' w',
     InventoryReset.runInventoryReset admin fuel locationIds (fresh s) = (Ret r', w') ->
     InventoryReset.inventoryAdjustIgnoredNotStockedErrors r' =
       length (filter notStocked (finalAdjustErrors (calls w'))) /\
     InventoryReset.inventoryAdjustUserErrors r' =
       length (filter (fun e => ~ notStocked e) (finalAdjustErrors (calls w'))) /\
     length (finalAnswers (calls w')) = InventoryReset.inventoryAdjustCalls r').
Proof.
  split; [|split; [|split; [|split]]].
  - intros H. rewrite recordAdjustUserError_benign by done. simpl.
    repeat split; lia.
  - intros H. rewrite recordAdjustUserError_failure by done. simpl.
    unfold InventoryReset.pushSampleError. simpl.
    destruct (decide _); simpl; repeat split; lia.
  - intros Hlen Hbenign.
    pose proof (recordAdjustUserErrors_counts errors
                  (InventoryReset.initialResult locationIds)) as H.
    cbv zeta in H. destruct H as (H1 & H2 & H3 & H4 & _).
    pose proof (filter_complement_length notStocked errors) as Hsplit.
    assert (length (filter (fun e => ~ notStocked e) errors) = 25%nat) as H25 by lia.
    rewrite Hbenign in H1. rewrite H25 in H2, H3, H4.
    cbv zeta. rewrite H1, H2, H3, H4. done.
  - intros chunk w w' r' Hrun.
    apply adjustChunk_final in Hrun
      as (new & c & inv & Hnew & Hlast & Hans & _ & _ & _ & _ & _ & ->).
    exists new, c, inv. split; [done|]. split; [done|]. split; [done|].
    cbv zeta. split; [done|].
    pose proof (recordAdjustUserErrors_counts (userErrorsOf inv)
                  (InventoryReset.set_inventoryAdjustCalls
                     (InventoryReset.inventoryAdjustCalls r + 1)%nat r)) as H.
    cbv zeta in H. simpl in H.
    destruct H as (H1 & H2 & H3 & H4 & _ & _ & _ & H8 & _).
    split; [exact H8|]. split; [exact H1|]. split; [exact H2|].
    split; [exact H3|]. split; [exact H4|].
    intros -> Hlen Hbenign.
    pose proof (filter_complement_length notStocked (userErrorsOf inv)) as Hsplit.
    assert (length (filter (fun e => ~ notStocked e) (userErrorsOf inv)) = 25%nat)
      as H25 by lia.
    rewrite Hbenign in H1. rewrite H25 in H2, H3, H4.
    rewrite H1, H2, H3, H4. done.
  - intros s fuel r' w' Hrun. unfold InventoryReset.runInventoryReset in Hrun.
    pose proof Hrun as Hrun'.
    apply (runInventoryReset_loop_books admin (list_to_set locationIds) fuel
             locationIds eq_refl) in Hrun as (new & Hnew & [B1 B2 B3 _ _]).
    apply runInventoryReset_loop_log in Hrun' as (new' & Hnew' & _ & [_ _ _ D4 _ _ _ _]).
    rewrite Hnew in Hnew'. apply app_inv_head in Hnew' as <-.
    simpl in Hnew. subst new. simpl in *.
    split; [done|]. split; [done|]. by rewrite B3, D4.
Qed.

(** ** The vendor archive run and its log *)

Section ArchiveRun.
Import AppIndex.
Context {S : Type} (admin : Admin S).






Lemma pushSampleErrors_fields errors : forall r,
  let r' := fold_left (fun result e => pushSampleError e result) errors r in
  ok r' = ok r /\ scanned r' = scanned r /\ archived r' = archived r /\
  alreadyArchived r' = alreadyArchived r /\ userErrors r' = userErrors r.
Proof.
  induction errors as [|e errors IH]; intros r; simpl; [done|].
  specialize (IH (pushSampleError e r)). simpl in IH.
  destruct IH as (I1 & I2 & I3 & I4 & I5).
  rewrite I1, I2, I3, I4, I5. unfold pushSampleError. by destruct (decide _).
Qed.




End ArchiveRun.

(** ** The policy scan *)

Section ScanRun.
Import InventoryScan.
Context {S : Type} (admin : Admin S).




End ScanRun.

(** ** The policy scan: what its report says of the pages *)

Section ScanReport.
Import InventoryScan.
Context {S : Type} (admin : Admin S).

Lemma take_snoc_cap {T} (n : nat) (l : list T) (x : T) :
  take n (l ++ [x]) =
    if decide (length (take n l) < n)%nat then take n l ++ [x] else take n l.
Proof.
  rewrite length_take. destruct (decide (Nat.min n (length l) < n)%nat) as [Hlt|Hge].
  - rewrite (take_ge l) by lia. apply take_ge. rewrite length_app. simpl. lia.
  - apply take_app_le. lia.
Qed.

Lemma offending_snoc seen v :
  offending (seen ++ [v]) =
    offending seen ++ (if decide (scan_inventoryPolicy v = CONTINUE) then [v] else []).
Proof. unfold offending. rewrite filter_app. f_equal. Qed.

Lemma scanVariant_sees seen pending st v :
  scanSees seen (Datatypes.S pending) st ->
  scanSees (seen ++ [v]) pending (scanVariant st v).
Proof.
  unfold scanSees. cbv zeta. intros (Hids & Hbad & Hscanned & Hcount & Hsample & Hok).
  unfold scanVariant. rewrite offending_snoc.
  assert (Hids' : productIds st ∪ {[scan_product_id v]} =
                    list_to_set (map scan_product_id (seen ++ [v]))).
  { rewrite map_app, list_to_set_app_L, Hids. simpl. by rewrite union_empty_r_L. }
  destruct (decide (scan_inventoryPolicy v = CONTINUE)) as [Hv|Hv].
  - rewrite bool_decide_eq_true_2 by done. cbn [productIds productIdsWithContinue result
      ok variantsScanned variantsWithContinue sampleOffenders].
    split; [done|]. split.
    { rewrite map_app, list_to_set_app_L, Hbad. simpl. by rewrite union_empty_r_L. }
    split; [rewrite Hscanned, length_app; simpl; lia|].
    split; [rewrite Hcount, length_app; simpl; lia|].
    split.
    { rewrite map_app. cbn [map]. rewrite take_snoc_cap, <- Hsample. done. }
    split; [done|]. intros Hnil. by apply app_eq_nil in Hnil as [_ ?].
  - rewrite bool_decide_eq_false_2 by done. rewrite app_nil_r.
    cbn [productIds productIdsWithContinue result].
    split; [done|]. split; [done|].
    split; [rewrite Hscanned, length_app; simpl; lia|]. done.
Qed.

Lemma scanVariants_sees variants : forall seen pending st,
  scanSees seen (length variants + pending) st ->
  scanSees (seen ++ variants) pending (fold_left scanVariant variants st).
Proof.
  induction variants as [|v variants IH]; intros seen pending st Hst.
  - by rewrite app_nil_r.
  - simpl. rewrite (cons_middle v), app_assoc. apply IH.
    apply scanVariant_sees. simpl in Hst.
    by replace (Datatypes.S (length variants + pending))
      with (Datatypes.S (length variants) + pending)%nat by lia.
Qed.

Lemma scan_loop_sees fuel : forall after st (w : World S) st' w' seen,
  scanSees seen 0 st ->
  scanInventoryPolicies_loop admin fuel after st w = (Ret st', w') ->
  exists new,
    calls w' = calls w ++ new /\ scanSees (seen ++ scannedVariants new) 0 st'.
Proof.
  induction fuel as [|fuel IH]; intros after st w st' w' seen Hst H; [discriminate|].
  cbn [scanInventoryPolicies_loop] in H.
  apply bind_ret_inv in H as (d & w1 & Hq & H).
  apply (graphqlJson_ret_inv admin (InventoryPolicyScanVariants after)) in Hq
    as [(body & Hbody & Hdata) Hlog].
  set (c := logged admin (InventoryPolicyScanVariants after) (remote w)) in *.
  assert (Hc : scanPageOf c = nodes d).
  { unfold scanPageOf, c, logged. cbn [request response]. rewrite Hbody.
    cbn [fst]. by rewrite Hdata. }
  cbv zeta in H.
  match type of H with
  | context [fold_left scanVariant (nodes d) ?st1] =>
      assert (Hpage : scanSees (seen ++ nodes d) 0
                        (fold_left scanVariant (nodes d) st1))
  end.
  { apply scanVariants_sees. unfold scanSees in *. cbv zeta in *.
    destruct Hst as (? & ? & Hscanned & ? & ? & ?). simpl.
    split; [done|]. split; [done|]. split; [lia|]. done. }
  destruct (negb (hasNextPage (pageInfo d))).
  - injection H as <- <-. exists [c]. split; [done|].
    unfold scannedVariants. simpl. by rewrite app_nil_r, Hc.
  - apply (IH _ _ _ _ _ _ Hpage) in H as (new & Hnew & Hsees).
    exists (c :: new). split; [by rewrite Hnew, Hlog, <- app_assoc|].
    unfold scannedVariants in *. simpl. by rewrite Hc, app_assoc.
Qed.

End ScanReport.


(** ** Runs that return: termination of the inventory reset *)

Section Termination.
Import InventoryReset.
Context {S : Type} (admin : Admin S) (rank : S -> nat).
Hypothesis answered : alwaysAnswers admin.
Hypothesis bounded : boundsPages admin rank.

Lemma returns_ret {A} (a : A) : returns rank (mret a : M (World S) A).
Proof. intros w. exists a, w. split; [done|lia]. Qed.

Lemma returns_bind {A B} (m : M (World S) A) (f : A -> M (World S) B) :
  returns rank m -> (forall a, returns rank (f a)) -> returns rank (m ≫= f).
Proof.
  intros Hm Hf w. destruct (Hm w) as (a & w1 & Hrun & Hle).
  destruct (Hf a w1) as (b & w2 & Hrun2 & Hle2).
  exists b, w2. unfold mbind, M_bind. rewrite Hrun. split; [done|lia].
Qed.

Lemma returns_forEach {A B} (body : A -> B -> M (World S) B) xs :
  (forall x acc, returns rank (body x acc)) ->
  forall acc, returns rank (forEach xs body acc).
Proof.
  intros Hbody. induction xs as [|x xs IH]; intros acc; simpl.
  - apply returns_ret.
  - apply returns_bind; [apply Hbody|apply IH].
Qed.

Lemma always_answers q s :
  exists d s', answers admin q s d s' /\ (rank s' <= rank s)%nat.
Proof.
  destruct (answered q s) as [d Hd].
  pose proof (proj1 bounded q s) as Hle.
  destruct (graphql admin q s) as [body s'] eqn:Hq.
  exists d, s'. split; [by exists body|done].
Qed.

Lemma returns_graphqlJson q : returns rank (graphqlJson admin q).
Proof.
  intros w. destruct (always_answers q (remote w)) as (d & s' & Hans & Hle).
  rewrite (graphqlJson_answers _ _ _ _ _ Hans). eauto.
Qed.

Lemma returns_getInventoryZeroingChanges ids allowed :
  returns rank (getInventoryZeroingChanges admin ids allowed).
Proof.
  apply returns_forEach. intros chunk changes.
  apply returns_bind;
    [apply (returns_graphqlJson (InventoryResetInventoryLevels chunk))
    |intros d; apply returns_ret].
Qed.

Lemma returns_reasonFallbackLoop reasons : forall input lastResponse,
  returns rank (reasonFallbackLoop admin reasons input lastResponse).
Proof.
  induction reasons as [|reason reasons IH]; intros input lastResponse; simpl.
  - apply returns_ret.
  - apply returns_bind;
      [apply (returns_graphqlJson (InventoryResetAdjustQuantities _))|].
    intros inv.
    destruct (negb (hasInvalidReason inv)); [apply returns_ret|apply IH].
Qed.

Lemma returns_adjustChunk chunk r : returns rank (adjustChunk admin chunk r).
Proof.
  intros w. unfold adjustChunk, inventoryAdjustQuantitiesWithReasonFallback.
  destruct (returns_reasonFallbackLoop reasonFallbacks
              {| name := name_available; changes := chunk |} None w)
    as (o & w1 & Hrun & Hle).
  pose proof (reasonFallbackLoop_log admin _ _ _ _ _ _ Hrun)
    as (_ & _ & _ & _ & _ & _ & Hsome).
  destruct Hsome as [inv ->]; [by left|].
  unfold mbind, M_bind. rewrite Hrun. eexists _, w1. split; [reflexivity|done].
Qed.

Lemma returns_policyChunk productId chunk r :
  returns rank (policyChunk admin productId chunk r).
Proof.
  apply returns_bind;
    [apply (returns_graphqlJson (InventoryResetDenyPolicy _ _))
    |intros res; apply returns_ret].
Qed.

Lemma returns_policyUpdates groups r : returns rank (policyUpdates admin groups r).
Proof.
  apply returns_forEach. intros entry result.
  apply returns_forEach. intros chunk result'. apply returns_policyChunk.
Qed.

Lemma resetPage_returns locationIds after r (w : World S) :
  exists r' page w',
    resetPage admin locationIds after r w = (Ret (r', page), w') /\
    (rank (remote w') <= rank (remote w))%nat /\
    (hasNextPage page = true -> (rank (remote w') < rank (remote w))%nat).
Proof.
  destruct (always_answers (InventoryResetVariants after) (remote w))
    as (d & s1 & Hans & Hle).
  unfold resetPage, mbind at 1, M_bind at 1.
  rewrite (graphqlJson_answers _ _ _ _ _ Hans).
  match goal with
  | |- context [?k {| remote := s1; calls := ?log |}] =>
      assert (Hk : returns rank k)
  end.
  { apply returns_bind; [apply returns_getInventoryZeroingChanges|]. intros changes.
    apply returns_bind; [apply returns_forEach; apply returns_adjustChunk|].
    intros r1. apply returns_bind; [apply returns_policyUpdates|].
    intros r2. apply returns_ret. }
  destruct (Hk {| remote := s1;
                  calls := calls w ++
                    [logged admin (InventoryResetVariants after) (remote w)] |})
    as ([r' page] & w' & Hrun & Hle').
  exists r', page, w'. split; [exact Hrun|]. simpl in Hle'.
  split; [lia|]. intros Hnext.
  apply bind_ret_inv in Hrun as (? & ? & _ & Hrun).
  apply bind_ret_inv in Hrun as (? & ? & _ & Hrun).
  apply bind_ret_inv in Hrun as (? & ? & _ & Hrun).
  injection Hrun as _ <- _.
  pose proof (proj2 bounded (InventoryResetVariants after) _ _ _ Hans Hnext). lia.
Qed.

Lemma runInventoryReset_loop_returns fuel locationIds :
  forall after r (w : World S),
  (rank (remote w) < fuel)%nat ->
  exists r' w',
    runInventoryReset_loop admin fuel locationIds after r w = (Ret r', w').
Proof.
  induction fuel as [|fuel IH]; intros after r w Hfuel; [lia|].
  cbn [runInventoryReset_loop]. unfold mbind, M_bind.
  destruct (resetPage_returns locationIds after r w)
    as (r1 & page & w1 & Hrun & Hle & Hlt).
  rewrite Hrun. destruct (hasNextPage page) eqn:Hnext; simpl.
  - apply IH. specialize (Hlt eq_refl). lia.
  - eauto.
Qed.

(** The vendor archive and the policy scan return as well. *)




End Termination.

(** ** Pages whose variants all have the policy DENY *)

Lemma classifyVariant_deny variants : forall acc,
  allDeny variants ->
  fst (fold_left InventoryReset.classifyVariant variants acc) = fst acc.
Proof.
  induction variants as [|v variants IH]; intros acc H; [done|].
  inversion H as [|? ? Hv Hrest]; subst. simpl.
  rewrite IH by done. destruct acc as [groups ids].
  unfold InventoryReset.classifyVariant. rewrite Hv. simpl.
  by destruct (variant_inventoryItem v).
Qed.

Lemma denyChunksOfPage_deny variants :
  allDeny variants -> denyChunksOfPage variants = [].
Proof.
  intros H. unfold denyChunksOfPage. by rewrite classifyVariant_deny.
Qed.

Lemma denyErrors_none cs : denyRequests cs = [] -> denyErrors cs = [].
Proof.
  induction cs as [|[q body] cs IH]; [done|].
  unfold denyRequests, denyErrors in *. simpl.
  destruct q; simpl; try done; apply IH.
Qed.



(** ** Test doubles are well behaved *)

Lemma fakeAdmin_alwaysAnswers : alwaysAnswers fakeAdmin.
Proof.
  intros q s. destruct q; simpl; try (by eexists);
    match goal with |- context [match ?l with _ => _ end] => destruct l end;
    by eexists.
Qed.

Lemma fakeAdmin_boundsPages : boundsPages fakeAdmin fakeRank.
Proof.
  split.
  - intros q s. unfold fakeRank.
    destruct q; cbn [graphql fakeAdmin fakeGraphql]; try (cbn [snd]; lia).
    + destruct (fake_locations s) eqn:Hs; cbn [snd]; rewrite ?Hs; simpl; lia.
    + destruct (fake_variants s) eqn:Hs; cbn [snd]; rewrite ?Hs; simpl; lia.
    + destruct (fake_products s) eqn:Hs; cbn [snd]; rewrite ?Hs; simpl; lia.
    + destruct (fake_scan s) eqn:Hs; cbn [snd]; rewrite ?Hs; simpl; lia.
  - intros q s d s' (body & Hq & Hd). unfold fakeRank.
    destruct q; cbn [graphql fakeAdmin fakeGraphql announcesNext] in *;
      try discriminate.
    + destruct (fake_locations s) as [|page rest] eqn:Hs;
        injection Hq as <- <-; injection Hd as <-;
        [discriminate|simpl; rewrite ?Hs; simpl; lia].
    + destruct (fake_variants s) as [|page rest] eqn:Hs;
        injection Hq as <- <-; injection Hd as <-;
        [discriminate|simpl; rewrite ?Hs; simpl; lia].
    + destruct (fake_products s) as [|page rest] eqn:Hs;
        injection Hq as <- <-; injection Hd as <-;
        [discriminate|simpl; rewrite ?Hs; simpl; lia].
    + destruct (fake_scan s) as [|page rest] eqn:Hs;
        injection Hq as <- <-; injection Hd as <-;
        [discriminate|simpl; rewrite ?Hs; simpl; lia].
Qed.

(** C9, as stated, fails: with every scanned variant already DENY the run
    makes no policy call, yet a refused inventory adjustment of the same
    run leaves ok false. *)
Lemma deny_sweep_ok_counterexample :
  ~ denySweepClaim fakeAdmin allDenyShop 1 [location1].
Proof.
  intros H.
  assert (exists r w',
            InventoryReset.runInventoryReset fakeAdmin 1 [location1]
              (fresh allDenyShop) = (Ret r, w') /\
            Forall allDeny (variantPages (calls w')) /\
            InventoryReset.ok r = false) as (r & w' & Hrun & Hdeny & Hok).
  { eexists _, _. split; [vm_compute; reflexivity|].
    split; [|reflexivity]. repeat constructor. }
  destruct (H r w' Hrun Hdeny) as [_ Hok']. congruence.
Qed.

(** C9, amended.  Whenever the inventory reset returns and every variant it
    scanned already had the policy DENY, it made no
    productVariantsBulkUpdate call and recorded no policy update and no
    policy-update user-error; its ok flag is then true exactly when the
    inventory-adjust phase of the same run recorded no user-error.  The
    run does return, given enough fuel, against a remote that always
    answers and announces finitely many pages. *)
Theorem deny_sweep_idempotent {S} (admin : Admin S) (rank : S -> nat) (s : S)
  (locationIds : list string) (fuel : nat) :
  alwaysAnswers admin ->
  boundsPages admin rank ->
  (rank s < fuel)%nat ->
  exists r w',
    InventoryReset.runInventoryReset admin fuel locationIds (fresh s) = (Ret r, w') /\
    (Forall allDeny (variantPages (calls w')) ->
       denyRequests (calls w') = [] /\
       InventoryReset.policyUpdateCalls r = 0%nat /\
       InventoryReset.policyUpdatedVariants r = 0%nat /\
       InventoryReset.policyUpdateUserErrors r = 0%nat /\
       (InventoryReset.ok r = true <->
        InventoryReset.inventoryAdjustUserErrors r = 0%nat)).
Proof.
  intros Hans Hbound Hfuel.
  destruct (runInventoryReset_loop_returns admin rank Hans Hbound fuel locationIds
              None (InventoryReset.initialResult locationIds) (fresh s) Hfuel)
    as (r & w' & Hrun).
  exists r, w'. split; [exact Hrun|]. intros Hdeny.
  apply runInventoryReset_loop_log in Hrun
    as (new & Hnew & Hreq & [D1 D2 D3 D4 D5 D6 D7 D8]).
  simpl in Hnew. subst new.
  assert (Hnone : denyRequests (calls w') = []).
  { rewrite Hreq. clear -Hdeny.
    induction Hdeny as [|page pages Hpage _ IH]; [done|].
    simpl. by rewrite denyChunksOfPage_deny, IH. }
  rewrite Hnone in D1, D2. rewrite (denyErrors_none _ Hnone) in D3.
  simpl in *. repeat split; try done.
  - intros Hok. apply D8 in Hok. tauto.
  - intros Hadj. apply D8. done.
Qed.

(** ** Reported policy updates against confirmed ones *)

Lemma requested_total cs : chunkTotal (denyRequests cs) = sum_list_with requestedOf cs.
Proof.
  induction cs as [|c cs IH]; [done|].
  unfold denyRequests in *. simpl. by rewrite chunkTotal_app, IH.
Qed.

Lemma confirmed_total cs : length (confirmedUpdates cs) = sum_list_with confirmedOf cs.
Proof.
  induction cs as [|c cs IH]; [done|].
  unfold confirmedUpdates in *. simpl. by rewrite length_app, IH.
Qed.

Lemma sum_list_with_le {A} (f g : A -> nat) (l : list A) :
  Forall (fun x => f x <= g x)%nat l ->
  (sum_list_with f l <= sum_list_with g l)%nat.
Proof. induction 1; simpl; lia. Qed.

Lemma sum_list_with_lt {A} (f g : A -> nat) (l : list A) :
  Forall (fun x => f x <= g x)%nat l ->
  Exists (fun x => f x < g x)%nat l ->
  (sum_list_with f l < sum_list_with g l)%nat.
Proof.
  intros Hle Hlt. induction Hle as [|x l Hx Hl IH]; [by inversion Hlt|].
  pose proof (sum_list_with_le f g l Hl).
  inversion Hlt; subst; simpl; [lia|]. specialize (IH ltac:(done)). lia.
Qed.

(** C10. Every dispatched productVariantsBulkUpdate chunk adds its full
    length to [policyUpdatedVariants], whatever user-errors its response
    carries (these are only added to [policyUpdateUserErrors]).  So the
    count a run reports is the total size of the chunks it dispatched; and
    when the remote, never confirming more variants than it was sent,
    confirms fewer for some chunk, the reported count exceeds the number of
    variants confirmed as updated. *)
Theorem policy_updated_counts_dispatched {S} (admin : Admin S) :
  (forall productId chunk r (w : World S) r' w',
     InventoryReset.policyChunk admin productId chunk r w = (Ret r', w') ->
     exists c,
       calls w' = calls w ++ [c] /\
       request c = InventoryResetDenyPolicy productId (denyInputs chunk) /\
       InventoryReset.policyUpdatedVariants r' =
         (InventoryReset.policyUpdatedVariants r + length chunk)%nat /\
       InventoryReset.policyUpdateUserErrors r' =
         (InventoryReset.policyUpdateUserErrors r + length (denyErrorsOf c))%nat) /\
  (forall s fuel locationIds r w',
     InventoryReset.runInventoryReset admin fuel locationIds (fresh s) = (Ret r, w') ->
     InventoryReset.policyUpdatedVariants r = chunkTotal (denyRequests (calls w')) /\
     InventoryReset.policyUpdateUserErrors r = length (denyErrors (calls w')) /\
     (Forall (fun c => confirmedOf c <= requestedOf c)%nat (calls w') ->
      Exists (fun c => confirmedOf c < requestedOf c)%nat (calls w') ->
      (length (confirmedUpdates (calls w')) <
         InventoryReset.policyUpdatedVariants r)%nat)).
Proof.
  split.
  - intros productId chunk r w r' w' H.
    apply policyChunk_log in H
      as (c & Hc & Hreq & _ & _ & _ & [_ _ D3 _ _ _ _ _] & Hv).
    exists c. split; [exact Hc|]. split; [exact Hreq|]. split; [exact Hv|].
    rewrite D3. unfold denyErrors. simpl. by rewrite app_nil_r.
  - intros s fuel locationIds r w' H.
    apply runInventoryReset_loop_log in H
      as (new & Hnew & Hreq & [D1 D2 D3 D4 D5 D6 D7 D8]).
    simpl in Hnew. subst new. simpl in *.
    split; [done|]. split; [done|]. intros Hle Hlt.
    rewrite D2, requested_total, confirmed_total.
    by apply sum_list_with_lt.
Qed.

(** ** The signature verifier *)

Section Verifier.
Import Webhook.

Lemma truthy_false x : truthy x = false <-> missing x.
Proof.
  unfold missing. destruct x as [s|]; simpl.
  - destruct (String.eqb_spec s ""); simpl; split; try done.
    + intros _. right. by subst.
    + intros [?|[= ?]]; done.
  - split; [by left|done].
Qed.

Lemma truthy_true x : truthy x = true <-> exists s, x = Some s /\ s <> "".
Proof.
  destruct x as [s|]; simpl.
  - destruct (String.eqb_spec s ""); simpl; split; try done.
    + intros (s' & [= <-] & ?). done.
    + intros _. eauto.
  - split; [done|]. by intros (s & ? & _).
Qed.

Lemma or_empty_some s : s <> "" -> or_empty (Some s) = s.
Proof.
  intros Hs. unfold or_empty, or_else. simpl.
  by destruct (String.eqb_spec s "").
Qed.

Lemma or_empty_missing x : missing x -> or_empty x = "".
Proof.
  intros H. apply truthy_false in H. unfold or_empty, or_else. by rewrite H.
Qed.

(** The accumulator of [timingSafeEqual] is zero exactly when no byte pair
    differs. *)
Lemma xor_fold_zero (pairs : list (N * N)) : forall acc,
  fold_left (fun acc xy => N.lor acc (N.lxor (fst xy) (snd xy))) pairs acc = 0%N
  <-> acc = 0%N /\ Forall (fun xy => fst xy = snd xy) pairs.
Proof.
  induction pairs as [|[x y] pairs IH]; intros acc; simpl.
  - split; [by intros ->|by intros [-> _]].
  - rewrite IH, N.lor_eq_0_iff, N.lxor_eq_0_iff. split.
    + intros [[-> Hxy] Hrest]. split; [done|]. by constructor.
    + intros [-> Hall]. inversion Hall; subst. done.
Qed.

Lemma combine_equal {A} (a b : list A) :
  length a = length b ->
  Forall (fun xy => fst xy = snd xy) (combine a b) -> a = b.
Proof.
  revert b. induction a as [|x a IH]; intros [|y b] Hlen Hall; simpl in *;
    try done.
  inversion Hall; subst. simpl in *. f_equal; [done|]. apply IH; [lia|done].
Qed.

Lemma combine_same {A} (a : list A) :
  Forall (fun xy => fst xy = snd xy) (combine a a).
Proof. induction a; simpl; by constructor. Qed.

Lemma timingSafeEqual_spec a b :
  timingSafeEqual a b =
    if decide (length a = length b) then Some (bool_decide (a = b)) else None.
Proof.
  unfold timingSafeEqual.
  destruct (Nat.eqb_spec (length a) (length b)) as [Hlen|Hlen]; simpl.
  - rewrite decide_True by done. f_equal.
    destruct (N.eqb_spec (fold_left (fun acc xy => N.lor acc (N.lxor (fst xy) (snd xy)))
                            (combine a b) 0%N) 0%N) as [H0|H0].
    + apply xor_fold_zero in H0 as [_ Hall].
      by rewrite bool_decide_eq_true_2 by by apply combine_equal.
    + rewrite bool_decide_eq_false_2; [done|]. intros ->. apply H0.
      apply xor_fold_zero. split; [done|apply combine_same].
  - by rewrite decide_False.
Qed.

Lemma list_ascii_of_string_inj s t :
  list_ascii_of_string s = list_ascii_of_string t -> s = t.
Proof.
  intros H. rewrite <- (string_of_list_ascii_of_string s),
              <- (string_of_list_ascii_of_string t). by rewrite H.
Qed.

Lemma Buffer_from_inj s t : Buffer_from s = Buffer_from t -> s = t.
Proof.
  unfold Buffer_from. intros H. apply list_ascii_of_string_inj.
  revert H. generalize (list_ascii_of_string s) (list_ascii_of_string t).
  induction l as [|c l IH]; intros [|c' l'] H; simpl in *; try done.
  injection H as Hc Hl. f_equal; [|by apply IH].
  rewrite <- (ascii_N_embedding c), <- (ascii_N_embedding c'). by rewrite Hc.
Qed.

End Verifier.

(** The answers of [verifyShopifyWebhookRequest], in their order of
    precedence: 500 when the shared secret is not configured; otherwise,
    for a request whose body can still be read, 401 when the signature
    header is absent; 401 "Invalid HMAC" when the base64 HMAC-SHA256 digest
    of the body text, as [text()] decoded it, differs from the header, be
    it in length or in content (the length check guards [timingSafeEqual],
    which therefore never throws and which compares all bytes); 400 when
    the signature verifies but the topic or the shop header is missing; and
    otherwise ok with the topic, the shop and the optional webhook id and
    API version. *)
Lemma verifier_precedence (hmacSha256Base64 : string -> string -> string)
  (SHOPIFY_API_SECRET : option string) (request : Webhook.Request) :
  let verify :=
    Webhook.verifyShopifyWebhookRequest hmacSha256Base64 SHOPIFY_API_SECRET request in
  let header name := Webhook.getHeader (Webhook.headers request) name in
  (missing SHOPIFY_API_SECRET ->
     verify = Ret (Webhook.AuthFail 500 "Missing SHOPIFY_API_SECRET")) /\
  (forall secret, SHOPIFY_API_SECRET = Some secret -> secret <> "" ->
     Webhook.bodyUsed request = false ->
     (missing (header "X-Shopify-Hmac-Sha256") ->
        verify = Ret (Webhook.AuthFail 401 "Missing HMAC header")) /\
     (forall hmacHeader,
        header "X-Shopify-Hmac-Sha256" = Some hmacHeader -> hmacHeader <> "" ->
        let digest := hmacSha256Base64 secret (Webhook.body request) in
        (String.length digest <> String.length hmacHeader \/ digest <> hmacHeader ->
           verify = Ret (Webhook.AuthFail 401 "Invalid HMAC")) /\
        (digest = hmacHeader ->
           (missing (header "X-Shopify-Topic") \/
            missing (header "X-Shopify-Shop-Domain") ->
              verify = Ret (Webhook.AuthFail 400 "Missing topic/shop headers")) /\
           (forall topic shop,
              header "X-Shopify-Topic" = Some topic -> topic <> "" ->
              header "X-Shopify-Shop-Domain" = Some shop -> shop <> "" ->
              verify =
                Ret (Webhook.AuthOk topic shop
                       (or_else (header "X-Shopify-Webhook-Id") None)
                       (or_else (header "X-Shopify-Api-Version") None)))))).
Proof.
  intros verify header. subst verify. unfold Webhook.verifyShopifyWebhookRequest.
  split.
  { intros Hsecret. apply truthy_false in Hsecret. by rewrite Hsecret. }
  intros secret -> Hsecret Hused.
  assert (Hs : truthy (Some secret) = true) by (apply truthy_true; eauto).
  rewrite Hs. cbn [negb]. rewrite (or_empty_some secret) by done.
  unfold Webhook.clone_text. rewrite Hused.
  fold (header "X-Shopify-Hmac-Sha256"). split.
  { intros Hmissing. apply truthy_false in Hmissing. by rewrite Hmissing. }
  intros hmacHeader Hheader Hnonempty.
  set (digest := hmacSha256Base64 secret (Webhook.body request)).
  assert (Hh : truthy (Some hmacHeader) = true) by (apply truthy_true; eauto).
  rewrite Hheader, Hh. cbn [negb]. rewrite (or_empty_some hmacHeader) by done.
  rewrite timingSafeEqual_spec.
  split.
  - intros Hdiff.
    assert (Hne : digest <> hmacHeader).
    { destruct Hdiff as [Hlen|Hne]; [|done]. by intros ->. }
    destruct (Nat.eqb_spec (length (Webhook.Buffer_from digest))
                           (length (Webhook.Buffer_from hmacHeader))) as [Hlen|Hlen];
      cbn [negb]; [|done].
    rewrite decide_True by done.
    rewrite bool_decide_eq_false_2; [done|].
    intros H. by apply Buffer_from_inj in H.
  - intros Heq. rewrite Heq.
    rewrite Nat.eqb_refl. cbn [negb]. rewrite decide_True by done.
    rewrite bool_decide_eq_true_2 by done. cbn [negb].
    fold (header "X-Shopify-Topic") (header "X-Shopify-Shop-Domain")
         (header "X-Shopify-Webhook-Id") (header "X-Shopify-Api-Version").
    split.
    + intros [Ht|Hsh].
      * rewrite (or_empty_missing _ Ht). done.
      * rewrite (or_empty_missing _ Hsh). simpl. by rewrite orb_true_r.
    + intros topic shop -> Htopic -> Hshop.
      rewrite !or_empty_some by done.
      assert (truthy (Some topic) = true) as -> by (apply truthy_true; eauto).
      assert (truthy (Some shop) = true) as -> by (apply truthy_true; eauto).
      done.
Qed.

(** C2. The digest the verifier compares with the signature header is not
    that of the raw body: it is the digest of the string [text()] made of
    it.  The octets EF BB BF 7B 7D are decoded to the text [{}].  Sent with
    the signature of the two octets of [{}], which is not the HMAC of the
    five octets received, they are accepted; sent with the HMAC of the five
    octets received, they are answered 401 "Invalid HMAC". *)
Theorem verifier_hashes_decoded_text :
  let verify := Webhook.verifyShopifyWebhookRequest fakeHmac (Some "shpss_secret") in
  let signature request :=
    Webhook.getHeader (Webhook.headers request) "X-Shopify-Hmac-Sha256" in
  textOfAscii bomBody = Some "{}" /\
  (Webhook.wire bomReplay = bomBody /\
   Webhook.clone_text bomReplay = Ret "{}" /\
   signature bomReplay = Some (fakeHmacBytes "shpss_secret" [123; 125]%N) /\
   signature bomReplay <> Some (fakeHmacBytes "shpss_secret" (Webhook.wire bomReplay)) /\
   verify bomReplay =
     Ret (Webhook.AuthOk "customers/data_request" "example.myshopify.com"
            (Some "b54557e4") None)) /\
  (Webhook.wire bomSigned = bomBody /\
   Webhook.clone_text bomSigned = Ret "{}" /\
   signature bomSigned = Some (fakeHmacBytes "shpss_secret" (Webhook.wire bomSigned)) /\
   verify bomSigned = Ret (Webhook.AuthFail 401 "Invalid HMAC")).
Proof.
  cbv zeta. split; [reflexivity|]. split.
  - split; [reflexivity|]. split; [reflexivity|]. split; [reflexivity|].
    split; [|vm_compute; reflexivity].
    vm_compute. discriminate.
  - split; [reflexivity|]. split; [reflexivity|]. split; [reflexivity|].
    vm_compute; reflexivity.
Qed.

(** ** The ingestion handler *)

Section Ingestion.
Import Webhook.
Context (hmacSha256Base64 : string -> string -> string).
Context (JSON_parse : string -> option Json).
Context (SHOPIFY_API_SECRET : option string).

Lemma verify_fail_status request status message :
  verifyShopifyWebhookRequest hmacSha256Base64 SHOPIFY_API_SECRET request
    = Ret (AuthFail status message) ->
  status = 500 \/ status = 401 \/ status = 400.
Proof.
  unfold verifyShopifyWebhookRequest, clone_text.
  destruct (negb (truthy SHOPIFY_API_SECRET)); [intros [= <- <-]; auto|].
  destruct (bodyUsed request); [discriminate|].
  repeat match goal with
         | |- context [if ?b then _ else _] => destruct b
         | |- context [match timingSafeEqual ?a ?b with _ => _ end] =>
             destruct (timingSafeEqual a b)
         end; intros [= <- <-] || discriminate; auto.
Qed.

Lemma or_empty_nonempty x : or_empty x <> "" -> x = Some (or_empty x).
Proof.
  unfold or_empty, or_else. destruct (truthy x) eqn:Hx; [|done].
  apply truthy_true in Hx as (s & -> & _). done.
Qed.

Lemma or_else_None_nonempty x : or_else x None <> Some "".
Proof.
  unfold or_else. destruct (truthy x) eqn:Hx; [|done].
  apply truthy_true in Hx as (s & -> & Hs). congruence.
Qed.

(** What a successful verification tells about the request. *)
Lemma verify_ok_inv request topic shop webhookId apiVersion :
  verifyShopifyWebhookRequest hmacSha256Base64 SHOPIFY_API_SECRET request
    = Ret (AuthOk topic shop webhookId apiVersion) ->
  let header name := getHeader (headers request) name in
  bodyUsed request = false /\
  exists secret,
    SHOPIFY_API_SECRET = Some secret /\ secret <> "" /\
    header "X-Shopify-Hmac-Sha256" = Some (hmacSha256Base64 secret (body request)) /\
    header "X-Shopify-Topic" = Some topic /\ topic <> "" /\
    header "X-Shopify-Shop-Domain" = Some shop /\ shop <> "" /\
    webhookId = or_else (header "X-Shopify-Webhook-Id") None /\
    apiVersion = or_else (header "X-Shopify-Api-Version") None.
Proof.
  intros H header. unfold verifyShopifyWebhookRequest, clone_text in H.
  destruct (truthy SHOPIFY_API_SECRET) eqn:Hs; cbn [negb] in H; [|discriminate].
  apply truthy_true in Hs as (secret & -> & Hsecret).
  rewrite (or_empty_some secret) in H by done.
  destruct (bodyUsed request); [discriminate|]. split; [done|].
  fold (header "X-Shopify-Hmac-Sha256") in H.
  destruct (truthy (header "X-Shopify-Hmac-Sha256")) eqn:Hh; cbn [negb] in H;
    [|discriminate].
  apply truthy_true in Hh as (hmacHeader & Hheader & Hnonempty).
  rewrite Hheader, (or_empty_some hmacHeader) in H by done.
  rewrite timingSafeEqual_spec in H.
  destruct (Nat.eqb_spec (length (Buffer_from (hmacSha256Base64 secret (body request))))
                         (length (Buffer_from hmacHeader))) as [Hlen|Hlen];
    cbn [negb] in H; [|discriminate].
  rewrite decide_True in H by done.
  destruct (bool_decide_reflect
              (Buffer_from (hmacSha256Base64 secret (body request))
               = Buffer_from hmacHeader)) as [Heq|Hne];
    cbn [negb] in H; [|discriminate].
  apply Buffer_from_inj in Heq.
  fold (header "X-Shopify-Topic") (header "X-Shopify-Shop-Domain")
       (header "X-Shopify-Webhook-Id") (header "X-Shopify-Api-Version") in H.
  destruct (truthy (Some (or_empty (header "X-Shopify-Topic")))) eqn:Ht;
    cbn [negb orb] in H; [|discriminate].
  destruct (truthy (Some (or_empty (header "X-Shopify-Shop-Domain")))) eqn:Hsh;
    cbn [negb orb] in H; [|discriminate].
  injection H as <- <- <- <-.
  apply truthy_true in Ht as (t & [= <-] & Ht).
  apply truthy_true in Hsh as (sh & [= <-] & Hsh).
  exists secret. split; [done|]. split; [done|]. split; [by rewrite Heq|].
  split; [by apply or_empty_nonempty|]. split; [done|].
  split; [by apply or_empty_nonempty|]. done.
Qed.

Lemma webhookEvent_create_inv data db outcome db' :
  webhookEvent_create data db = (outcome, db') ->
  (exists row,
     outcome = Ret row /\ webhookEvent db' = webhookEvent db ++ [row] /\
     row = {| id := nextId db; topic := data_topic data; shop := data_shop data;
              webhookId := data_webhookId data; apiVersion := data_apiVersion data;
              payload := data_payload data; status := PENDING; attempts := 0;
              lastError := None; createdAt := now db; processedAt := None |} /\
     Forall (fun row => id row <> nextId db) (webhookEvent db)) \/
  (outcome = Throw UniqueConstraintViolation /\ db' = db /\
   ~ Forall (fun row => id row <> nextId db) (webhookEvent db)).
Proof.
  unfold webhookEvent_create.
  destruct (existsb _ _) eqn:Hdup; intros [= <- <-].
  - right. split; [done|]. split; [done|]. intros Hall.
    apply existsb_exists in Hdup as (row & Hin & Heq).
    apply String.eqb_eq in Heq. rewrite Forall_forall in Hall.
    apply (Hall row); [by apply list_elem_of_In|done].
  - left. eexists. split; [reflexivity|]. split; [reflexivity|]. split; [done|].
    apply Forall_forall. intros row Hin Heq.
    assert (existsb (fun row => (id row =? nextId db)%string) (webhookEvent db) = true)
      as Hex; [|congruence].
    apply existsb_exists. exists row. split; [by apply list_elem_of_In|].
    by apply String.eqb_eq.
Qed.

End Ingestion.

(** C1. The handler either appends exactly one row to the WebhookEvent
    table, with status PENDING and attempts 0, and answers 200 "OK", or
    leaves the table as it was and produces no 200 response.  When the
    verifier fails, the response carries the verifier's status and message
    (a status other than 200) and nothing is inserted.  When the verifier
    succeeds, the body is empty or parses, and the generated id is new, the
    row inserted holds the verified topic and shop, the parsed payload,
    status PENDING and attempts 0. *)
Theorem ingestion_all_or_nothing
  (hmacSha256Base64 : string -> string -> string)
  (JSON_parse : string -> option Webhook.Json)
  (SHOPIFY_API_SECRET : option string)
  (request : Webhook.Request) (db db' : Webhook.Db)
  (outcome : Outcome Webhook.Response) :
  Webhook.action hmacSha256Base64 JSON_parse SHOPIFY_API_SECRET request db
    = (outcome, db') ->
  let auth :=
    Webhook.verifyShopifyWebhookRequest hmacSha256Base64 SHOPIFY_API_SECRET request in
  ((exists row,
      Webhook.webhookEvent db' = Webhook.webhookEvent db ++ [row] /\
      outcome = Ret {| Webhook.response_body := "OK";
                       Webhook.response_status := 200 |} /\
      Webhook.status row = Webhook.PENDING /\ Webhook.attempts row = 0) \/
   (Webhook.webhookEvent db' = Webhook.webhookEvent db /\ notOk outcome)) /\
  (forall status message,
     auth = Ret (Webhook.AuthFail status message) ->
     outcome = Ret {| Webhook.response_body := message;
                      Webhook.response_status := status |} /\
     Webhook.webhookEvent db' = Webhook.webhookEvent db /\ status <> 200) /\
  (forall topic shop webhookId apiVersion json,
     auth = Ret (Webhook.AuthOk topic shop webhookId apiVersion) ->
     (Webhook.body request = "" /\ json = Webhook.JObject [] \/
      Webhook.body request <> "" /\ JSON_parse (Webhook.body request) = Some json) ->
     Forall (fun row => Webhook.id row <> Webhook.nextId db) (Webhook.webhookEvent db) ->
     outcome = Ret {| Webhook.response_body := "OK";
                      Webhook.response_status := 200 |} /\
     Webhook.webhookEvent db' =
       Webhook.webhookEvent db ++
         [{| Webhook.id := Webhook.nextId db; Webhook.topic := topic;
             Webhook.shop := shop; Webhook.webhookId := webhookId;
             Webhook.apiVersion := apiVersion; Webhook.payload := json;
             Webhook.status := Webhook.PENDING; Webhook.attempts := 0;
             Webhook.lastError := None; Webhook.createdAt := Webhook.now db;
             Webhook.processedAt := None |}]).
Proof.
  intros Hrun auth. subst auth. unfold Webhook.action in Hrun.
  unfold mbind, M_bind, Webhook.lift in Hrun.
  destruct (Webhook.verifyShopifyWebhookRequest _ _ _)
    as [[topic shop webhookId apiVersion|status message]|e|] eqn:Hverify.
  - (* verified *)
    pose proof (proj1 (verify_ok_inv _ _ _ _ _ _ _ Hverify)) as Hused.
    unfold Webhook.readShopifyWebhookJson, Webhook.clone_text in Hrun.
    rewrite Hused in Hrun.
    split; [|split; [intros ? ? [=]|]].
    + destruct (truthy (Some (Webhook.body request))).
      * destruct (JSON_parse (Webhook.body request)) as [json|].
        -- destruct (Webhook.webhookEvent_create _ db) as [o db1] eqn:Hcreate.
           apply webhookEvent_create_inv in Hcreate
             as [(row & -> & Hrows & -> & _)|(-> & -> & _)].
           ++ injection Hrun as <- <-. left. eexists. split; [exact Hrows|]. done.
           ++ injection Hrun as <- <-. right. split; [done|]. by intros text.
        -- injection Hrun as <- <-. right. split; [done|]. by intros text.
      * destruct (Webhook.webhookEvent_create _ db) as [o db1] eqn:Hcreate.
        apply webhookEvent_create_inv in Hcreate
          as [(row & -> & Hrows & -> & _)|(-> & -> & _)].
        -- injection Hrun as <- <-. left. eexists. split; [exact Hrows|]. done.
        -- injection Hrun as <- <-. right. split; [done|]. by intros text.
    + intros topic' shop' webhookId' apiVersion' json [= <- <- <- <-] Hbody Hfresh.
      assert (Hparsed :
        (if truthy (Some (Webhook.body request))
         then match JSON_parse (Webhook.body request) with
              | Some json => Ret (Webhook.body request, json)
              | None => Throw SyntaxError
              end
         else Ret (Webhook.body request, Webhook.JObject []))
        = Ret (Webhook.body request, json)).
      { destruct Hbody as [[Hempty ->]|[Hnonempty Hparse]].
        - by rewrite Hempty.
        - assert (truthy (Some (Webhook.body request)) = true) as ->
            by (apply truthy_true; eauto).
          by rewrite Hparse. }
      rewrite Hparsed in Hrun. cbn [snd] in Hrun.
      destruct (Webhook.webhookEvent_create _ db) as [o db1] eqn:Hcreate.
      apply webhookEvent_create_inv in Hcreate
        as [(row & -> & Hrows & -> & _)|(_ & _ & Hdup)]; [|done].
      injection Hrun as <- <-. done.
  - (* rejected *)
    injection Hrun as <- <-.
    pose proof (verify_fail_status _ _ _ _ _ Hverify) as Hstatus.
    split; [|split; [|intros ? ? ? ? ? [=]]].
    + right. split; [done|]. intros text [= _ ->]. lia.
    + intros status' message' [= <- <-]. split; [done|]. split; [done|lia].
  - (* thrown *)
    injection Hrun as <- <-.
    split; [|split; [intros ? ? [=]|intros ? ? ? ? ? [=]]].
    right. split; [done|]. by intros text.
  - injection Hrun as <- <-.
    split; [|split; [intros ? ? [=]|intros ? ? ? ? ? [=]]].
    right. split; [done|]. by intros text.
Qed.

(* ===================================================================== *)
(** * Beyond the specification: what the code itself shows *)
(* ===================================================================== *)

(** ** The inventory reset: calls made, samples kept, errors thrown *)

Section ResetDiscipline.
Import InventoryReset.
Context {S : Type} (admin : Admin S) (allowed : gset string).

Lemma zeroingChangeFor_safe itemId level :
  Forall (safeChange allowed) (zeroingChangeFor allowed itemId level).
Proof.
  unfold zeroingChangeFor. destruct (quantityNamed _ _) as [q|]; [|done].
  destruct (decide _) as [[Hin Hq]|_]; [|done].
  constructor; [|done]. split; [done|]. simpl. lia.
Qed.

Lemma zeroingChangesFor_safe fetched :
  Forall (safeChange allowed) (zeroingChangesFor allowed fetched).
Proof.
  unfold zeroingChangesFor. apply Forall_flat_map, Forall_forall.
  intros [[itemId levels|]|] _; [|done..].
  apply Forall_flat_map, Forall_forall. intros level _.
  apply zeroingChangeFor_safe.
Qed.

Lemma obeys_getInventoryZeroingChanges inventoryItemIds :
  obeys (resetCall allowed)
        (getInventoryZeroingChanges admin inventoryItemIds allowed)
        (Forall (safeChange allowed)).
Proof.
  apply obeys_forEach; [|done]. intros chunk changes Hchunk Hsafe.
  eapply obeys_bind.
  - apply (obeys_graphqlJson _ admin (InventoryResetInventoryLevels chunk)).
    intros body. unfold resetCall. simpl.
    by apply (chunkArray_chunks inventoryItemIds 50 chunk).
  - intros d _. apply obeys_ret. rewrite zeroingNodes_spec.
    apply Forall_app. split; [done|apply zeroingChangesFor_safe].
Qed.

Lemma obeys_reasonFallbackLoop reasons input : forall lastResponse,
  reasons ⊆ reasonFallbacks ->
  name input = name_available ->
  (0 < length (changes input) <= 250)%nat ->
  Forall (safeChange allowed) (changes input) ->
  obeys (resetCall allowed)
        (reasonFallbackLoop admin reasons input lastResponse)
        (fun o => reasons <> [] \/ is_Some lastResponse -> is_Some o).
Proof.
  intros lastResponse Hreasons Hname Hlen Hsafe. revert lastResponse.
  induction reasons as [|reason reasons IH]; intros lastResponse.
  - apply obeys_ret. by intros [?|?].
  - cbn [reasonFallbackLoop]. eapply obeys_bind.
    + apply (obeys_graphqlJson _ admin (InventoryResetAdjustQuantities _)).
      intros body. unfold resetCall. simpl.
      split; [done|]. split; [apply Hreasons; by left|done].
    + intros inv _. destruct (negb (hasInvalidReason inv)).
      * apply obeys_ret. eauto.
      * eapply obeys_weaken.
        -- apply IH. intros x Hx. apply Hreasons. by right.
        -- intros o Ho _. apply Ho. right. eauto.
Qed.

Lemma pushSampleError_capped scope e r failures :
  length (sampleErrors r) = Nat.min 25 failures ->
  length (sampleErrors (pushSampleError scope e r)) = Nat.min 25 (failures + 1).
Proof. rewrite pushSampleError_length. lia. Qed.

Lemma recordAdjustUserErrors_capped errors r :
  resetSamplesCapped r -> resetSamplesCapped (recordAdjustUserErrors errors r).
Proof.
  unfold resetSamplesCapped. intros H.
  pose proof (recordAdjustUserErrors_counts errors r) as Hc. cbv zeta in Hc.
  destruct Hc as (_ & H2 & _ & H4 & H5 & _). rewrite H4, H2, H5. lia.
Qed.

Lemma recordPolicyUserErrors_capped errors : forall r,
  resetSamplesCapped r -> resetSamplesCapped (recordPolicyUserErrors errors r).
Proof.
  unfold resetSamplesCapped, recordPolicyUserErrors.
  induction errors as [|e errors IH]; intros r H; [done|].
  simpl. apply IH. unfold recordPolicyUserError.
  destruct (pushSampleError_fields "productVariantsBulkUpdate" e
              (set_policyUpdateUserErrors (policyUpdateUserErrors (set_ok false r) + 1)%nat
                 (set_ok false r)))
    as (_ & _ & _ & _ & F5 & _ & _ & _ & F9).
  cbv zeta. rewrite F5, F9. simpl.
  rewrite (pushSampleError_capped _ _ _
             (inventoryAdjustUserErrors r + policyUpdateUserErrors r)) by done.
  f_equal. lia.
Qed.

Lemma obeys_adjustChunk n chunk r :
  (0 < length chunk <= 250)%nat -> Forall (safeChange allowed) chunk ->
  resetKept n r ->
  obeys (resetCall allowed) (adjustChunk admin chunk r) (resetKept n).
Proof.
  intros Hlen Hsafe [Hcap Hloc]. unfold adjustChunk. eapply obeys_bind.
  - unfold inventoryAdjustQuantitiesWithReasonFallback.
    by apply (obeys_reasonFallbackLoop reasonFallbacks
                {| name := name_available; changes := chunk |} None).
  - intros o Ho. destruct Ho as [inv ->]; [by left|].
    apply obeys_ret. split.
    + by apply recordAdjustUserErrors_capped.
    + pose proof (recordAdjustUserErrors_counts (default [] (adjust_userErrors inv))
                    (set_inventoryAdjustCalls (inventoryAdjustCalls r + 1)%nat r)) as Hc.
      cbv zeta in Hc. by rewrite (proj2 (proj2 (proj2 (proj2 (proj2 (proj2 (proj2
                (proj2 (proj2 Hc))))))))).
Qed.

Lemma obeys_policyChunk n productId chunk r :
  (0 < length chunk <= 250)%nat -> resetKept n r ->
  obeys (resetCall allowed) (policyChunk admin productId chunk r) (resetKept n).
Proof.
  intros Hlen [Hcap Hloc]. unfold policyChunk. eapply obeys_bind.
  - apply (obeys_graphqlJson _ admin (InventoryResetDenyPolicy _ _)).
    intros body. unfold resetCall. simpl. rewrite length_map.
    split; [done|]. apply Forall_forall. intros v Hv.
    apply list_elem_of_fmap in Hv as (id & -> & _). done.
  - intros res _. apply obeys_ret. split.
    + by apply recordPolicyUserErrors_capped.
    + match goal with
      | |- locations (recordPolicyUserErrors ?es ?r0) = _ =>
          pose proof (recordPolicyUserErrors_counts es r0) as Hc
      end.
      cbv zeta in Hc. by rewrite (proj2 (proj2 (proj2 (proj2 (proj2 (proj2 (proj2
                (proj2 Hc)))))))).
Qed.

Lemma obeys_policyUpdates n groups r :
  resetKept n r ->
  obeys (resetCall allowed) (policyUpdates admin groups r) (resetKept n).
Proof.
  intros Hr. unfold policyUpdates. apply obeys_forEach; [|done].
  intros entry r1 _ Hr1. apply obeys_forEach; [|done].
  intros chunk r2 Hchunk Hr2. apply obeys_policyChunk; [|done].
  by apply (chunkArray_chunks (snd entry) 250 chunk).
Qed.

Lemma obeys_resetPage n locationIds after r :
  allowed = list_to_set locationIds -> resetKept n r ->
  obeys (resetCall allowed) (resetPage admin locationIds after r)
        (fun rp => resetKept n (fst rp)).
Proof.
  intros Hallowed [Hcap Hloc]. unfold resetPage. rewrite <- Hallowed.
  eapply obeys_bind.
  - by apply (obeys_graphqlJson _ admin (InventoryResetVariants after)).
  - intros d _. eapply obeys_bind; [apply obeys_getInventoryZeroingChanges|].
    intros changes Hsafe. eapply obeys_bind.
    + apply (obeys_forEach _ _ (resetKept n)); [|by split].
      intros chunk r1 Hchunk Hr1.
      destruct (chunkArray_chunks changes 250 chunk ltac:(lia) Hchunk) as [Hlen Hsub].
      apply obeys_adjustChunk; [done| |done].
      apply Forall_forall. intros x Hx. rewrite Forall_forall in Hsafe. auto.
    + intros r1 Hr1. eapply obeys_bind; [by apply obeys_policyUpdates|].
      intros r2 Hr2. by apply obeys_ret.
Qed.

Lemma obeys_runInventoryReset_loop n fuel locationIds : forall after r,
  allowed = list_to_set locationIds -> resetKept n r ->
  obeys (resetCall allowed)
        (runInventoryReset_loop admin fuel locationIds after r) (resetKept n).
Proof.
  induction fuel as [|fuel IH]; intros after r Hallowed Hr.
  - intros w o w' [= <- <-]. exists []. rewrite app_nil_r. by repeat split.
  - cbn [runInventoryReset_loop]. eapply obeys_bind.
    + by apply (obeys_resetPage n).
    + intros [r1 page] Hr1. simpl in Hr1.
      destruct (negb (hasNextPage page)); [by apply obeys_ret|by apply IH].
Qed.

End ResetDiscipline.

(** ** The vendor archive and the policy scan *)

Section ArchiveDiscipline.
Import AppIndex.
Context {S : Type} (admin : Admin S) (vendor : string).

Lemma archive_samples_length errors : forall r,
  length (sampleErrors (fold_left (fun result e => pushSampleError e result) errors r))
  = Nat.max (length (sampleErrors r))
            (Nat.min 25 (length (sampleErrors r) + length errors)).
Proof.
  induction errors as [|e errors IH]; intros r; simpl; [lia|].
  rewrite IH. unfold pushSampleError.
  destruct (decide _); simpl; [rewrite length_app; simpl|]; lia.
Qed.

Lemma archiveProduct_books p r :
  archiveBooks r ->
  obeys (archiveCall vendor) (archiveProduct admin p r) archiveBooks.
Proof.
  intros (Hcap & Hlow & Hhigh & Hok). unfold archiveProduct.
  destruct (String.eqb _ _).
  - apply obeys_ret. unfold archiveBooks. simpl. repeat split; try lia; tauto.
  - eapply obeys_bind.
    + by apply (obeys_graphqlJson _ admin (ArchiveProduct _)).
    + intros res _. destruct (bool_decide _) eqn:Hb; apply obeys_ret.
      * apply bool_decide_eq_true_1 in Hb.
        match goal with
        | |- archiveBooks (fold_left _ ?es ?r0) =>
            destruct (pushSampleErrors_fields es r0) as (F1 & F2 & F3 & F4 & F5);
            pose proof (archive_samples_length es r0) as Hlen
        end.
        cbv zeta in F1, F2, F3, F4, F5. unfold archiveBooks.
        rewrite Hlen, F1, F2, F3, F4, F5. simpl.
        repeat split; try lia; try done.
      * unfold archiveBooks. simpl. repeat split; try lia; tauto.
Qed.

Lemma archive_loop_books fuel : forall after r,
  archiveBooks r ->
  obeys (archiveCall vendor)
        (archiveProductsByVendor_loop admin fuel ("vendor:" +:+ vendor) after r)
        archiveBooks.
Proof.
  induction fuel as [|fuel IH]; intros after r Hr.
  - intros w o w' [= <- <-]. exists []. rewrite app_nil_r. by repeat split.
  - cbn [archiveProductsByVendor_loop]. eapply obeys_bind.
    + by apply (obeys_graphqlJson _ admin (ProductsByVendor _ _)).
    + intros d _. eapply obeys_bind.
      * apply (obeys_forEach _ _ archiveBooks); [|done].
        intros p r1 _ Hr1. by apply archiveProduct_books.
      * intros r1 Hr1.
        destruct (negb (hasNextPage (pageInfo d))); [by apply obeys_ret|by apply IH].
Qed.

End ArchiveDiscipline.

Section ScanDiscipline.
Import InventoryScan.
#[local] Set Warnings "-clear-no-such-hyp".
Context {S : Type} (admin : Admin S).

Lemma size_add_le (X : gset string) (x : string) :
  (size (X ∪ {[ x ]}) <= size X + 1)%nat.
Proof.
  rewrite size_union_alt.
  pose proof (subseteq_size ({[ x ]} ∖ X) {[ x ]} ltac:(set_solver)) as H.
  rewrite size_singleton in H. lia.
Qed.

Lemma scanVariant_books pending st v :
  scanBooks (Datatypes.S pending) st -> scanBooks pending (scanVariant st v).
Proof.
  unfold scanBooks, scanVariant. cbv zeta.
  intros (Hsub & Hsize & Hcont & Hprod & Hzero & Hok & Hcap).
  pose proof (size_add_le (productIds st) (scan_product_id v)).
  pose proof (size_add_le (productIdsWithContinue st) (scan_product_id v)).
  destruct (bool_decide _); simpl.
  - split; [set_solver|]. split; [lia|]. split; [lia|]. split; [lia|].
    split; [split; [lia|set_solver]|]. split; [split; [done|lia]|].
    destruct (decide _); [rewrite length_app; simpl|]; lia.
  - split; [set_solver|]. split; [lia|]. split; [lia|]. split; [lia|]. done.
Qed.

Lemma scanVariants_books variants : forall st,
  scanBooks (length variants) st -> scanBooks 0 (fold_left scanVariant variants st).
Proof.
  induction variants as [|v variants IH]; intros st H; [done|].
  simpl. by apply IH, scanVariant_books.
Qed.

Lemma scan_loop_books fuel : forall after st,
  scanBooks 0 st ->
  obeys scanCall (scanInventoryPolicies_loop admin fuel after st) (scanBooks 0).
Proof.
  induction fuel as [|fuel IH]; intros after st Hst.
  - intros w o w' [= <- <-]. exists []. rewrite app_nil_r. by repeat split.
  - cbn [scanInventoryPolicies_loop]. eapply obeys_bind.
    + apply (obeys_graphqlJson _ admin (InventoryPolicyScanVariants after)).
      intros body. by exists after.
    + intros d _.
      match goal with
      | |- context [fold_left scanVariant ?vs ?st0] =>
          assert (Hpage : scanBooks 0 (fold_left scanVariant vs st0))
      end.
      { apply scanVariants_books. unfold scanBooks in *. simpl.
        destruct Hst as (H1 & H2 & H3 & H4 & H5 & H6 & H7).
        repeat split; try lia; try done; tauto. }
      destruct (negb (hasNextPage (pageInfo d))); [by apply obeys_ret|by apply IH].
Qed.

End ScanDiscipline.

(** ** Properties of the three runs *)

(** X6. Whatever its outcome, an inventory reset only issues its four own
    operations, within the batch limits of the API: at most 50 item ids per
    level query, at most 250 changes per adjustment and 250 variants per
    policy update, never an empty batch; every adjustment names
    "available", one of the three fallback reasons, and only non-zero
    deltas at locations passed in; every policy update sets DENY. *)
Theorem reset_calls_within_limits {S} (admin : Admin S) (fuel : nat)
  (locationIds : list string) (w w' : World S)
  (o : Outcome InventoryReset.InventoryResetResult) :
  InventoryReset.runInventoryReset admin fuel locationIds w = (o, w') ->
  exists new,
    calls w' = calls w ++ new /\
    Forall (resetCall (list_to_set locationIds)) new.
Proof.
  intros Hrun.
  destruct (obeys_runInventoryReset_loop admin (list_to_set locationIds)
              (length locationIds) fuel locationIds None
              (InventoryReset.initialResult locationIds) eq_refl
              ltac:(by split) _ _ _ Hrun) as (new & Hnew & HQ & _).
  eauto.
Qed.

(** X7. A returned inventory reset reports the number of locations it was
    given, and its sample list stops at 25 entries: its length is the
    smaller of 25 and the number of user-errors counted as failures. *)
Theorem reset_samples_capped {S} (admin : Admin S) (fuel : nat)
  (locationIds : list string) (w w' : World S)
  (r : InventoryReset.InventoryResetResult) :
  InventoryReset.runInventoryReset admin fuel locationIds w = (Ret r, w') ->
  length (InventoryReset.sampleErrors r) =
    Nat.min 25 (InventoryReset.inventoryAdjustUserErrors r +
                InventoryReset.policyUpdateUserErrors r) /\
  InventoryReset.locations r = length locationIds.
Proof.
  intros Hrun.
  destruct (obeys_runInventoryReset_loop admin (list_to_set locationIds)
              (length locationIds) fuel locationIds None
              (InventoryReset.initialResult locationIds) eq_refl
              ltac:(by split) _ _ _ Hrun) as (new & _ & _ & Hkept).
  exact Hkept.
Qed.

(** X10. With response bodies of the shapes the code declares, the only way
    a run throws is a remote call whose body has no [data]: the failing
    call is the last one made, and the error carries the [errors] of its
    body.  In particular the non-null assertion on [lastResponse] never
    fails. *)
Theorem runs_throw_only_remote_failures {S} (admin : Admin S) (fuel : nat)
  (s : S) (e : Error) (w' : World S) :
  (exists locationIds,
     InventoryReset.runInventoryReset admin fuel locationIds (fresh s) = (Throw e, w')) \/
  (exists vendor,
     AppIndex.archiveProductsByVendor admin fuel vendor (fresh s) = (Throw e, w')) \/
  InventoryScan.scanInventoryPolicies admin fuel (fresh s) = (Throw e, w') ->
  exists c,
    last (calls w') = Some c /\ data (response c) = None /\
    e = GraphQLRequestFailed (errors (response c)).
Proof.
  intros [[locationIds Hrun]|[[vendor Hrun]|Hrun]].
  - destruct (obeys_runInventoryReset_loop admin (list_to_set locationIds)
                (length locationIds) fuel locationIds None
                (InventoryReset.initialResult locationIds) eq_refl
                ltac:(by split) _ _ _ Hrun) as (new & Hnew & _ & Hfail).
    simpl in Hnew. by rewrite Hnew.
  - destruct (archive_loop_books admin vendor fuel None AppIndex.initialResult
                ltac:(by unfold archiveBooks; simpl) _ _ _ Hrun)
      as (new & Hnew & _ & Hfail).
    simpl in Hnew. by rewrite Hnew.
  - unfold InventoryScan.scanInventoryPolicies, mbind, M_bind in Hrun.
    destruct (InventoryScan.scanInventoryPolicies_loop admin fuel None
                InventoryScan.initialState (fresh s)) as [[st|e'|] w1] eqn:Hloop;
      try discriminate. injection Hrun as <- <-.
    destruct (scan_loop_books admin fuel None InventoryScan.initialState
                ltac:(by unfold scanBooks; simpl; repeat split; try lia; try done)
                _ _ _ Hloop) as (new & Hnew & _ & Hfail).
    simpl in Hnew. by rewrite Hnew.
Qed.

(** X11. Whatever its outcome, a vendor archive only queries the products
    of its vendor and archives products.  When it returns, its books
    balance: every scanned product is counted as archived, as already
    archived, or left a user-error, so an ok run has archived all the
    others; and the length of the sample list is the smaller of 25 and the
    number of user-errors. *)
Theorem archive_books_balance {S} (admin : Admin S) (fuel : nat)
  (vendor : string) (w w' : World S) (o : Outcome AppIndex.ArchivePeruzzoResult) :
  AppIndex.archiveProductsByVendor admin fuel vendor w = (o, w') ->
  exists new,
    calls w' = calls w ++ new /\ Forall (archiveCall vendor) new /\
    forall r, o = Ret r ->
      length (AppIndex.sampleErrors r) = Nat.min 25 (AppIndex.userErrors r) /\
      (AppIndex.archived r + AppIndex.alreadyArchived r <= AppIndex.scanned r)%nat /\
      (AppIndex.scanned r <=
         AppIndex.archived r + AppIndex.alreadyArchived r + AppIndex.userErrors r)%nat /\
      (AppIndex.ok r = true ->
         AppIndex.scanned r = (AppIndex.archived r + AppIndex.alreadyArchived r)%nat).
Proof.
  intros Hrun.
  destruct (archive_loop_books admin vendor fuel None AppIndex.initialResult
              ltac:(by unfold archiveBooks; simpl) _ _ _ Hrun)
    as (new & Hnew & HQ & Hbooks).
  exists new. split; [done|]. split; [done|]. intros r ->.
  destruct Hbooks as (Hcap & Hlow & Hhigh & Hok).
  split; [done|]. split; [done|]. split; [done|].
  intros Htrue. apply Hok in Htrue. lia.
Qed.

(** X13. A policy scan is read-only: whatever its outcome it only issues
    variant queries.  In a returned result the counts are consistent:
    there are at most as many offending products as products scanned and
    as offending variants, and at most as many products and offending
    variants as variants scanned; ok means no product offends; the length
    of the offender list is the smaller of 25 and the number of offending
    variants. *)
Theorem scan_reads_only_and_counts {S} (admin : Admin S) (fuel : nat)
  (w w' : World S) (o : Outcome InventoryScan.InventoryPolicyScanResult) :
  InventoryScan.scanInventoryPolicies admin fuel w = (o, w') ->
  exists new,
    calls w' = calls w ++ new /\ Forall scanCall new /\
    forall r, o = Ret r ->
      (InventoryScan.productsWithContinue r <= InventoryScan.productsScanned r)%nat /\
      (InventoryScan.productsWithContinue r <= InventoryScan.variantsWithContinue r)%nat /\
      (InventoryScan.variantsWithContinue r <= InventoryScan.variantsScanned r)%nat /\
      (InventoryScan.productsScanned r <= InventoryScan.variantsScanned r)%nat /\
      (InventoryScan.ok r = true <-> InventoryScan.productsWithContinue r = 0%nat) /\
      length (InventoryScan.sampleOffenders r) =
        Nat.min 25 (InventoryScan.variantsWithContinue r).
Proof.
  intros Hrun.
  unfold InventoryScan.scanInventoryPolicies, mbind, M_bind in Hrun.
  destruct (InventoryScan.scanInventoryPolicies_loop admin fuel None
              InventoryScan.initialState w) as [[st|e'|] w1] eqn:Hloop;
    injection Hrun as <- <-;
    destruct (scan_loop_books admin fuel None InventoryScan.initialState
                ltac:(by unfold scanBooks; simpl; repeat split; try lia; try done)
                _ _ _ Hloop) as (new & Hnew & HQ & Hbooks);
    exists new; (split; [done|]); (split; [done|]); intros r [=]. subst r.
  destruct Hbooks as (Hsub & Hsize & Hcont & Hprod & Hzero & Hok & Hcap).
  simpl. split; [by apply subseteq_size|]. split; [done|]. split; [lia|].
  split; [lia|]. split; [|done].
  rewrite Hok, Hzero. split.
  - intros ->. apply size_empty.
  - intros Hsize0. apply leibniz_equiv. by apply size_empty_inv.
Qed.

(** ** Sets and maps of a page: [new Set], [Map] and the variant loop *)

Section PageClassification.

Lemma uniqueInOrder_snoc l x :
  uniqueInOrder (l ++ [x]) =
    if bool_decide (x ∈ uniqueInOrder l) then uniqueInOrder l
    else uniqueInOrder l ++ [x].
Proof. unfold uniqueInOrder. by rewrite fold_left_app. Qed.


Lemma uniqueInOrder_NoDup l : NoDup (uniqueInOrder l).
Proof.
  induction l as [|y l IH] using rev_ind; [constructor|].
  rewrite uniqueInOrder_snoc. destruct (bool_decide_reflect (y ∈ uniqueInOrder l)).
  - done.
  - apply NoDup_app. split; [done|]. split; [|apply NoDup_singleton].
    intros x Hx Hy. apply list_elem_of_singleton in Hy. by subst.
Qed.

Lemma map_get_set_eq {V} (m : JsMap V) k v : map_get (map_set m k v) k = Some v.
Proof.
  induction m as [|[k' v'] m IH]; simpl.
  - by rewrite String.eqb_refl.
  - destruct (String.eqb_spec k' k) as [->|Hne]; simpl.
    + by rewrite String.eqb_refl.
    + by destruct (String.eqb_spec k' k).
Qed.

Lemma map_get_set_ne {V} (m : JsMap V) k k' v :
  k <> k' -> map_get (map_set m k v) k' = map_get m k'.
Proof.
  intros Hne. induction m as [|[k0 v0] m IH]; simpl.
  - by destruct (String.eqb_spec k k').
  - destruct (String.eqb_spec k0 k) as [->|Hne0]; simpl.
    + by destruct (String.eqb_spec k k').
    + by rewrite IH.
Qed.

Lemma map_get_None {V} (m : JsMap V) k : map_get m k = None <-> k ∉ map fst m.
Proof.
  induction m as [|[k0 v0] m IH]; simpl.
  - split; [intros _; apply not_elem_of_nil|done].
  - rewrite not_elem_of_cons, <- IH.
    destruct (String.eqb_spec k0 k) as [->|Hne].
    + split; [done|]. by intros [? _].
    + split; [|by intros [_ ?]]. intros ?. split; [congruence|done].
Qed.

Lemma map_set_keys {V} (m : JsMap V) k v :
  map fst (map_set m k v) =
    if bool_decide (k ∈ map fst m) then map fst m else map fst m ++ [k].
Proof.
  induction m as [|[k0 v0] m IH]; simpl; [done|].
  destruct (String.eqb_spec k0 k) as [->|Hne]; simpl.
  - by rewrite bool_decide_eq_true_2 by by left.
  - rewrite IH. destruct (bool_decide_reflect (k ∈ map fst m)).
    + by rewrite bool_decide_eq_true_2 by by right.
    + rewrite bool_decide_eq_false_2; [done|].
      rewrite not_elem_of_cons. split; [congruence|done].
Qed.

Lemma map_set_total (m : JsMap (list string)) k x :
  sum_list_with (fun entry => length (snd entry))
                (map_set m k (default [] (map_get m k) ++ [x]))
  = Datatypes.S (sum_list_with (fun entry => length (snd entry)) m).
Proof.
  induction m as [|[k0 v0] m IH]; simpl; [done|].
  destruct (String.eqb_spec k0 k) as [->|Hne]; simpl.
  - rewrite length_app. simpl. lia.
  - rewrite IH. lia.
Qed.

Lemma toDeny_snoc l v :
  toDeny (l ++ [v]) =
    toDeny l ++ (if decide (variant_inventoryPolicy v <> DENY) then [v] else []).
Proof.
  unfold toDeny. rewrite filter_app. f_equal.
Qed.

(** The state of the variant loop after any number of variants. *)
Lemma classifyVariant_state variants :
  let state := fold_left InventoryReset.classifyVariant variants ([], []) in
  map fst (fst state) = uniqueInOrder (map variant_product_id (toDeny variants)) /\
  (forall productId,
     map_get (fst state) productId =
       match map variant_id (toDenyOf productId variants) with
       | [] => None
       | ids => Some ids
       end) /\
  sum_list_with (fun entry => length (snd entry)) (fst state)
    = length (toDeny variants) /\
  snd state = flat_map trackedItemOf variants.
Proof.
  induction variants as [|v variants IH] using rev_ind; [done|].
  cbv zeta in *. rewrite fold_left_app. simpl.
  destruct (fold_left InventoryReset.classifyVariant variants ([], []))
    as [groups ids].
  simpl in IH. destruct IH as (Hkeys & Hget & Htotal & Hids).
  unfold InventoryReset.classifyVariant. cbn [fst snd].
  rewrite toDeny_snoc, flat_map_app. cbn [flat_map]. rewrite app_nil_r.
  split; [|split; [|split]].
  - destruct (decide (variant_inventoryPolicy v <> DENY)) as [Hv|Hv].
    + rewrite bool_decide_eq_false_2 by done. cbn [negb].
      rewrite map_set_keys, map_app. cbn [map].
      rewrite uniqueInOrder_snoc, Hkeys. done.
    + rewrite bool_decide_eq_true_2 by (by destruct (decide (variant_inventoryPolicy v = DENY))).
      cbn [negb]. by rewrite app_nil_r.
  - intros productId. unfold toDenyOf. rewrite toDeny_snoc, filter_app, map_app.
    specialize (Hget productId). unfold toDenyOf in Hget.
    destruct (decide (variant_inventoryPolicy v <> DENY)) as [Hv|Hv].
    + rewrite bool_decide_eq_false_2 by done. cbn [negb].
      rewrite filter_cons, filter_nil.
      destruct (decide (variant_product_id v = productId)) as [<-|Hp].
      * rewrite map_get_set_eq, Hget. simpl.
        by destruct (map variant_id _).
      * rewrite map_get_set_ne by done. simpl. by rewrite app_nil_r.
    + rewrite bool_decide_eq_true_2 by (by destruct (decide (variant_inventoryPolicy v = DENY))).
      cbn [negb]. rewrite filter_nil. simpl. by rewrite app_nil_r.
  - destruct (decide (variant_inventoryPolicy v <> DENY)) as [Hv|Hv].
    + rewrite bool_decide_eq_false_2 by done. cbn [negb].
      rewrite map_set_total, length_app, Htotal. simpl. lia.
    + rewrite bool_decide_eq_true_2 by (by destruct (decide (variant_inventoryPolicy v = DENY))).
      cbn [negb]. rewrite app_nil_r. done.
  - rewrite Hids. f_equal. unfold trackedItemOf.
    destruct (variant_inventoryItem v) as [item|]; [|by rewrite app_nil_r].
    simpl. destruct (String.eqb_spec (inventoryItem_id item) "") as [He|He];
      destruct (tracked item); simpl.
    + rewrite decide_False by tauto. by rewrite app_nil_r.
    + rewrite decide_False by tauto. by rewrite app_nil_r.
    + by rewrite decide_True.
    + rewrite decide_False by (intros [_ ?]; done). by rewrite app_nil_r.
Qed.

End PageClassification.

(** X1. Per page, the variants to switch to DENY are grouped by product as a
    [Map] would: the products appear once each, in the order in which
    their first variant without DENY was met; a product's entry lists
    exactly its variants without DENY, in the order met; a product whose
    variants all have DENY has no entry. *)
Theorem variants_grouped_by_product (variants : list ResetVariantNode) :
  let groups := fst (fold_left InventoryReset.classifyVariant variants ([], [])) in
  NoDup (map fst groups) /\
  map fst groups = uniqueInOrder (map variant_product_id (toDeny variants)) /\
  (forall productId,
     map_get groups productId =
       match map variant_id (toDenyOf productId variants) with
       | [] => None
       | ids => Some ids
       end) /\
  (forall productId ids, (productId, ids) ∈ groups -> ids <> []).
Proof.
  intros groups. destruct (classifyVariant_state variants) as (Hkeys & Hget & _ & _).
  fold groups in Hkeys, Hget.
  assert (Hnodup : NoDup (map fst groups)).
  { rewrite Hkeys. apply uniqueInOrder_NoDup. }
  split; [done|]. split; [done|]. split; [done|].
  intros productId ids Hin ->.
  assert (Hlookup : map_get groups productId = Some []).
  { clear -Hin Hnodup. induction groups as [|[k v] groups IH];
      [by apply elem_of_nil in Hin|].
    simpl in *. apply NoDup_cons in Hnodup as [Hk Hrest].
    apply elem_of_cons in Hin as [[= <- <-]|Hin].
    - by rewrite String.eqb_refl.
    - destruct (String.eqb_spec k productId) as [->|Hne]; [|by apply IH].
      exfalso. apply Hk. apply list_elem_of_fmap. by exists (productId, []). }
  rewrite Hget in Hlookup. by destruct (map variant_id _).
Qed.


(** X3. With whatever the remote answers, [getInventoryZeroingChanges] asks
    for inventory levels in batches of 1 to 50 of the item ids it was
    given and never gets stuck.  When it returns, it has asked once per
    chunk, and every change it proposes is at an allowed location and has
    a delta other than zero: the changes are those of the fetched levels.
    When it throws, the last level query had failed and no change is
    handed out.  Without item ids it makes no call. *)
Theorem zeroing_changes_safe {S} (admin : Admin S)
  (inventoryItemIds : list string) (allowed : gset string) (w w' : World S)
  (o : Outcome (list InventoryChangeInputLike)) :
  InventoryReset.getInventoryZeroingChanges admin inventoryItemIds allowed w
    = (o, w') ->
  exists new,
    calls w' = calls w ++ new /\
    Forall (levelsCall inventoryItemIds) new /\
    (inventoryItemIds = [] -> new = []) /\
    match o with
    | Ret changes =>
        Forall (safeChange allowed) changes /\
        changes = zeroingChangesFor allowed (flat_map levelsOf new) /\
        map request new =
          map InventoryResetInventoryLevels (chunkArray inventoryItemIds 50)
    | Throw e => failedCall e new
    | OutOfFuel => False
    end.
Proof.
  intros Hrun. unfold InventoryReset.getInventoryZeroingChanges in Hrun.
  apply (zeroing_walk admin allowed (levelsCall inventoryItemIds)) in Hrun
    as (new & Hnew & HQ & Ho).
  - exists new. split; [done|]. split; [done|]. split.
    + intros ->. destruct new as [|c new]; [done|].
      apply Forall_cons in HQ as [Hc _]. unfold levelsCall in Hc.
      destruct (request c); try done. destruct Hc as [Hlen Hsub].
      destruct ids as [|x ids]; [simpl in Hlen; lia|].
      exfalso. apply (not_elem_of_nil x). apply Hsub. by left.
    + destruct o as [changes|e|]; [|done..].
      destruct Ho as [-> Hreq]. split; [|done].
      apply zeroingChangesFor_safe.
  - intros chunk body Hchunk. unfold levelsCall. simpl.
    apply (chunkArray_chunks inventoryItemIds 50 chunk) in Hchunk as [Hlen Hsub];
      [|lia].
    split; [done|]. intros x. apply Hsub.
Qed.

(** X4. With whatever the remote answers, the fallback helper makes between one
    and three calls, the same adjustment with the reasons "correction",
    "cycle_count", "other" in this order, and never gets stuck.  Every
    answer but the last carried INVALID_REASON.  When it returns, the
    result is the answer of the last call made, never null, and if fewer
    than three calls were made that answer carries no INVALID_REASON.  When
    it throws, the last call had failed. *)
Theorem fallback_returns_last_answer {S} (admin : Admin S)
  (input : InventoryReset.AdjustArgs) (w w' : World S)
  (o : Outcome (option AdjustPayload)) :
  InventoryReset.inventoryAdjustQuantitiesWithReasonFallback admin input w
    = (o, w') ->
  exists new,
    calls w' = calls w ++ new /\
    (1 <= length new <= 3)%nat /\
    map request new =
      map (adjustRequest input)
          (take (length new) ["correction"; "cycle_count"; "other"]) /\
    (forall i c,
       new !! i = Some c -> (Datatypes.S i < length new)%nat ->
       exists inv,
         adjustAnswerOf c = Some inv /\
         InventoryReset.hasInvalidReason inv = true) /\
    match o with
    | Ret r =>
        exists c inv,
          last new = Some c /\ adjustAnswerOf c = Some inv /\ r = Some inv /\
          ((length new < 3)%nat -> InventoryReset.hasInvalidReason inv = false)
    | Throw e => failedCall e new
    | OutOfFuel => False
    end.
Proof.
  intros Hrun.
  apply reasonFallbackLoop_walk in Hrun
    as (new & Hnew & Hlen & Hne & Hreq & Hearlier & Ho).
  exists new. split; [done|]. split.
  { split; [|done]. destruct new; [by destruct Hne|simpl; lia]. }
  split; [done|]. split; [done|].
  destruct o as [r|e|]; [|done..].
  destruct (last new) as [c|] eqn:Hlast.
  - destruct Ho as (inv & ? & ? & ?). by exists c, inv.
  - apply last_None in Hlast. subst new. by destruct Hne.
Qed.

(** X5. [getAllLocationIds] has no cap on the number of pages: against a
    remote that announces a next page on every page, it is still asking
    for locations, and has not returned, after any number of requests. *)
Theorem location_pages_without_end {S} (admin : Admin S) (fuel : nat)
  (w : World S) :
  endlessLocations admin ->
  exists w' new,
    InventoryReset.getAllLocationIds admin fuel w = (OutOfFuel, w') /\
    calls w' = calls w ++ new /\ length new = fuel /\
    Forall locationsCall new.
Proof.
  intros Hendless.
  destruct (getAllLocationIds_loop_endless admin Hendless fuel None [] w)
    as (w' & new & Hrun & Hnew & Hlen).
  exists w', new. split; [done|]. split; [done|]. split; [done|].
  apply getAllLocationIds_loop_walk in Hrun as (new' & Hnew' & HQ & _).
  rewrite Hnew in Hnew'. by apply app_inv_head in Hnew' as ->.
Qed.

Section Counting.

Lemma sum_lengths_concat {T} (ls : list (list T)) :
  sum_list_with length ls = length (concat ls).
Proof. induction ls as [|l ls IH]; simpl; [done|]. rewrite length_app. lia. Qed.

Lemma chunkArray_total {T} (arr : list T) (n : Z) :
  0 < n -> sum_list_with length (chunkArray arr n) = length arr.
Proof.
  intros Hn. rewrite sum_lengths_concat. unfold chunkArray.
  destruct (decide (n <= 0)); [lia|]. by rewrite chunkLoop_concat, drop_0.
Qed.

Lemma chunkTotal_groups (groups : JsMap (list string)) :
  chunkTotal (denyChunksOfGroups groups) =
    sum_list_with (fun entry => length (snd entry)) groups.
Proof.
  unfold chunkTotal, denyChunksOfGroups.
  induction groups as [|[k ids] groups IH]; [done|].
  cbn [flat_map]. rewrite sum_list_with_app, IH. simpl. f_equal.
  rewrite <- (chunkArray_total ids 250) by lia.
  induction (chunkArray ids 250) as [|chunk chunks IHc]; [done|].
  simpl. unfold denyInputs at 1. rewrite length_map. by rewrite IHc.
Qed.

Lemma chunkTotal_page variants :
  chunkTotal (denyChunksOfPage variants) = length (toDeny variants).
Proof.
  unfold denyChunksOfPage. rewrite chunkTotal_groups.
  by destruct (classifyVariant_state variants) as (_ & _ & -> & _).
Qed.

Lemma chunkTotal_pages pages :
  chunkTotal (flat_map denyChunksOfPage pages) = length (toDeny (concat pages)).
Proof.
  induction pages as [|page pages IH]; [done|].
  cbn [flat_map concat]. unfold chunkTotal in *.
  rewrite sum_list_with_app, IH. unfold toDeny. rewrite filter_app, length_app.
  f_equal. apply chunkTotal_page.
Qed.

Lemma denyRequests_nonempty allowed new :
  Forall (resetCall allowed) new ->
  Forall (fun chunk => (0 < length (snd chunk))%nat) (denyRequests new).
Proof.
  intros H. unfold denyRequests. apply Forall_flat_map.
  eapply Forall_impl; [exact H|]. intros c Hc.
  unfold resetCall in Hc. unfold denyRequestOf.
  destruct (request c); try done. constructor; [|done]. simpl. lia.
Qed.

Lemma chunkTotal_ge chunks :
  Forall (fun chunk : string * list VariantPolicyInput =>
            (0 < length (snd chunk))%nat) chunks ->
  (length chunks <= chunkTotal chunks)%nat.
Proof.
  unfold chunkTotal. induction 1 as [|chunk chunks Hc _ IH]; simpl; lia.
Qed.

End Counting.

(** X8. A returned inventory reset has counted every variant of every page it
    fetched, and reports as [policyUpdatedVariants] exactly the number of
    those whose policy was not DENY: each of them was sent in one policy
    update, none twice.  No policy update was empty, so there are at most
    as many updates as variants sent. *)
Theorem reset_counts_variants {S} (admin : Admin S) (fuel : nat)
  (locationIds : list string) (w w' : World S)
  (r : InventoryReset.InventoryResetResult) :
  InventoryReset.runInventoryReset admin fuel locationIds w = (Ret r, w') ->
  exists new,
    calls w' = calls w ++ new /\
    InventoryReset.variantsScanned r = length (concat (variantPages new)) /\
    InventoryReset.policyUpdatedVariants r =
      length (toDeny (concat (variantPages new))) /\
    InventoryReset.policyUpdateCalls r = length (denyRequests new) /\
    (InventoryReset.policyUpdateCalls r <=
       InventoryReset.policyUpdatedVariants r)%nat.
Proof.
  intros Hrun. unfold InventoryReset.runInventoryReset in Hrun.
  destruct (obeys_runInventoryReset_loop admin (list_to_set locationIds)
              (length locationIds) fuel locationIds None
              (InventoryReset.initialResult locationIds) eq_refl
              ltac:(by split) _ _ _ Hrun) as (new' & Hnew' & HQ & _).
  apply runInventoryReset_loop_log in Hrun as (new & Hnew & Hreq & Hd).
  rewrite Hnew in Hnew'. apply app_inv_head in Hnew' as <-.
  exists new. split; [done|].
  destruct Hd as [Hcalls Hvariants _ _ Hscanned _ _ _]. simpl in *.
  split; [done|].
  assert (Htotal : chunkTotal (denyRequests new) =
                     length (toDeny (concat (variantPages new)))).
  { rewrite Hreq. apply chunkTotal_pages. }
  split; [by rewrite Hvariants, Htotal|]. split; [done|].
  rewrite Hcalls, Hvariants. simpl.
  apply chunkTotal_ge. by eapply denyRequests_nonempty.
Qed.

Section Actions.
Context {S : Type} (admin : Admin S).

Lemma intent_is (intent : option string) (expected : string) :
  expected <> "" ->
  String.eqb (or_empty intent) expected = true <-> intent = Some expected.
Proof.
  intros Hne. rewrite String.eqb_eq. unfold or_empty, or_else.
  destruct intent as [s|]; simpl.
  - destruct (String.eqb_spec s "") as [->|Hs]; simpl.
    + split; [by intros <-|by intros [= <-]].
    + split; [by intros ->|by intros [= ->]].
  - split; [by intros <-|done].
Qed.

End Actions.

(** X9. The reset route: any intent other than "run" is answered with status
    400 and the fixed "Invalid intent" body, without a remote call.  With
    "run", the locations are listed first and the reset then runs with
    exactly the location ids listed: it reports their number, adjusts
    inventory at no other location, and answers 200 when it returns. *)
Theorem reset_action_uses_listed_locations {S} (admin : Admin S) (fuel : nat)
  (intent : option string) (w w' : World S)
  (o : Outcome (InventoryReset.InventoryResetResult * Z)) :
  InventoryReset.action admin fuel intent w = (o, w') ->
  (intent <> Some "run" ->
     o = Ret (InventoryReset.invalidIntentResult, 400) /\ w' = w) /\
  (intent = Some "run" ->
     exists listing run,
       calls w' = calls w ++ listing ++ run /\
       Forall locationsCall listing /\
       Forall (resetCall (list_to_set (flat_map locationIdsOf listing))) run /\
       match o with
       | Ret (r, status) =>
           status = 200 /\
           InventoryReset.locations r = length (flat_map locationIdsOf listing)
       | Throw e => failedCall e (listing ++ run)
       | OutOfFuel => True
       end).
Proof.
  intros Hrun. unfold InventoryReset.action in Hrun. cbv zeta in Hrun.
  pose proof (intent_is intent "run" ltac:(done)) as Hintent.
  destruct (String.eqb (or_empty intent) "run"); cbn [negb] in Hrun.
  - split; [intros Hne; destruct Hne; by apply Hintent|]. intros _.
    unfold mbind at 1, M_bind at 1, InventoryReset.getAllLocationIds in Hrun.
    destruct (InventoryReset.getAllLocationIds_loop admin fuel None [] w)
      as [[ids|e|] w1] eqn:Hlist;
      apply getAllLocationIds_loop_walk in Hlist as (listing & Hlisting & HQ1 & Ho1).
    + simpl in Ho1. subst ids.
      unfold mbind at 1, M_bind at 1, InventoryReset.runInventoryReset in Hrun.
      destruct (InventoryReset.runInventoryReset_loop admin fuel _ None _ w1)
        as [[r|e|] w2] eqn:Hreset;
        injection Hrun as <- <-;
        destruct (obeys_runInventoryReset_loop admin
                    (list_to_set (flat_map locationIdsOf listing))
                    (length (flat_map locationIdsOf listing)) fuel
                    (flat_map locationIdsOf listing) None
                    (InventoryReset.initialResult (flat_map locationIdsOf listing))
                    eq_refl ltac:(by split) _ _ _ Hreset)
          as (run & Hnew & HQ2 & Ho2);
        exists listing, run;
        (split; [by rewrite Hnew, Hlisting, <- app_assoc|]);
        (split; [done|]); (split; [done|]).
      * split; [done|]. by destruct Ho2.
      * by apply failedCall_app.
      * done.
    + injection Hrun as <- <-. exists listing, [].
      rewrite app_nil_r. by repeat split.
    + injection Hrun as <- <-. exists listing, [].
      rewrite app_nil_r. by repeat split.
  - injection Hrun as <- <-. split; [done|].
    intros Hi. apply Hintent in Hi. discriminate.
Qed.

(** X15. The scan route: any intent other than "scan" is answered with status
    400 and the body whose counts are all zero, whose offender list is
    empty and whose ok is false, without a remote call; with
    "scan" the route only issues variant queries and answers 200 with the
    result of the scan. *)
Theorem scan_action_statuses {S} (admin : Admin S) (fuel : nat)
  (intent : option string) (w w' : World S)
  (o : Outcome (InventoryScan.InventoryPolicyScanResult * Z)) :
  InventoryScan.action admin fuel intent w = (o, w') ->
  exists new,
    calls w' = calls w ++ new /\ Forall scanCall new /\
    (intent <> Some "scan" ->
       new = [] /\
       o = Ret ({| InventoryScan.ok := false;
                   InventoryScan.productsScanned := 0;
                   InventoryScan.variantsScanned := 0;
                   InventoryScan.productsWithContinue := 0;
                   InventoryScan.variantsWithContinue := 0;
                   InventoryScan.sampleOffenders := [] |}, 400)) /\
    (intent = Some "scan" ->
       match o with
       | Ret (r, status) =>
           status = 200 /\
           InventoryScan.scanInventoryPolicies admin fuel w = (Ret r, w')
       | Throw e => failedCall e new
       | OutOfFuel => True
       end).
Proof.
  intros Hrun. unfold InventoryScan.action in Hrun. cbv zeta in Hrun.
  pose proof (intent_is intent "scan" ltac:(done)) as Hintent.
  destruct (String.eqb (or_empty intent) "scan"); cbn [negb] in Hrun.
  - unfold mbind at 1, M_bind at 1 in Hrun.
    destruct (InventoryScan.scanInventoryPolicies admin fuel w)
      as [[r|e|] w1] eqn:Hscan; injection Hrun as <- <-;
      pose proof Hscan as Hscan';
      unfold InventoryScan.scanInventoryPolicies, mbind, M_bind in Hscan;
      destruct (InventoryScan.scanInventoryPolicies_loop admin fuel None
                  InventoryScan.initialState w) as [[st|e'|] w2] eqn:Hloop;
      try discriminate; injection Hscan as <- <- || injection Hscan as <-;
      destruct (scan_loop_books admin fuel None InventoryScan.initialState
                  ltac:(by unfold scanBooks; simpl; repeat split; try lia; try done)
                  _ _ _ Hloop) as (new & Hnew & HQ & Ho);
      exists new; (split; [done|]); (split; [done|]);
      (split; [intros Hne; destruct Hne; by apply Hintent|]); intros _; done.
  - injection Hrun as <- <-. exists []. rewrite app_nil_r.
    split; [done|]. split; [done|]. split.
    + intros _. by split.
    + intros Hi. apply Hintent in Hi. discriminate.
Qed.

(** X12. The index route, for every intent other than "generateProduct": with
    "archivePeruzzo" it archives the vendor "Peruzzo" and no other, and
    answers 200 with the intent and the result of the archive; any other
    intent is answered with status 400 and "Invalid intent", without a
    remote call. *)
Theorem index_action_archives_peruzzo {S G} (admin : Admin S)
  (generateProduct : M (World S) G) (fuel : nat)
  (intent : option string) (w w' : World S)
  (o : Outcome (AppIndex.ActionData G * Z)) :
  intent <> Some "generateProduct" ->
  AppIndex.action admin generateProduct fuel intent w = (o, w') ->
  exists new,
    calls w' = calls w ++ new /\ Forall (archiveCall "Peruzzo") new /\
    (intent <> Some "archivePeruzzo" ->
       new = [] /\ o = Ret (@AppIndex.ErrorData G "error" "Invalid intent", 400)) /\
    (intent = Some "archivePeruzzo" ->
       match o with
       | Ret (body, status) =>
           status = 200 /\
           exists r,
             body = @AppIndex.ArchivePeruzzoData G "archivePeruzzo" r /\
             AppIndex.archiveProductsByVendor admin fuel "Peruzzo" w = (Ret r, w')
       | Throw e => failedCall e new
       | OutOfFuel => True
       end).
Proof.
  intros Hnot Hrun. unfold AppIndex.action in Hrun. cbv zeta in Hrun.
  pose proof (intent_is intent "archivePeruzzo" ltac:(done)) as Harchive.
  pose proof (intent_is intent "generateProduct" ltac:(done)) as Hgenerate.
  destruct (String.eqb (or_empty intent) "archivePeruzzo") eqn:Ha.
  - apply String.eqb_eq in Ha. rewrite Ha in Hrun.
    unfold mbind at 1, M_bind at 1 in Hrun.
    destruct (AppIndex.archiveProductsByVendor admin fuel "Peruzzo" w)
      as [[r|e|] w1] eqn:Hrun1; injection Hrun as <- <-;
      destruct (archive_loop_books admin "Peruzzo" fuel None AppIndex.initialResult
                  ltac:(by unfold archiveBooks; simpl) _ _ _ Hrun1)
        as (new & Hnew & HQ & Ho);
      exists new; (split; [done|]); (split; [done|]);
      (split; [intros Hne; destruct Hne; by apply Harchive|]); intros _.
    + split; [done|]. by exists r.
    + done.
    + done.
  - destruct (String.eqb (or_empty intent) "generateProduct").
    + destruct Hnot. by apply Hgenerate.
    + injection Hrun as <- <-. exists []. rewrite app_nil_r.
      split; [done|]. split; [done|]. split; [done|].
      intros Hi. apply Harchive in Hi. discriminate.
Qed.

(** ** The webhook handler: what is stored, and how it fails *)

Section Deliveries.
Import Webhook.
Context (hmacSha256Base64 : string -> string -> string).
Context (JSON_parse : string -> option Json).
Context (SHOPIFY_API_SECRET : option string).

(** The verifier throws exactly when it gets to read a body that was
    already read. *)
Lemma verify_outcome request :
  (truthy SHOPIFY_API_SECRET = true /\ bodyUsed request = true /\
   verifyShopifyWebhookRequest hmacSha256Base64 SHOPIFY_API_SECRET request
     = Throw TypeError) \/
  ((truthy SHOPIFY_API_SECRET = false \/ bodyUsed request = false) /\
   exists auth,
     verifyShopifyWebhookRequest hmacSha256Base64 SHOPIFY_API_SECRET request
       = Ret auth).
Proof.
  unfold verifyShopifyWebhookRequest, clone_text.
  destruct (truthy SHOPIFY_API_SECRET); cbn [negb]; [|right; eauto].
  destruct (bodyUsed request); [by left|]. right. split; [by right|].
  destruct (negb (truthy _)); [eauto|].
  rewrite timingSafeEqual_spec.
  destruct (Nat.eqb_spec (length (Buffer_from (hmacSha256Base64
                                   (or_empty SHOPIFY_API_SECRET) (body request))))
                         (length (Buffer_from (or_empty
                                   (getHeader (headers request) "X-Shopify-Hmac-Sha256")))))
    as [Hlen|Hlen]; cbn [negb]; [|eauto].
  rewrite decide_True by done.
  destruct (negb (bool_decide _)); [eauto|].
  destruct (_ || _); eauto.
Qed.

(** Reading the JSON of a request whose body can still be read. *)
Lemma read_outcome request :
  bodyUsed request = false ->
  (body request = "" /\
   readShopifyWebhookJson JSON_parse request = Ret (body request, JObject [])) \/
  (body request <> "" /\
   exists json,
     JSON_parse (body request) = Some json /\
     readShopifyWebhookJson JSON_parse request = Ret (body request, json)) \/
  (body request <> "" /\ JSON_parse (body request) = None /\
   readShopifyWebhookJson JSON_parse request = Throw SyntaxError).
Proof.
  intros Hused. unfold readShopifyWebhookJson, clone_text. rewrite Hused.
  destruct (truthy (Some (body request))) eqn:Hb.
  - apply truthy_true in Hb as (b & [= <-] & Hb). right.
    destruct (JSON_parse (body request)) as [json|]; [left|right]; eauto.
  - apply truthy_false in Hb as [Hb|[= Hb]]; [done|]. left. by rewrite Hb.
Qed.

End Deliveries.

(** X16. A delivery answered with status 200 carried the signature of its
    body text: the secret is configured and the signature header equals
    the HMAC of the string [request.clone().text()] gave (the decoded text,
    not the octets received).  The one row stored for it carries the topic
    and the shop of the headers, both non-empty, never an empty webhook id
    or API version (an empty header is stored as NULL), and as payload the
    parsed body text, or the empty object for an empty one. *)
Theorem stored_deliveries_are_signed
  (hmacSha256Base64 : string -> string -> string)
  (JSON_parse : string -> option Webhook.Json)
  (SHOPIFY_API_SECRET : option string)
  (request : Webhook.Request) (db db' : Webhook.Db) (response : Webhook.Response) :
  Webhook.action hmacSha256Base64 JSON_parse SHOPIFY_API_SECRET request db
    = (Ret response, db') ->
  Webhook.response_status response = 200 ->
  let header name := Webhook.getHeader (Webhook.headers request) name in
  exists secret row,
    SHOPIFY_API_SECRET = Some secret /\ secret <> "" /\
    Webhook.clone_text request = Ret (Webhook.body request) /\
    header "X-Shopify-Hmac-Sha256" =
      Some (hmacSha256Base64 secret (Webhook.body request)) /\
    Webhook.webhookEvent db' = Webhook.webhookEvent db ++ [row] /\
    header "X-Shopify-Topic" = Some (Webhook.topic row) /\
    Webhook.topic row <> "" /\
    header "X-Shopify-Shop-Domain" = Some (Webhook.shop row) /\
    Webhook.shop row <> "" /\
    Webhook.webhookId row = or_else (header "X-Shopify-Webhook-Id") None /\
    Webhook.webhookId row <> Some "" /\
    Webhook.apiVersion row = or_else (header "X-Shopify-Api-Version") None /\
    Webhook.apiVersion row <> Some "" /\
    (Webhook.body request = "" /\ Webhook.payload row = Webhook.JObject [] \/
     Webhook.body request <> "" /\
     JSON_parse (Webhook.body request) = Some (Webhook.payload row)).
Proof.
  intros Hrun Hstatus header. unfold Webhook.action in Hrun.
  unfold mbind, M_bind, Webhook.lift in Hrun.
  destruct (Webhook.verifyShopifyWebhookRequest _ _ _)
    as [[topic shop webhookId apiVersion|status message]|e|] eqn:Hverify;
    [| |discriminate..].
  - apply verify_ok_inv in Hverify
      as (Hused & secret & Hsecret & Hne & Hhmac & Htopic & Ht & Hshop & Hsh
          & Hid & Hver).
    assert (Hparsed : exists json,
              Webhook.readShopifyWebhookJson JSON_parse request
                = Ret (Webhook.body request, json) /\
              (Webhook.body request = "" /\ json = Webhook.JObject [] \/
               Webhook.body request <> "" /\
               JSON_parse (Webhook.body request) = Some json)).
    { destruct (read_outcome JSON_parse request Hused)
        as [[Hb Hread]|[(Hb & json & Hp & Hread)|(Hb & Hp & Hread)]].
      - eexists. split; [exact Hread|]. by left.
      - exists json. split; [exact Hread|]. by right.
      - rewrite Hread in Hrun. discriminate. }
    destruct Hparsed as (json & Hread & Hjson). rewrite Hread in Hrun.
    cbn [snd] in Hrun.
    destruct (Webhook.webhookEvent_create _ db) as [o db1] eqn:Hcreate.
    apply webhookEvent_create_inv in Hcreate
      as [(row & -> & Hrows & -> & _)|(-> & _ & _)]; [|discriminate].
    injection Hrun as <- <-.
    exists secret. eexists. split; [done|]. split; [done|].
    split; [by unfold Webhook.clone_text; rewrite Hused|]. split; [done|].
    split; [exact Hrows|]. simpl.
    split; [done|]. split; [done|]. split; [done|]. split; [done|].
    split; [done|]. split; [rewrite Hid; apply or_else_None_nonempty|].
    split; [done|]. split; [rewrite Hver; apply or_else_None_nonempty|].
    done.
  - injection Hrun as <- <-. simpl in Hstatus. subst status.
    apply verify_fail_status in Hverify. lia.
Qed.

(** X17. The handler never gets stuck, and its responses have status 200,
    400, 401 or 500.  When it throws, it is for one of three reasons: the
    secret is configured and the body of the request was already read (the
    TypeError of [clone()], raised by the verifier); the delivery passed
    verification and its non-empty body text does not parse (the
    SyntaxError of [JSON.parse]); or the delivery passed verification, its
    body text was read, and the insert itself threw the error. *)
Theorem handler_failures
  (hmacSha256Base64 : string -> string -> string)
  (JSON_parse : string -> option Webhook.Json)
  (SHOPIFY_API_SECRET : option string)
  (request : Webhook.Request) (db db' : Webhook.Db)
  (outcome : Outcome Webhook.Response) :
  Webhook.action hmacSha256Base64 JSON_parse SHOPIFY_API_SECRET request db
    = (outcome, db') ->
  let verify :=
    Webhook.verifyShopifyWebhookRequest hmacSha256Base64 SHOPIFY_API_SECRET request in
  match outcome with
  | Ret response =>
      Webhook.response_status response = 200 \/
      Webhook.response_status response = 400 \/
      Webhook.response_status response = 401 \/
      Webhook.response_status response = 500
  | Throw e =>
      (e = TypeError /\ verify = Throw TypeError /\
       Webhook.bodyUsed request = true /\ ~ missing SHOPIFY_API_SECRET /\ db' = db) \/
      (exists topic shop webhookId apiVersion,
         verify = Ret (Webhook.AuthOk topic shop webhookId apiVersion) /\
         (e = SyntaxError /\ Webhook.body request <> "" /\
          JSON_parse (Webhook.body request) = None /\ db' = db \/
          exists json,
            Webhook.readShopifyWebhookJson JSON_parse request
              = Ret (Webhook.body request, json) /\
            Webhook.webhookEvent_create
              {| Webhook.data_topic := topic; Webhook.data_shop := shop;
                 Webhook.data_webhookId := webhookId;
                 Webhook.data_apiVersion := apiVersion;
                 Webhook.data_payload := json |} db = (Throw e, db')))
  | OutOfFuel => False
  end.
Proof.
  intros Hrun verify. subst verify.
  unfold Webhook.action in Hrun. unfold mbind, M_bind, Webhook.lift in Hrun.
  destruct (verify_outcome hmacSha256Base64 SHOPIFY_API_SECRET request)
    as [(Hsecret & Hused & Hverify)|(_ & auth & Hverify)];
    rewrite Hverify in Hrun.
  - injection Hrun as <- <-. left. split; [done|]. split; [done|].
    split; [done|]. split; [|done].
    intros Hmissing. apply truthy_false in Hmissing. congruence.
  - destruct auth as [topic shop webhookId apiVersion|status message].
    + pose proof (proj1 (verify_ok_inv _ _ _ _ _ _ _ Hverify)) as Hused.
      destruct (read_outcome JSON_parse request Hused)
        as [[Hb Hread]|[(Hb & json & Hp & Hread)|(Hb & Hp & Hread)]];
        rewrite Hread in Hrun.
      * cbn [snd] in Hrun.
        destruct (Webhook.webhookEvent_create _ db) as [[row|e|] db1] eqn:Hcreate;
          injection Hrun as <- <-.
        -- by left.
        -- right. exists topic, shop, webhookId, apiVersion. split; [done|].
           right. eexists. split; [exact Hread|exact Hcreate].
        -- unfold Webhook.webhookEvent_create in Hcreate.
           by destruct (existsb _ _).
      * cbn [snd] in Hrun.
        destruct (Webhook.webhookEvent_create _ db) as [[row|e|] db1] eqn:Hcreate;
          injection Hrun as <- <-.
        -- by left.
        -- right. exists topic, shop, webhookId, apiVersion. split; [done|].
           right. eexists. split; [exact Hread|exact Hcreate].
        -- unfold Webhook.webhookEvent_create in Hcreate.
           by destruct (existsb _ _).
      * injection Hrun as <- <-. right.
        exists topic, shop, webhookId, apiVersion. split; [done|]. by left.
    + injection Hrun as <- <-. simpl.
      apply verify_fail_status in Hverify. tauto.
Qed.

(** ** The policy scan: what the report says *)

(** X14. The report of a returned policy scan describes the variants of the
    pages it fetched: it counts all of them, counts those with the policy
    CONTINUE, counts the distinct products of either kind, lists the first
    25 variants with CONTINUE in the order scanned, and is ok exactly when
    no variant has CONTINUE. *)
Theorem scan_report_matches_pages {S} (admin : Admin S) (fuel : nat)
  (w w' : World S) (r : InventoryScan.InventoryPolicyScanResult) :
  InventoryScan.scanInventoryPolicies admin fuel w = (Ret r, w') ->
  exists new,
    calls w' = calls w ++ new /\
    let scanned := scannedVariants new in
    InventoryScan.variantsScanned r = length scanned /\
    InventoryScan.variantsWithContinue r = length (offending scanned) /\
    InventoryScan.productsScanned r =
      size (list_to_set (map scan_product_id scanned) : gset string) /\
    InventoryScan.productsWithContinue r =
      size (list_to_set (map scan_product_id (offending scanned)) : gset string) /\
    InventoryScan.sampleOffenders r = take 25 (map offenderOf (offending scanned)) /\
    (InventoryScan.ok r = true <-> offending scanned = []).
Proof.
  intros Hrun. unfold InventoryScan.scanInventoryPolicies in Hrun.
  apply bind_ret_inv in Hrun as (st & w1 & Hloop & Hret).
  injection Hret as <- <-.
  apply (scan_loop_sees admin fuel None _ _ _ _ []) in Hloop
    as (new & Hnew & Hsees).
  - exists new. split; [done|]. cbv zeta. simpl in Hsees.
    destruct Hsees as (Hids & Hbad & Hscanned & Hcount & Hsample & Hok).
    cbn [InventoryScan.variantsScanned InventoryScan.variantsWithContinue
         InventoryScan.productsScanned InventoryScan.productsWithContinue
         InventoryScan.sampleOffenders InventoryScan.ok].
    rewrite Hids, Hbad, Hscanned. split; [lia|]. done.
  - unfold scanSees. simpl. by repeat split.
Qed.

(* ===================================================================== *)
(** * The theorems at work on the test doubles *)
(* ===================================================================== *)

Lemma chunkArray_partition_witness :
  chunkArray [1; 2; 3; 4; 5] (-1) = [[1; 2; 3; 4; 5]] /\
  concat (chunkArray [1; 2; 3; 4; 5] 2) = [1; 2; 3; 4; 5] /\
  map length (chunkArray (replicate 530 0) 250) = [250; 250; 30]%nat.
Proof.
  split; [|split].
  - apply (chunkArray_partition [1; 2; 3; 4; 5] (-1)). lia.
  - apply (chunkArray_partition [1; 2; 3; 4; 5] 2). lia.
  - apply (chunkArray_partition (replicate 530 0) 250). reflexivity.
Defined.

Lemma adjust_user_errors_classified_witness :
  length thirtyErrors = 30%nat /\
  length (filter notStocked thirtyErrors) = 5%nat /\
  (let r := InventoryReset.recordAdjustUserErrors thirtyErrors
              (InventoryReset.initialResult [location1]) in
   InventoryReset.ok r = false /\
   InventoryReset.inventoryAdjustIgnoredNotStockedErrors r = 5%nat /\
   InventoryReset.inventoryAdjustUserErrors r = 25%nat /\
   length (InventoryReset.sampleErrors r) = 25%nat) /\
  (exists r w',
     InventoryReset.adjustChunk fakeAdmin (InventoryReset.changes sevenDown)
       (InventoryReset.initialResult [location1]) (fresh thirtyErrorShop)
       = (Ret r, w') /\
     (exists new c inv,
        calls w' = calls (fresh thirtyErrorShop) ++ new /\
        last new = Some c /\ adjustAnswerOf c = Some inv /\
        r = InventoryReset.recordAdjustUserErrors (userErrorsOf inv)
              (InventoryReset.set_inventoryAdjustCalls
                 (InventoryReset.inventoryAdjustCalls
                    (InventoryReset.initialResult [location1]) + 1)%nat
                 (InventoryReset.initialResult [location1]))) /\
     InventoryReset.inventoryAdjustCalls r = 1%nat /\
     InventoryReset.ok r = false /\
     InventoryReset.inventoryAdjustIgnoredNotStockedErrors r = 5%nat /\
     InventoryReset.inventoryAdjustUserErrors r = 25%nat /\
     length (InventoryReset.sampleErrors r) = 25%nat) /\
  (exists r w',
     InventoryReset.runInventoryReset fakeAdmin 2 [location1] (fresh thirtyErrorShop)
       = (Ret r, w') /\
     length (finalAdjustErrors (calls w')) = 30%nat /\
     InventoryReset.inventoryAdjustIgnoredNotStockedErrors r = 5%nat /\
     InventoryReset.inventoryAdjustUserErrors r = 25%nat).
Proof.
  split; [reflexivity|]. split; [reflexivity|]. split; [|split].
  - apply (adjust_user_errors_classified fakeAdmin
             {| message := ""; code := None |}
             (InventoryReset.initialResult []) thirtyErrors [location1]);
      reflexivity.
  - eexists _, _. split; [vm_compute; reflexivity|].
    split; [|repeat split; reflexivity].
    match goal with
    | |- exists new c inv, _ /\ _ /\ _ /\ ?r' = _ =>
        destruct (proj1 (proj2 (proj2 (proj2
                   (adjust_user_errors_classified fakeAdmin
                      {| message := ""; code := None |}
                      (InventoryReset.initialResult [location1]) [] [location1]))))
                   (InventoryReset.changes sevenDown) (fresh thirtyErrorShop) _ r'
                   ltac:(vm_compute; reflexivity))
          as (new & c & inv & Hnew & Hlast & Hans & Hr & _)
    end.
    exists new, c, inv. split; [exact Hnew|]. split; [exact Hlast|].
    split; [exact Hans|exact Hr].
  - eexists _, _. split; [vm_compute; reflexivity|].
    split; [reflexivity|].
    match goal with
    | |- InventoryReset.inventoryAdjustIgnoredNotStockedErrors ?r' = _ /\ _ =>
        destruct (proj2 (proj2 (proj2 (proj2
                   (adjust_user_errors_classified fakeAdmin
                      {| message := ""; code := None |}
                      (InventoryReset.initialResult []) [] [location1]))))
                   thirtyErrorShop 2%nat r' _ ltac:(vm_compute; reflexivity))
          as (Hignored & Hfailures & _)
    end.
    split; [exact Hignored|exact Hfailures].
Defined.

Lemma reason_fallback_attempts_witness :
  answers fakeAdmin (adjustRequest sevenDown "correction") pickyShop
    (fake_adjust pickyShop "correction") pickyShop /\
  InventoryReset.inventoryAdjustQuantitiesWithReasonFallback fakeAdmin sevenDown
    (fresh pickyShop) =
    (Ret (Some noErrors),
     {| remote := pickyShop;
        calls := [ logged fakeAdmin (adjustRequest sevenDown "correction") pickyShop;
                   logged fakeAdmin (adjustRequest sevenDown "cycle_count") pickyShop;
                   logged fakeAdmin (adjustRequest sevenDown "other") pickyShop ] |}).
Proof.
  assert (H1 : answers fakeAdmin (adjustRequest sevenDown "correction") pickyShop
                 (fake_adjust pickyShop "correction") pickyShop)
    by (eexists; split; reflexivity).
  split; [exact H1|].
  destruct (reason_fallback_attempts fakeAdmin sevenDown (fresh pickyShop) _ _ H1)
    as [_ Hretry].
  destruct (Hretry ltac:(repeat constructor)
                   (fake_adjust pickyShop "cycle_count") pickyShop
                   ltac:(eexists; split; reflexivity)) as [_ Hlast].
  exact (Hlast ltac:(repeat constructor) noErrors pickyShop
               ltac:(eexists; split; reflexivity)).
Defined.

Lemma inventory_zeroing_changes_witness :
  (forall chunk s,
     is_Some (data (fst (graphql fakeAdmin (InventoryResetInventoryLevels chunk) s)))) /\
  exists new s',
    InventoryReset.getInventoryZeroingChanges fakeAdmin
      ["gid://shopify/InventoryItem/1"] {[ location1 ]} (fresh allDenyShop) =
      (Ret (zeroingChangesFor {[ location1 ]} (flat_map levelsOf new)),
       {| remote := s'; calls := calls (fresh allDenyShop) ++ new |}) /\
    map request new =
      map InventoryResetInventoryLevels
          (chunkArray ["gid://shopify/InventoryItem/1"] 50) /\
    zeroingChangesFor {[ location1 ]} (flat_map levelsOf new) =
      [{| inventoryItemId := "gid://shopify/InventoryItem/1";
          locationId := location1; delta := -7 |}].
Proof.
  assert (H : forall chunk s,
            is_Some (data (fst (graphql fakeAdmin
                                  (InventoryResetInventoryLevels chunk) s))))
    by (intros chunk s; eexists; reflexivity).
  split; [exact H|].
  destruct (proj2 (proj2 (inventory_zeroing_changes fakeAdmin
                             ["gid://shopify/InventoryItem/1"] {[ location1 ]}
                             (fresh allDenyShop))) H)
    as (new & s' & Hrun & Hreq).
  exists new, s'. split; [exact Hrun|]. split; [exact Hreq|].
  assert (Hrun' :
    InventoryReset.getInventoryZeroingChanges fakeAdmin
      ["gid://shopify/InventoryItem/1"] {[ location1 ]} (fresh allDenyShop) =
    (Ret [{| inventoryItemId := "gid://shopify/InventoryItem/1";
             locationId := location1; delta := -7 |}],
     {| remote := allDenyShop;
        calls := [logged fakeAdmin
                    (InventoryResetInventoryLevels ["gid://shopify/InventoryItem/1"])
                    allDenyShop] |})) by (vm_compute; reflexivity).
  rewrite Hrun in Hrun'. by injection Hrun' as ->.
Defined.

Lemma location_pagination_witness :
  servesLocations fakeAdmin threePageShop None locationPages emptyShop /\
  (length locationPages <= 3)%nat /\
  exists new,
    InventoryReset.getAllLocationIds fakeAdmin 3 (fresh threePageShop) =
      (Ret ["gid://shopify/Location/A"; "gid://shopify/Location/B";
            "gid://shopify/Location/C"],
       {| remote := emptyShop; calls := new |}) /\
    map request new =
      [InventoryResetLocations None; InventoryResetLocations (Some "cursor-1");
       InventoryResetLocations (Some "cursor-2")] /\
    length new = 3%nat.
Proof.
  assert (Hs : servesLocations fakeAdmin threePageShop None locationPages emptyShop).
  { eapply serves_more; [eexists; split; reflexivity|reflexivity|].
    eapply serves_more; [eexists; split; reflexivity|reflexivity|].
    eapply serves_last; [eexists; split; reflexivity|reflexivity]. }
  assert (Hfuel : (length locationPages <= 3)%nat) by (simpl; lia).
  split; [exact Hs|]. split; [exact Hfuel|].
  destruct (proj2 (location_pagination fakeAdmin threePageShop 3)
              locationPages emptyShop Hs Hfuel) as (new & Hrun & Hreq & Hlen & _).
  exists new. split; [exact Hrun|]. split; [exact Hreq|exact Hlen].
Defined.


Lemma deny_sweep_idempotent_witness :
  alwaysAnswers fakeAdmin /\ boundsPages fakeAdmin fakeRank /\
  (fakeRank settledShop < 2)%nat /\
  exists r w',
    InventoryReset.runInventoryReset fakeAdmin 2 [location1] (fresh settledShop)
      = (Ret r, w') /\
    Forall allDeny (variantPages (calls w')) /\
    denyRequests (calls w') = [] /\
    InventoryReset.policyUpdateCalls r = 0%nat /\
    InventoryReset.ok r = true.
Proof.
  assert (Hfuel : (fakeRank settledShop < 2)%nat) by (vm_compute; lia).
  split; [exact fakeAdmin_alwaysAnswers|]. split; [exact fakeAdmin_boundsPages|].
  split; [exact Hfuel|].
  destruct (deny_sweep_idempotent fakeAdmin fakeRank settledShop [location1] 2
              fakeAdmin_alwaysAnswers fakeAdmin_boundsPages Hfuel)
    as (r & w' & Hrun & Hsweep).
  exists r, w'. split; [exact Hrun|].
  assert (Hrun' : exists r0 w0,
            InventoryReset.runInventoryReset fakeAdmin 2 [location1] (fresh settledShop)
              = (Ret r0, w0) /\
            Forall allDeny (variantPages (calls w0)) /\
            InventoryReset.inventoryAdjustUserErrors r0 = 0%nat).
  { eexists _, _. split; [vm_compute; reflexivity|].
    split; [repeat constructor|reflexivity]. }
  destruct Hrun' as (r0 & w0 & Hrun0 & Hdeny & Hadjust).
  rewrite Hrun in Hrun0. injection Hrun0 as <- <-.
  destruct (Hsweep Hdeny) as (Hnone & Hcalls & _ & _ & Hok).
  split; [exact Hdeny|]. split; [exact Hnone|]. split; [exact Hcalls|].
  apply Hok, Hadjust.
Defined.

Lemma policy_updated_counts_dispatched_witness :
  exists r w',
    InventoryReset.runInventoryReset fakeAdmin 1 [location1] (fresh refusingShop)
      = (Ret r, w') /\
    InventoryReset.policyUpdatedVariants r = 2%nat /\
    InventoryReset.policyUpdateUserErrors r = 1%nat /\
    length (confirmedUpdates (calls w')) = 0%nat /\
    (length (confirmedUpdates (calls w')) < InventoryReset.policyUpdatedVariants r)%nat.
Proof.
  eexists _, _. split; [vm_compute; reflexivity|].
  match goal with
  | |- InventoryReset.policyUpdatedVariants ?r = _ /\ _ =>
      destruct (proj2 (policy_updated_counts_dispatched fakeAdmin)
                  refusingShop 1%nat [location1] r _ ltac:(vm_compute; reflexivity))
        as (_ & _ & Hexceeds)
  end.
  split; [reflexivity|]. split; [reflexivity|]. split; [reflexivity|].
  apply Hexceeds.
  - repeat constructor.
  - apply Exists_cons_tl, Exists_cons_hd. vm_compute. lia.
Defined.

Lemma ingestion_all_or_nothing_witness :
  let stored :=
    {| Webhook.id := "evt_1"; Webhook.topic := "customers/data_request";
       Webhook.shop := "example.myshopify.com";
       Webhook.webhookId := Some "b54557e4"; Webhook.apiVersion := None;
       Webhook.payload := Webhook.JObject [("a", Webhook.JNumber 1)];
       Webhook.status := Webhook.PENDING; Webhook.attempts := 0;
       Webhook.lastError := None; Webhook.createdAt := 1735000000;
       Webhook.processedAt := None |} in
  let db1 :=
    {| Webhook.webhookEvent := [stored]; Webhook.nextId := "evt_1";
       Webhook.now := 1735000000 |} in
  Webhook.action fakeHmac fakeParse (Some "shpss_secret") signedDelivery emptyDb
    = (Ret {| Webhook.response_body := "OK"; Webhook.response_status := 200 |}, db1) /\
  Webhook.action fakeHmac fakeParse (Some "shpss_secret") tamperedDelivery emptyDb
    = (Ret {| Webhook.response_body := "Invalid HMAC";
              Webhook.response_status := 401 |}, emptyDb) /\
  Webhook.webhookEvent db1 = Webhook.webhookEvent emptyDb ++ [stored] /\
  Webhook.webhookEvent emptyDb = [].
Proof.
  intros stored db1.
  assert (Hgood :
    Webhook.action fakeHmac fakeParse (Some "shpss_secret") signedDelivery emptyDb
    = (Ret {| Webhook.response_body := "OK"; Webhook.response_status := 200 |}, db1))
    by (vm_compute; reflexivity).
  assert (Hbad :
    Webhook.action fakeHmac fakeParse (Some "shpss_secret") tamperedDelivery emptyDb
    = (Ret {| Webhook.response_body := "Invalid HMAC";
              Webhook.response_status := 401 |}, emptyDb))
    by (vm_compute; reflexivity).
  split; [exact Hgood|]. split; [exact Hbad|].
  destruct (ingestion_all_or_nothing fakeHmac fakeParse (Some "shpss_secret")
              signedDelivery emptyDb db1 _ Hgood) as (_ & _ & Hstored).
  destruct (ingestion_all_or_nothing fakeHmac fakeParse (Some "shpss_secret")
              tamperedDelivery emptyDb emptyDb _ Hbad) as (_ & Hrejected & _).
  split.
  - apply (Hstored "customers/data_request" "example.myshopify.com"
                   (Some "b54557e4") None (Webhook.JObject [("a", Webhook.JNumber 1)])).
    + vm_compute; reflexivity.
    + right. split; [discriminate|vm_compute; reflexivity].
    + constructor.
  - destruct (Hrejected 401 "Invalid HMAC" ltac:(vm_compute; reflexivity))
      as (_ & Hsame & _).
    reflexivity.
Defined.

(** ** The further properties at work on the test doubles *)

Lemma reset_calls_within_limits_witness :
  exists o w',
    InventoryReset.runInventoryReset fakeAdmin 2 [location1] (fresh allDenyShop)
      = (o, w') /\
    exists new,
      calls w' = calls (fresh allDenyShop) ++ new /\
      Forall (resetCall (list_to_set [location1])) new.
Proof.
  eexists _, _. split; [vm_compute; reflexivity|].
  eapply (reset_calls_within_limits fakeAdmin 2 [location1] (fresh allDenyShop)).
  vm_compute; reflexivity.
Defined.

Lemma reset_samples_capped_witness :
  exists r w',
    InventoryReset.runInventoryReset fakeAdmin 2 [location1] (fresh refusingShop)
      = (Ret r, w') /\
    length (InventoryReset.sampleErrors r) =
      Nat.min 25 (InventoryReset.inventoryAdjustUserErrors r +
                  InventoryReset.policyUpdateUserErrors r) /\
    InventoryReset.locations r = length [location1].
Proof.
  eexists _, _. split; [vm_compute; reflexivity|].
  eapply (reset_samples_capped fakeAdmin 2 [location1] (fresh refusingShop)).
  vm_compute; reflexivity.
Defined.

Lemma reset_counts_variants_witness :
  exists r w',
    InventoryReset.runInventoryReset fakeAdmin 2 [location1] (fresh refusingShop)
      = (Ret r, w') /\
    exists new,
      calls w' = calls (fresh refusingShop) ++ new /\
      InventoryReset.variantsScanned r = length (concat (variantPages new)) /\
      InventoryReset.policyUpdatedVariants r =
        length (toDeny (concat (variantPages new))) /\
      InventoryReset.policyUpdateCalls r = length (denyRequests new) /\
      (InventoryReset.policyUpdateCalls r <=
         InventoryReset.policyUpdatedVariants r)%nat.
Proof.
  eexists _, _. split; [vm_compute; reflexivity|].
  eapply (reset_counts_variants fakeAdmin 2 [location1] (fresh refusingShop)).
  vm_compute; reflexivity.
Defined.

Lemma zeroing_changes_safe_witness :
  exists changes w',
    InventoryReset.getInventoryZeroingChanges fakeAdmin
      ["gid://shopify/InventoryItem/1"] {[ location1 ]} (fresh allDenyShop)
      = (Ret changes, w') /\
    exists new,
      calls w' = calls (fresh allDenyShop) ++ new /\
      Forall (levelsCall ["gid://shopify/InventoryItem/1"]) new /\
      (["gid://shopify/InventoryItem/1"] = [] -> new = []) /\
      Forall (safeChange {[ location1 ]}) changes /\
      changes = zeroingChangesFor {[ location1 ]} (flat_map levelsOf new) /\
      map request new =
        map InventoryResetInventoryLevels
            (chunkArray ["gid://shopify/InventoryItem/1"] 50).
Proof.
  eexists _, _. split; [vm_compute; reflexivity|].
  refine (zeroing_changes_safe fakeAdmin ["gid://shopify/InventoryItem/1"]
            {[ location1 ]} (fresh allDenyShop) _ (Ret _) _).
  vm_compute; reflexivity.
Defined.

Lemma fallback_returns_last_answer_witness :
  exists r w',
    InventoryReset.inventoryAdjustQuantitiesWithReasonFallback fakeAdmin sevenDown
      (fresh pickyShop) = (Ret r, w') /\
    exists new,
      calls w' = calls (fresh pickyShop) ++ new /\
      (1 <= length new <= 3)%nat /\
      map request new =
        map (adjustRequest sevenDown)
            (take (length new) ["correction"; "cycle_count"; "other"]) /\
      (forall i c,
         new !! i = Some c -> (Datatypes.S i < length new)%nat ->
         exists inv,
           adjustAnswerOf c = Some inv /\
           InventoryReset.hasInvalidReason inv = true) /\
      exists c inv,
        last new = Some c /\ adjustAnswerOf c = Some inv /\ r = Some inv /\
        ((length new < 3)%nat -> InventoryReset.hasInvalidReason inv = false).
Proof.
  eexists _, _. split; [vm_compute; reflexivity|].
  refine (fallback_returns_last_answer fakeAdmin sevenDown (fresh pickyShop)
            _ (Ret _) _).
  vm_compute; reflexivity.
Defined.

Lemma location_pages_without_end_witness :
  endlessLocations endlessAdmin /\
  exists w' new,
    InventoryReset.getAllLocationIds endlessAdmin 3 (fresh 0%nat) = (OutOfFuel, w') /\
    calls w' = calls (fresh 0%nat) ++ new /\ length new = 3%nat /\
    Forall locationsCall new.
Proof.
  assert (H : endlessLocations endlessAdmin).
  { intros after s. eexists _, _. split; [eexists; split; reflexivity|reflexivity]. }
  split; [exact H|].
  exact (location_pages_without_end endlessAdmin 3 (fresh 0%nat) H).
Defined.

Lemma reset_action_uses_listed_locations_witness :
  exists r w',
    InventoryReset.action fakeAdmin 3 (Some "run") (fresh threePageShop)
      = (Ret (r, 200), w') /\
    exists listing run,
      calls w' = calls (fresh threePageShop) ++ listing ++ run /\
      Forall locationsCall listing /\
      Forall (resetCall (list_to_set (flat_map locationIdsOf listing))) run /\
      200 = 200 /\
      InventoryReset.locations r = length (flat_map locationIdsOf listing).
Proof.
  eexists _, _. split; [vm_compute; reflexivity|].
  refine (proj2 (reset_action_uses_listed_locations fakeAdmin 3 (Some "run")
                   (fresh threePageShop) _ (Ret (_, 200)) _) eq_refl).
  vm_compute; reflexivity.
Defined.

Lemma runs_throw_only_remote_failures_witness :
  exists e w',
    InventoryScan.scanInventoryPolicies downAdmin 1 (fresh tt) = (Throw e, w') /\
    exists c,
      last (calls w') = Some c /\ data (response c) = None /\
      e = GraphQLRequestFailed (errors (response c)).
Proof.
  eexists _, _. split; [vm_compute; reflexivity|].
  eapply (runs_throw_only_remote_failures downAdmin 1 tt).
  right. right. vm_compute; reflexivity.
Defined.

Lemma archive_books_balance_witness :
  exists o w',
    AppIndex.archiveProductsByVendor fakeAdmin 2 "Peruzzo" (fresh vendorShop)
      = (o, w') /\
    exists new,
      calls w' = calls (fresh vendorShop) ++ new /\
      Forall (archiveCall "Peruzzo") new /\
      forall r, o = Ret r ->
        length (AppIndex.sampleErrors r) = Nat.min 25 (AppIndex.userErrors r) /\
        (AppIndex.archived r + AppIndex.alreadyArchived r <= AppIndex.scanned r)%nat /\
        (AppIndex.scanned r <=
           AppIndex.archived r + AppIndex.alreadyArchived r + AppIndex.userErrors r)%nat /\
        (AppIndex.ok r = true ->
           AppIndex.scanned r = (AppIndex.archived r + AppIndex.alreadyArchived r)%nat).
Proof.
  eexists _, _. split; [vm_compute; reflexivity|].
  eapply (archive_books_balance fakeAdmin 2 "Peruzzo" (fresh vendorShop)).
  vm_compute; reflexivity.
Defined.

Lemma index_action_archives_peruzzo_witness :
  Some "archivePeruzzo" <> Some "generateProduct" /\
  exists body w',
    AppIndex.action fakeAdmin (mret tt) 2 (Some "archivePeruzzo") (fresh vendorShop)
      = (Ret (body, 200), w') /\
    200 = 200 /\
    exists r,
      body = @AppIndex.ArchivePeruzzoData unit "archivePeruzzo" r /\
      AppIndex.archiveProductsByVendor fakeAdmin 2 "Peruzzo" (fresh vendorShop)
        = (Ret r, w').
Proof.
  assert (H : Some "archivePeruzzo" <> Some "generateProduct") by discriminate.
  split; [exact H|].
  eexists _, _. split; [vm_compute; reflexivity|].
  destruct (index_action_archives_peruzzo fakeAdmin (mret tt) 2
              (Some "archivePeruzzo") (fresh vendorShop) _ (Ret (_, 200)) H
              ltac:(vm_compute; reflexivity)) as (new & _ & _ & _ & Hgood).
  exact (Hgood eq_refl).
Defined.

Lemma scan_reads_only_and_counts_witness :
  exists r w',
    InventoryScan.scanInventoryPolicies fakeAdmin 2 (fresh vendorShop)
      = (Ret r, w') /\
    exists new,
      calls w' = calls (fresh vendorShop) ++ new /\ Forall scanCall new /\
      forall r', Ret r = Ret r' ->
        (InventoryScan.productsWithContinue r' <= InventoryScan.productsScanned r')%nat /\
        (InventoryScan.productsWithContinue r' <=
           InventoryScan.variantsWithContinue r')%nat /\
        (InventoryScan.variantsWithContinue r' <= InventoryScan.variantsScanned r')%nat /\
        (InventoryScan.productsScanned r' <= InventoryScan.variantsScanned r')%nat /\
        (InventoryScan.ok r' = true <-> InventoryScan.productsWithContinue r' = 0%nat) /\
        length (InventoryScan.sampleOffenders r') =
          Nat.min 25 (InventoryScan.variantsWithContinue r').
Proof.
  eexists _, _. split; [vm_compute; reflexivity|].
  eapply (scan_reads_only_and_counts fakeAdmin 2 (fresh vendorShop)).
  vm_compute; reflexivity.
Defined.

Lemma scan_report_matches_pages_witness :
  exists r w',
    InventoryScan.scanInventoryPolicies fakeAdmin 2 (fresh vendorShop)
      = (Ret r, w') /\
    exists new,
      calls w' = calls (fresh vendorShop) ++ new /\
      let scanned := scannedVariants new in
      InventoryScan.variantsScanned r = length scanned /\
      InventoryScan.variantsWithContinue r = length (offending scanned) /\
      InventoryScan.productsScanned r =
        size (list_to_set (map scan_product_id scanned) : gset string) /\
      InventoryScan.productsWithContinue r =
        size (list_to_set (map scan_product_id (offending scanned)) : gset string) /\
      InventoryScan.sampleOffenders r = take 25 (map offenderOf (offending scanned)) /\
      (InventoryScan.ok r = true <-> offending scanned = []).
Proof.
  eexists _, _. split; [vm_compute; reflexivity|].
  eapply (scan_report_matches_pages fakeAdmin 2 (fresh vendorShop)).
  vm_compute; reflexivity.
Defined.

Lemma scan_action_statuses_witness :
  None <> Some "scan" /\
  exists o w',
    InventoryScan.action fakeAdmin 2 None (fresh vendorShop) = (o, w') /\
    exists new,
      calls w' = calls (fresh vendorShop) ++ new /\ new = [] /\
      o = Ret ({| InventoryScan.ok := false;
                  InventoryScan.productsScanned := 0;
                  InventoryScan.variantsScanned := 0;
                  InventoryScan.productsWithContinue := 0;
                  InventoryScan.variantsWithContinue := 0;
                  InventoryScan.sampleOffenders := [] |}, 400).
Proof.
  assert (H : @None string <> Some "scan") by discriminate.
  split; [exact H|].
  eexists _, _. split; [vm_compute; reflexivity|].
  destruct (scan_action_statuses fakeAdmin 2 None (fresh vendorShop) _ _
              ltac:(vm_compute; reflexivity)) as (new & Hnew & _ & Hbad & _).
  destruct (Hbad H) as (Hnil & Ho).
  exists new. split; [exact Hnew|]. split; [exact Hnil|exact Ho].
Defined.

Lemma stored_deliveries_are_signed_witness :
  exists response db',
    Webhook.action fakeHmac fakeParse (Some "shpss_secret") signedDelivery emptyDb
      = (Ret response, db') /\
    Webhook.response_status response = 200 /\
    exists secret row,
      Some "shpss_secret" = Some secret /\
      Webhook.getHeader (Webhook.headers signedDelivery) "X-Shopify-Hmac-Sha256" =
        Some (fakeHmac secret (Webhook.body signedDelivery)) /\
      Webhook.webhookEvent db' = Webhook.webhookEvent emptyDb ++ [row].
Proof.
  eexists _, _. split; [vm_compute; reflexivity|]. split; [reflexivity|].
  destruct (stored_deliveries_are_signed fakeHmac fakeParse (Some "shpss_secret")
              signedDelivery emptyDb _ _ ltac:(vm_compute; reflexivity)
              ltac:(reflexivity))
    as (secret & row & Hsecret & _ & _ & Hhmac & Hrows & _).
  exists secret, row. split; [exact Hsecret|]. split; [exact Hhmac|exact Hrows].
Defined.

Lemma handler_failures_witness :
  (exists e db',
     Webhook.action fakeHmac fakeParse (Some "shpss_secret") spentDelivery emptyDb
       = (Throw e, db') /\
     e = TypeError /\ Webhook.bodyUsed spentDelivery = true) /\
  (exists e db',
     Webhook.action fakeHmac fakeParse (Some "shpss_secret") garbledDelivery emptyDb
       = (Throw e, db') /\
     e = SyntaxError /\ fakeParse (Webhook.body garbledDelivery) = None).
Proof.
  split.
  - eexists _, _. split; [vm_compute; reflexivity|].
    destruct (handler_failures fakeHmac fakeParse (Some "shpss_secret")
                spentDelivery emptyDb _ _ ltac:(vm_compute; reflexivity))
      as [(He & _ & Hused & _)|(topic & shop & webhookId & apiVersion & Hverify & _)].
    + split; [exact He|exact Hused].
    + vm_compute in Hverify. discriminate.
  - eexists _, _. split; [vm_compute; reflexivity|].
    destruct (handler_failures fakeHmac fakeParse (Some "shpss_secret")
                garbledDelivery emptyDb _ _ ltac:(vm_compute; reflexivity))
      as [(_ & Hverify & _)|(topic & shop & webhookId & apiVersion & _
                             & [(He & _ & Hparse & _)|(json & Hread & _)])].
    + vm_compute in Hverify. discriminate.
    + split; [exact He|exact Hparse].
    + vm_compute in Hread. discriminate.
Defined.
